(** * Report decoding helpers of the IPU test utilities

    A shallow embedding of
    [tensorflow/compiler/plugin/poplar/tests/test_utils.py]:
    the name/whitelist matching functions, [TensorMap] and
    [ReportJSON.parse_events] with its derived queries and assertions,
    the functions that extract events, the traversal of
    [move_variable_initialization_to_cpu] and the options that
    [configure_ipu_system] builds.

    Python values decoded from JSON are the inductive type [json];
    Python exceptions are the type [exn]; a computation that may raise
    is a [result]; a method of [ReportJSON], which mutates [self] and may
    raise, is a state-and-exception computation [M].

    Python floats are IEEE 754 binary64 numbers, computed with the
    [SpecFloat] operations of the Standard Library.  The two decoders
    that [parse_events] calls, [IpuTraceEvent.FromString] and
    [json.loads], are parameters of the model; [fnmatch.fnmatch] is
    modelled after the Python standard library. *)

From Stdlib Require Import ZArith String Ascii List Bool Lia.
From Stdlib Require Import Floats.SpecFloat.
From stdpp Require Import base option list gmap strings pretty.

Import ListNotations.
Local Open Scope string_scope.
Local Open Scope list_scope.
Local Open Scope Z_scope.

(** ** Python values and exceptions *)

(** Modelled from the spec: the kinds of [IpuTraceEvent.type], declared
    in [trace.proto], which is not among the sources; these are the six
    kinds that [parse_events] tests for. *)
Inductive EventType :=
| COMPILE_BEGIN
| COMPILE_END
| HOST_TO_DEVICE_TRANSFER
| DEVICE_TO_HOST_TRANSFER
| LOAD_ENGINE
| EXECUTE.

#[global] Instance EventType_eq_dec : EqDecision EventType.
Proof. solve_decision. Defined.

Definition EventType_to_nat (t : EventType) : nat :=
  match t with
  | COMPILE_BEGIN => 0
  | COMPILE_END => 1
  | HOST_TO_DEVICE_TRANSFER => 2
  | DEVICE_TO_HOST_TRANSFER => 3
  | LOAD_ENGINE => 4
  | EXECUTE => 5
  end%nat.

Definition EventType_of_nat (n : nat) : option EventType :=
  match n with
  | 0 => Some COMPILE_BEGIN
  | 1 => Some COMPILE_END
  | 2 => Some HOST_TO_DEVICE_TRANSFER
  | 3 => Some DEVICE_TO_HOST_TRANSFER
  | 4 => Some LOAD_ENGINE
  | 5 => Some EXECUTE
  | _ => None
  end%nat.

#[global] Program Instance EventType_countable : Countable EventType :=
  inj_countable EventType_to_nat EventType_of_nat _.
Next Obligation. by intros []. Qed.

(** A value as [json.loads] builds it.  A dict keeps its items in
    insertion order; a float is an IEEE 754 binary64 number. *)
#[local] Unset Elimination Schemes.
Inductive json :=
| JNull
| JBool (b : bool)
| JInt (n : Z)
| JFloat (f : spec_float)
| JStr (s : string)
| JList (l : list json)
| JDict (d : list (string * json)).
#[local] Set Elimination Schemes.

(** Keys of the dictionaries the code subscripts. *)
Inductive pykey :=
| KEvent (t : EventType)
| KStr (s : string)
| KInt (n : Z).

Inductive exn :=
| AssertionError
| TestFailure (first second : Z) (msg : string)
| UnicodeDecodeError
| ValueError
| KeyError (k : pykey)
| IndexError
| TypeError
| AttributeError
| ZeroDivisionError
| OverflowError
| DecodeError
| Unmodelled.

Inductive result (A : Type) :=
| Ok (a : A)
| Raise (e : exn).
Arguments Ok {A} a.
Arguments Raise {A} e.

#[global] Instance result_ret : MRet result := @Ok.
#[global] Instance result_bind : MBind result :=
  fun A B f r => match r with Ok a => f a | Raise e => Raise e end.

(** The value of a computation that returned, [d] otherwise. *)
Definition value_of {A} (d : A) (r : result A) : A :=
  match r with Ok a => a | Raise _ => d end.

(** *** Strings and dictionaries *)

Definition chars (s : string) : list ascii := list_ascii_of_string s.

Definition str_of_char (c : ascii) : string := String c EmptyString.

(** Truth value of a [bytes] or [str] object. *)
Definition nonempty (s : string) : bool :=
  match s with EmptyString => false | String _ _ => true end.

Fixpoint dict_get {V} (k : string) (d : list (string * V)) : option V :=
  match d with
  | [] => None
  | (k', v) :: d' => if String.eqb k k' then Some v else dict_get k d'
  end.

(** [d[k] = v]: an existing key keeps its place. *)
Fixpoint dict_set {V} (k : string) (v : V) (d : list (string * V))
  : list (string * V) :=
  match d with
  | [] => [(k, v)]
  | (k', v') :: d' =>
      if String.eqb k k' then (k, v) :: d' else (k', v') :: dict_set k v d'
  end.

Module Py.

(** *** Dynamic operations on values *)

(** [v[k]] for a string [k]. *)
Definition getitem (v : json) (k : string) : result json :=
  match v with
  | JDict d =>
      match dict_get k d with
      | Some x => Ok x
      | None => Raise (KeyError (KStr k))
      end
  | _ => Raise TypeError
  end.

(** Python list indexing: a negative index counts from the end. *)
Definition index_list {A} (l : list A) (i : Z) : result A :=
  let n := Z.of_nat (length l) in
  let j := if i <? 0 then i + n else i in
  if (j <? 0) || (n <=? j) then Raise IndexError
  else match nth_error l (Z.to_nat j) with
       | Some x => Ok x
       | None => Raise IndexError
       end.

(** [v[i]] for an integer [i]. *)
Definition getitem_int (v : json) (i : Z) : result json :=
  match v with
  | JList l => index_list l i
  | JStr s => c ← index_list (chars s) i; Ok (JStr (str_of_char c))
  | JDict _ => Raise (KeyError (KInt i))
  | _ => Raise TypeError
  end.

(** The items [for x in v] visits. *)
Definition iterate (v : json) : result (list json) :=
  match v with
  | JList l => Ok l
  | JDict d => Ok (map (fun kv => JStr (fst kv)) d)
  | JStr s => Ok (map (fun c => JStr (str_of_char c)) (chars s))
  | _ => Raise TypeError
  end.

(** [len(v)]. *)
Definition len (v : json) : result Z :=
  match v with
  | JList l => Ok (Z.of_nat (length l))
  | JDict d => Ok (Z.of_nat (length d))
  | JStr s => Ok (Z.of_nat (String.length s))
  | _ => Raise TypeError
  end.

(** [v.items()]. *)
Definition items (v : json) : result (list (string * json)) :=
  match v with
  | JDict d => Ok d
  | _ => Raise AttributeError
  end.

(** [bool(v)]. *)
Definition truth (v : json) : bool :=
  match v with
  | JNull => false
  | JBool b => b
  | JInt n => negb (n =? 0)
  | JFloat (S754_zero _) => false
  | JFloat _ => true
  | JStr s => nonempty s
  | JList l => match l with [] => false | _ => true end
  | JDict d => match d with [] => false | _ => true end
  end.

(** [a == v] for a [str] [a]. *)
Definition str_eq (a : string) (v : json) : bool :=
  match v with
  | JStr s => String.eqb a s
  | _ => false
  end.

(** *** Numbers *)

Definition prec : Z := 53.
Definition emax : Z := 1024.

Inductive number :=
| NInt (n : Z)
| NFloat (f : spec_float).

(** [bool] is a subclass of [int]. *)
Definition as_number (v : json) : result number :=
  match v with
  | JBool b => Ok (NInt (if b then 1 else 0))
  | JInt n => Ok (NInt n)
  | JFloat f => Ok (NFloat f)
  | _ => Raise TypeError
  end.

(** [float(n)]: round to nearest even, [OverflowError] when out of
    range. *)
Definition float_of_int (n : Z) : result spec_float :=
  match binary_normalize prec emax n 0 false with
  | S754_infinity _ => Raise OverflowError
  | f => Ok f
  end.

Definition to_float (x : number) : result spec_float :=
  match x with
  | NInt n => float_of_int n
  | NFloat f => Ok f
  end.

(** An integer as an exact, unrounded operand of [SFdiv]. *)
Definition exact_operand (n : Z) : spec_float :=
  match n with
  | Z0 => S754_zero false
  | Zpos p => S754_finite false p 0
  | Zneg p => S754_finite true p 0
  end.

(** [a / b] under [from __future__ import division]: the quotient of two
    integers is the correctly rounded float; otherwise both operands are
    converted to float and divided. *)
Definition truediv (a b : json) : result json :=
  x ← as_number a;
  y ← as_number b;
  match x, y with
  | NInt m, NInt n =>
      if n =? 0 then Raise ZeroDivisionError
      else if m =? 0 then Ok (JFloat (S754_zero (n <? 0)))
      else match SFdiv prec emax (exact_operand m) (exact_operand n) with
           | S754_infinity _ => Raise OverflowError
           | q => Ok (JFloat q)
           end
  | _, _ =>
      fx ← to_float x;
      fy ← to_float y;
      match fy with
      | S754_zero _ => Raise ZeroDivisionError
      | _ => Ok (JFloat (SFdiv prec emax fx fy))
      end
  end.

(** [a * b] on numbers. *)
Definition mul (a b : json) : result json :=
  x ← as_number a;
  y ← as_number b;
  match x, y with
  | NInt m, NInt n => Ok (JInt (m * n))
  | _, _ =>
      fx ← to_float x;
      fy ← to_float y;
      Ok (JFloat (SFmul prec emax fx fy))
  end.

(** [a + b] on numbers. *)
Definition add (a b : json) : result json :=
  x ← as_number a;
  y ← as_number b;
  match x, y with
  | NInt m, NInt n => Ok (JInt (m + n))
  | _, _ =>
      fx ← to_float x;
      fy ← to_float y;
      Ok (JFloat (SFadd prec emax fx fy))
  end.

(** [int(f)] for a float: truncation towards zero. *)
Definition int_of_float (f : spec_float) : result Z :=
  match f with
  | S754_zero _ => Ok 0
  | S754_infinity _ => Raise OverflowError
  | S754_nan => Raise ValueError
  | S754_finite s m e =>
      let v := if s then Zneg m else Zpos m in
      Ok (if 0 <=? e then v * 2 ^ e else Z.quot v (2 ^ (- e)))
  end.

(** [math.floor(f)]: the largest integer not above [f]. *)
Definition floor_of_float (f : spec_float) : result Z :=
  match f with
  | S754_zero _ => Ok 0
  | S754_infinity _ => Raise OverflowError
  | S754_nan => Raise ValueError
  | S754_finite s m e =>
      let v := if s then Zneg m else Zpos m in
      Ok (if 0 <=? e then v * 2 ^ e else Z.div v (2 ^ (- e)))
  end.

(** [int(v)] for a number. *)
Definition int (v : json) : result Z :=
  x ← as_number v;
  match x with
  | NInt n => Ok n
  | NFloat f => int_of_float f
  end.

(** [sum(v)]: starts from the integer 0 and adds the items in order. *)
Definition sum (v : json) : result json :=
  xs ← iterate v;
  foldl (fun acc x => a ← acc; add a x) (Ok (JInt 0)) xs.

(** [a > b]; only integers are compared in this model. *)
Definition gt (a b : json) : result bool :=
  match a, b with
  | JInt m, JInt n => Ok (n <? m)
  | _, _ => Raise Unmodelled
  end.

(** [max(v)]: the first largest item; [ValueError] on an empty
    sequence. *)
Definition max (v : json) : result json :=
  xs ← iterate v;
  match xs with
  | [] => Raise ValueError
  | x :: rest =>
      foldl (fun acc y => best ← acc; b ← gt y best;
                          Ok (if b : bool then y else best))
            (Ok x) rest
  end.

End Py.

(** ** [fnmatch.fnmatch]

    The standard-library matcher the helpers call, on a platform whose
    [normcase] is the identity: the pattern is translated item by item
    ([*], [?], [[seq]], [[!seq]], anything else literally) and has to
    match the whole name. *)

Inductive glob :=
| GStar
| GAny
| GChar (c : ascii)
| GClass (negate : bool) (stuff : list ascii).

(** Scan to the [']'] that closes a bracket expression. *)
Fixpoint until_close (s : list ascii) : option (list ascii * list ascii) :=
  match s with
  | [] => None
  | c :: s' =>
      if Ascii.eqb c "]" then Some ([], s')
      else match until_close s' with
           | Some (stuff, rest) => Some (c :: stuff, rest)
           | None => None
           end
  end.

(** The body of a bracket expression and what follows it; a [']'] that
    comes first belongs to the body. *)
Definition closing (negate : bool) (s1 : list ascii)
  : option (bool * list ascii * list ascii) :=
  match s1 with
  | c :: s2 =>
      if Ascii.eqb c "]"
      then match until_close s2 with
           | Some (stuff, rest) => Some (negate, c :: stuff, rest)
           | None => None
           end
      else match until_close s1 with
           | Some (stuff, rest) => Some (negate, stuff, rest)
           | None => None
           end
  | [] => None
  end.

(** [s] follows a ['[']: a leading ['!'] negates. *)
Definition bracket (s : list ascii)
  : option (bool * list ascii * list ascii) :=
  match s with
  | c :: s' => if Ascii.eqb c "!" then closing true s' else closing false s
  | [] => None
  end.

Fixpoint translate (fuel : nat) (pat : list ascii) : list glob :=
  match fuel, pat with
  | S fuel', c :: rest =>
      if Ascii.eqb c "*" then GStar :: translate fuel' rest
      else if Ascii.eqb c "?" then GAny :: translate fuel' rest
      else if Ascii.eqb c "[" then
        match bracket rest with
        | Some (negate, stuff, rest') =>
            GClass negate stuff :: translate fuel' rest'
        | None => GChar c :: translate fuel' rest
        end
      else GChar c :: translate fuel' rest
  | _, _ => []
  end.

Definition char_le (a b : ascii) : bool :=
  (nat_of_ascii a <=? nat_of_ascii b)%nat.

(** Membership in the body of a bracket expression: single characters
    and ranges [lo-hi]. *)
Fixpoint in_class (c : ascii) (stuff : list ascii) : bool :=
  match stuff with
  | [] => false
  | lo :: rest =>
      match rest with
      | dash :: hi :: rest' =>
          if Ascii.eqb dash "-"
          then (char_le lo c && char_le c hi) || in_class c rest'
          else Ascii.eqb c lo || in_class c rest
      | _ => Ascii.eqb c lo || in_class c rest
      end
  end.

Fixpoint glob_match (pat : list glob) (s : list ascii) : bool :=
  match pat with
  | [] => match s with [] => true | _ => false end
  | GStar :: pat' =>
      (fix star (s : list ascii) : bool :=
         glob_match pat' s
         || match s with [] => false | _ :: s' => star s' end) s
  | GAny :: pat' =>
      match s with [] => false | _ :: s' => glob_match pat' s' end
  | GChar c :: pat' =>
      match s with
      | [] => false
      | c' :: s' => Ascii.eqb c c' && glob_match pat' s'
      end
  | GClass negate stuff :: pat' =>
      match s with
      | [] => false
      | c' :: s' => xorb negate (in_class c' stuff) && glob_match pat' s'
      end
  end.

Definition fnmatch (name pat : string) : bool :=
  glob_match (translate (String.length pat) (chars pat)) (chars name).

(** ** Name and whitelist matching *)

(** Truth value of a list. *)
Definition nonnil {A} (l : list A) : bool :=
  match l with [] => false | _ :: _ => true end.

Definition items_matching_at_least_one_pattern
    (items patterns : list string) : list string :=
  let patterns := map (fun x => x +:+ "*") patterns in
  List.filter
    (fun item => nonnil (List.filter (fun p => fnmatch item p) patterns))
    items.

Definition names_in_blacklist (names blacklist : list string) : list string :=
  items_matching_at_least_one_pattern names blacklist.

Definition missing_names_in_whitelist_entries
    (names whitelist : list string) : list string :=
  let wl := map (fun x => x +:+ "*") whitelist in
  List.filter
    (fun name =>
       nonempty name
       && negb (nonnil (List.filter (fun x => fnmatch name x) wl)))
    names.

Definition missing_whitelist_entries_in_names
    (names whitelist : list string) : list string :=
  let wl := map (fun x => x +:+ "*") whitelist in
  List.filter
    (fun x =>
       negb (nonnil (List.filter (fun name => fnmatch name x) names)))
    wl.

Definition count_matches_in_list (input_list : list string)
    (to_match : string) : Z :=
  Z.of_nat (length (List.filter (fun s => fnmatch s to_match) input_list)).

(** ** [TensorMap] *)

(** The [computation] argument of [tile_ids] and [ipu_ids]: [None], one
    name or a list of names. *)
Inductive computation_arg :=
| CNone
| CName (name : string)
| CList (names : list string).

Module TensorMap.

Module Tile.
Record t := { tile : json; num_elements : json }.
End Tile.

Module Tensor.
Record t := {
  inst : json;
  index : json;
  shape : json;
  dtype : json;
  has_constant : bool;
  has_aliases : bool;
  num_elements : json;
  tiles : list Tile.t
}.

(** [list({t.tile for t in self.tiles})].  Tile ids are integers in
    the report; a set holding anything else is outside this model. *)
Definition tile_ids (self : t) : result (gset Z) :=
  ids ← mapM (fun t => match Tile.tile t with
                       | JInt n => Ok n
                       | _ => Raise Unmodelled
                       end) (tiles self);
  Ok (list_to_set ids).
End Tensor.

Record t := {
  num_tiles_per_ipu : json;
  mappings : list (string * list Tensor.t)
}.

Definition make_tile (tile : json) : result Tile.t :=
  n ← Py.len tile;
  if n =? 2 then
    a ← Py.getitem_int tile 0;
    b ← Py.getitem_int tile 1;
    Ok (Tile.Build_t a b)
  else Raise AssertionError.

Definition make_tensor (js_tensor : json) : result Tensor.t :=
  t7 ← Py.getitem_int js_tensor 7;
  ts ← Py.iterate t7;
  tiles ← mapM make_tile ts;
  inst ← Py.getitem_int js_tensor 0;
  index ← Py.getitem_int js_tensor 1;
  shape ← Py.getitem_int js_tensor 2;
  dtype ← Py.getitem_int js_tensor 3;
  has_constant ← Py.getitem_int js_tensor 4;
  has_aliases ← Py.getitem_int js_tensor 5;
  num_elements ← Py.getitem_int js_tensor 6;
  Ok (Tensor.Build_t inst index shape dtype (Py.truth has_constant)
        (Py.truth has_aliases) num_elements tiles).

Fixpoint fill_mappings (its : list (string * json))
    (mappings : list (string * list Tensor.t))
  : result (list (string * list Tensor.t)) :=
  match its with
  | [] => Ok mappings
  | (comp, js_tensors) :: its' =>
      xs ← Py.iterate js_tensors;
      tensors ← mapM make_tensor xs;
      fill_mappings its' (dict_set comp tensors mappings)
  end.

(** [TensorMap.__init__]. *)
Definition init (tensor_map : json) (num_tiles_per_ipu : json) : result t :=
  m ← Py.getitem tensor_map "mappings";
  its ← Py.items m;
  mappings ← fill_mappings its [];
  Ok (Build_t num_tiles_per_ipu mappings).

Definition all_tensors (self : t) : list Tensor.t :=
  concat (map snd (mappings self)).

Definition computation_names (self : t) : list string :=
  map fst (mappings self).

Fixpoint update_all (tensors : list Tensor.t) (ids : gset Z)
  : result (gset Z) :=
  match tensors with
  | [] => Ok ids
  | tensor :: rest =>
      new ← Tensor.tile_ids tensor;
      update_all rest (ids ∪ new)
  end.

Fixpoint collect (self : t) (computations : list string) (ids : gset Z)
  : result (gset Z) :=
  match computations with
  | [] => Ok ids
  | c :: rest =>
      match dict_get c (mappings self) with
      | None => Raise (KeyError (KStr c))
      | Some tensors =>
          ids' ← update_all tensors ids;
          collect self rest ids'
      end
  end.

Definition tile_ids (self : t) (computation : computation_arg)
  : result (gset Z) :=
  let computations :=
    match computation with
    | CList names => names
    | CName name =>
        if nonempty name then [name] else computation_names self
    | CNone => computation_names self
    end in
  collect self computations ∅.

(** The IPU of one tile: [int(tile_id / self.num_tiles_per_ipu)]. *)
Definition ipu_of_tile (self : t) (tile_id : Z) : result Z :=
  q ← Py.truediv (JInt tile_id) (num_tiles_per_ipu self);
  Py.int q.

Definition ipu_ids (self : t) (computation : computation_arg)
  : result (gset Z) :=
  tile_ids ← tile_ids self computation;
  ipus ← mapM (ipu_of_tile self) (elements tile_ids);
  Ok (list_to_set ipus).

End TensorMap.

(** ** Trace events *)

Module IpuTraceEvent.

Module DataTransfer.
Record t := { data_transfer : string }.
End DataTransfer.

Record CompileEnd := {
  compilation_report : string;
  tensor_map : string;
  instruction_info : string
}.

Record Execute := { execution_report : string }.

(** Modelled from the spec: a deserialised [IpuTraceEvent], declared in
    [trace.proto], which is not among the sources: the kind and the
    sub-messages and fields that [parse_events] reads; an unset bytes
    field reads as the empty string. *)
Record t := {
  type : EventType;
  compile_end : CompileEnd;
  data_transfer : DataTransfer.t;
  execute : Execute
}.

End IpuTraceEvent.

(** ** More operations on decoded values *)

(** [v.get(k, d)]. *)
Definition get_default (v : json) (k : string) (d : json) : result json :=
  match v with
  | JDict m => Ok (default d (dict_get k m))
  | _ => Raise AttributeError
  end.

(** [v.values()]. *)
Definition values (v : json) : result (list json) :=
  match v with
  | JDict d => Ok (map snd d)
  | _ => Raise AttributeError
  end.

(** [fnmatch.fnmatch(name, pat)] for a decoded [name]: anything but a
    [str] is a [TypeError]. *)
Definition fnmatch_value (name : json) (pat : string) : result bool :=
  match name with
  | JStr s => Ok (fnmatch s pat)
  | _ => Raise TypeError
  end.

(** [sep.join(v)]: the items of [v] have to be [str]. *)
Definition join (sep : string) (v : json) : result string :=
  xs ← Py.iterate v;
  strs ← mapM (fun x => match x with
                        | JStr s => Ok s
                        | _ => Raise TypeError
                        end) xs;
  Ok (String.concat sep strs).

(** [[y for y in l if test(y)]], where the test may raise. *)
Fixpoint select {A} (test : A -> result bool) (l : list A)
  : result (list A) :=
  match l with
  | [] => Ok []
  | y :: rest =>
      b ← test y;
      kept ← select test rest;
      Ok (if b : bool then y :: kept else kept)
  end.

(** ** Name and whitelist matching on decoded values

    The functions above as they run on the names of a decoded report:
    [names] is what a query returned, and a name that is not a [str]
    makes [fnmatch] raise. *)

Definition names_in_blacklist_values (names : json)
    (blacklist : list string) : result (list json) :=
  let patterns := map (fun x => x +:+ "*") blacklist in
  items ← Py.iterate names;
  select (fun item =>
            matching ← select (fun p => fnmatch_value item p) patterns;
            Ok (nonnil matching)) items.

Definition missing_names_in_whitelist_entries_values (names : json)
    (whitelist : list string) : result (list json) :=
  let wl := map (fun x => x +:+ "*") whitelist in
  items ← Py.iterate names;
  select (fun name =>
            if Py.truth name then
              matching ← select (fun x => fnmatch_value name x) wl;
              Ok (negb (nonnil matching))
            else Ok false) items.

Definition missing_whitelist_entries_in_values (names : json)
    (whitelist : list string) : result (list string) :=
  let wl := map (fun x => x +:+ "*") whitelist in
  select (fun x =>
            items ← Py.iterate names;
            matching ← select (fun name => fnmatch_value name x) items;
            Ok (negb (nonnil matching))) wl.

(** [count_matches_in_list] on a decoded value. *)
Definition count_matches_in_value (input_list : json) (to_match : string)
  : result Z :=
  items ← Py.iterate input_list;
  matching ← select (fun s => fnmatch_value s to_match) items;
  Ok (Z.of_nat (length matching)).

(** ** [ReportJSON] *)

Module ReportJSON.

(** The attributes [parse_events] assigns.  [events] maps an event
    kind to the decoded payload ([EXECUTE]: the list of decoded
    execution reports).  [self.test] and [self.sess] are set by the
    constructor only; of [self.test] the decoder uses [assertEqual]. *)
Record t := {
  events : gmap EventType json;
  tensor_map : option TensorMap.t;
  instruction_info : json
}.

Definition with_events (ev : gmap EventType json) (self : t) : t :=
  {| events := ev;
     tensor_map := tensor_map self;
     instruction_info := instruction_info self |}.

Definition with_tensor_map (tm : option TensorMap.t) (self : t) : t :=
  {| events := events self;
     tensor_map := tm;
     instruction_info := instruction_info self |}.

Definition with_instruction_info (ii : json) (self : t) : t :=
  {| events := events self;
     tensor_map := tensor_map self;
     instruction_info := ii |}.

(** *** Methods that mutate [self] and may raise *)

Definition M (A : Type) : Type := t -> t * result A.

Definition ret {A} (a : A) : M A := fun self => (self, Ok a).

Definition bind {A B} (m : M A) (k : A -> M B) : M B :=
  fun self =>
    match m self with
    | (self', Ok a) => k a self'
    | (self', Raise e) => (self', Raise e)
    end.

Definition lift {A} (r : result A) : M A := fun self => (self, r).

Definition raise {A} (e : exn) : M A := lift (Raise e).

(** Evaluate a read-only method of [self]. *)
Definition call {A} (f : t -> result A) : M A := fun self => (self, f self).

Definition modify (f : t -> t) : M unit := fun self => (f self, Ok tt).

Definition when (b : bool) (m : M unit) : M unit :=
  if b then m else ret tt.

Definition pass : M unit := ret tt.

(** [try: body  except UnicodeDecodeError: pass]. *)
Definition try_except_UnicodeDecodeError (body : M unit) : M unit :=
  fun self =>
    match body self with
    | (self', Raise UnicodeDecodeError) => (self', Ok tt)
    | r => r
    end.

Declare Scope M_scope.
Delimit Scope M_scope with M.
Notation "x <- m ;; k" := (bind m (fun x => k))
  (at level 100, m at next level, right associativity) : M_scope.
Notation "m ;; k" := (bind m (fun _ => k))
  (at level 100, right associativity) : M_scope.

(** *** Derived queries *)

(** [self.events[kind]]. *)
Definition event (kind : EventType) (self : t) : result json :=
  match events self !! kind with
  | Some v => Ok v
  | None => Raise (KeyError (KEvent kind))
  end.

(** [v[k1][k2]...]. *)
Definition path (v : json) (keys : list string) : result json :=
  foldl (fun acc k => x ← acc; Py.getitem x k) (Ok v) keys.

Definition get_each_tile_memory (self : t) : result json :=
  ce ← event COMPILE_END self;
  path ce ["memory"; "byTile"; "total"].

Definition get_max_tile_memory (self : t) : result json :=
  m ← get_each_tile_memory self;
  Py.max m.

Definition get_always_live_memory (self : t) : result json :=
  ce ← event COMPILE_END self;
  m ← path ce ["memory"; "liveness"; "alwaysLive"; "bytesByTile"];
  Py.sum m.

Definition get_total_tile_memory (self : t) : result json :=
  m ← get_each_tile_memory self;
  Py.sum m.

Definition get_vertices (self : t) : result json :=
  ce ← event COMPILE_END self;
  path ce ["vertexTypes"; "names"].

Definition get_compute_sets (self : t) : result json :=
  ce ← event COMPILE_END self;
  path ce ["computeSets"; "names"].

Definition get_execution_reports (self : t) : result json :=
  event EXECUTE self.

Definition get_instruction_info (self : t) : json :=
  instruction_info self.

Definition get_tensor_map (self : t) : option TensorMap.t :=
  tensor_map self.

Definition get_num_ipus (self : t) : result json :=
  ce ← event COMPILE_END self;
  path ce ["target"; "numIPUs"].

Definition get_num_tiles (self : t) : result json :=
  ce ← event COMPILE_END self;
  path ce ["target"; "numTiles"].

Definition get_num_tiles_per_ipu (self : t) : result json :=
  tiles ← get_num_tiles self;
  ipus ← get_num_ipus self;
  Py.truediv tiles ipus.

Fixpoint first_of_type (program_type : string) (programs : list json)
  : result json :=
  match programs with
  | [] => Ok JNull
  | p :: rest =>
      ty ← Py.getitem p "type";
      if Py.str_eq program_type ty then Ok p
      else first_of_type program_type rest
  end.

Definition get_first_program_of_type (program_type : string) (self : t)
  : result json :=
  ce ← event COMPILE_END self;
  ps ← Py.getitem ce "programs";
  programs ← Py.iterate ps;
  first_of_type program_type programs.

Fixpoint names_of_type (program_type : string) (programs : list json)
  : result (list json) :=
  match programs with
  | [] => Ok []
  | p :: rest =>
      ty ← Py.getitem p "type";
      if Py.str_eq program_type ty then
        name ← Py.getitem p "name";
        names ← names_of_type program_type rest;
        Ok (name :: names)
      else names_of_type program_type rest
  end.

Definition get_program_names_of_type (program_type : string) (self : t)
  : result json :=
  ce ← event COMPILE_END self;
  ps ← Py.getitem ce "programs";
  programs ← Py.iterate ps;
  names ← names_of_type program_type programs;
  Ok (JList names).

Definition get_program (index : Z) (self : t) : result json :=
  ce ← event COMPILE_END self;
  ps ← Py.getitem ce "programs";
  Py.getitem_int ps index.

(** *** [parse_events] *)

(** [self.test.assertEqual(first, second, msg)]. *)
Definition assertEqual (first second : Z) (msg : string) : M unit :=
  if first =? second then ret tt
  else raise (TestFailure first second msg).

(** [assert kind not in self.events]. *)
Definition assert_not_recorded (kind : EventType) : M unit :=
  fun self =>
    match events self !! kind with
    | None => (self, Ok tt)
    | Some _ => (self, Raise AssertionError)
    end.

(** [self.events[kind] = v]. *)
Definition set_event (kind : EventType) (v : json) : M unit :=
  modify (fun self => with_events (<[kind := v]> (events self)) self).

(** [old + [v]] on lists. *)
Definition append_item (old v : json) : result json :=
  match old with
  | JList l => Ok (JList (l ++ [v]))
  | _ => Raise TypeError
  end.

(** Truth value of the optional [assert_len]. *)
Definition supplied (assert_len : option Z) : bool :=
  match assert_len with
  | None => false
  | Some n => negb (n =? 0)
  end.

Definition bump (kind : EventType) (events_types : gmap EventType nat)
  : gmap EventType nat :=
  <[kind := S (default 0%nat (events_types !! kind))]> events_types.

Section Decode.

(** The two external decoders: [IpuTraceEvent.FromString] on a
    serialised record and [json.loads(_, encoding="utf-8")] on a
    payload. *)
Context {record : Type}.
Variable FromString : record -> result IpuTraceEvent.t.
Variable loads : string -> result json.

Local Open Scope M_scope.

(** The body of the [try] statement for one event. *)
Definition decode_event (evt : IpuTraceEvent.t) : M unit :=
  let ty := IpuTraceEvent.type evt in
  let ce := IpuTraceEvent.compile_end evt in
  let dt := IpuTraceEvent.data_transfer evt in
  let ex := IpuTraceEvent.execute evt in
  when (bool_decide (ty = COMPILE_BEGIN)) pass ;;
  when (bool_decide (ty = COMPILE_END))
    (when (nonempty (IpuTraceEvent.compilation_report ce))
       (assert_not_recorded COMPILE_END ;;
        report <- lift (loads (IpuTraceEvent.compilation_report ce)) ;;
        set_event COMPILE_END report ;;
        tm_json <- lift (loads (IpuTraceEvent.tensor_map ce)) ;;
        per_ipu <- call get_num_tiles_per_ipu ;;
        tm <- lift (TensorMap.init tm_json per_ipu) ;;
        modify (with_tensor_map (Some tm)) ;;
        info <- lift (loads (IpuTraceEvent.instruction_info ce)) ;;
        modify (with_instruction_info info))) ;;
  when (bool_decide (ty = HOST_TO_DEVICE_TRANSFER))
    (when (nonempty (IpuTraceEvent.DataTransfer.data_transfer dt))
       (assert_not_recorded HOST_TO_DEVICE_TRANSFER ;;
        v <- lift (loads (IpuTraceEvent.DataTransfer.data_transfer dt)) ;;
        set_event HOST_TO_DEVICE_TRANSFER v)) ;;
  when (bool_decide (ty = DEVICE_TO_HOST_TRANSFER))
    (when (nonempty (IpuTraceEvent.DataTransfer.data_transfer dt))
       (assert_not_recorded DEVICE_TO_HOST_TRANSFER ;;
        v <- lift (loads (IpuTraceEvent.DataTransfer.data_transfer dt)) ;;
        set_event DEVICE_TO_HOST_TRANSFER v)) ;;
  when (bool_decide (ty = LOAD_ENGINE)) pass ;;
  when (bool_decide (ty = EXECUTE))
    (when (nonempty (IpuTraceEvent.execution_report ex))
       (old <- call (fun self =>
                       Ok (default (JList []) (events self !! EXECUTE))) ;;
        v <- lift (loads (IpuTraceEvent.execution_report ex)) ;;
        all <- lift (append_item old v) ;;
        set_event EXECUTE all)).

(** The [for e in events] loop. *)
Fixpoint parse_loop (events : list record)
    (events_types : gmap EventType nat) : M (gmap EventType nat) :=
  match events with
  | [] => ret events_types
  | e :: rest =>
      evt <- lift (FromString e) ;;
      let events_types := bump (IpuTraceEvent.type evt) events_types in
      try_except_UnicodeDecodeError (decode_event evt) ;;
      parse_loop rest events_types
  end.

Definition parse_events (events : list record)
    (assert_len : option Z) (assert_msg : string)
  : M (gmap EventType nat) :=
  when (supplied assert_len)
    (assertEqual (default 0 assert_len) (Z.of_nat (length events))
       assert_msg) ;;
  modify (with_events ∅) ;;
  modify (with_tensor_map None) ;;
  modify (with_instruction_info (JDict [])) ;;
  parse_loop events ∅.

End Decode.

(** *** Transfer names *)

(** [[t["name"] for t in v["tensors"]]]. *)
Definition tensor_names (v : json) : result json :=
  ts ← Py.getitem v "tensors";
  xs ← Py.iterate ts;
  names ← mapM (fun t => Py.getitem t "name") xs;
  Ok (JList names).

Definition get_host_to_device_event_names (self : t) : result json :=
  ev ← event HOST_TO_DEVICE_TRANSFER self;
  tensor_names ev.

Definition get_device_to_host_event_names (self : t) : result json :=
  ev ← event DEVICE_TO_HOST_TRANSFER self;
  tensor_names ev.

(** [for x in l: body(x)]. *)
Fixpoint for_each {A} (l : list A) (body : A -> M unit) : M unit :=
  match l with
  | [] => ret tt
  | x :: rest => bind (body x) (fun _ => for_each rest body)
  end.

(** [len(self.events.get(kind, {}).get("tensors", []))]. *)
Definition recorded_tensors (kind : EventType) (self : t) : result Z :=
  tensors ← get_default (default (JDict []) (events self !! kind))
              "tensors" (JList []);
  Py.len tensors.

(** The body shared by [assert_host_to_device_event_names] and
    [assert_device_to_host_event_names]; [msg] is [None] by default, the
    empty message here. *)
Definition assert_event_names (kind : EventType)
    (get_event_names : t -> result json)
    (names : list string) (msg : option string) : M unit :=
  bind (call (recorded_tensors kind)) (fun recorded =>
  bind (assertEqual (Z.of_nat (length names)) recorded (default "" msg))
    (fun _ =>
  for_each names (fun name =>
    bind (call get_event_names) (fun got =>
    bind (lift (count_matches_in_value got name)) (fun n =>
    assertEqual n 1 (default "" msg)))))).

Definition assert_host_to_device_event_names
    (names : list string) (msg : option string) : M unit :=
  assert_event_names HOST_TO_DEVICE_TRANSFER get_host_to_device_event_names
    names msg.

Definition assert_device_to_host_event_names
    (names : list string) (msg : option string) : M unit :=
  assert_event_names DEVICE_TO_HOST_TRANSFER get_device_to_host_event_names
    names msg.

(** *** Instruction kinds *)

(** [i - 1] as a list index: an integer, or a [TypeError]. *)
Definition ml_type (i : json) : result Z :=
  x ← Py.as_number i;
  match x with
  | Py.NInt n => Ok (n - 1)
  | Py.NFloat _ => Raise TypeError
  end.

(** [res[i] = res[i] + 1], with Python's indexing. *)
Definition increment (res : list Z) (i : Z) : result (list Z) :=
  old ← Py.index_list res i;
  let j := if i <? 0 then i + Z.of_nat (length res) else i in
  Ok (<[Z.to_nat j := old + 1]> res).

Definition get_ml_type_counts (self : t) : result (list Z) :=
  types ← Py.getitem (instruction_info self) "ml_types";
  vs ← values types;
  foldl (fun acc i => res ← acc; k ← ml_type i; increment res k)
        (Ok [0; 0; 0; 0]) vs.

(** *** Assertions on the decoded report *)

(** [self.test.assertFalse(expr)] and [self.test.assertTrue(expr)]. *)
Definition assertFalse (expr : bool) : M unit :=
  if expr then raise AssertionError else ret tt.

Definition assertTrue (expr : bool) : M unit :=
  if expr then ret tt else raise AssertionError.

Definition assert_no_compute_set : M unit :=
  bind (call (fun self =>
          sets ← get_default (default (JDict []) (events self !! COMPILE_END))
                   "computeSets" (JDict []);
          get_default sets "names" (JDict [])))
       (fun names => assertFalse (Py.truth names)).

Definition assert_contains_one_compile_event : M unit :=
  fun self =>
    assertTrue (bool_decide (is_Some (events self !! COMPILE_END))) self.

(** *** Assertions on names

    The message of [assertFalse] is built before the call: the [join]
    in it raises when the names are not strings. *)

(** The separator of the names in the messages: a line feed and a
    tab. *)
Definition newline_tab : string :=
  String "010"%char (String "009"%char EmptyString).

Definition assert_all_compute_sets_and_list (ok : list string) : M unit :=
  bind (call (fun self =>
          names ← get_compute_sets self;
          missing ← missing_whitelist_entries_in_values names ok;
          shown ← get_compute_sets self;
          _ ← join newline_tab shown;
          Ok missing))
       (fun missing =>
  bind (assertFalse (nonnil missing)) (fun _ =>
  bind (call (fun self =>
          names ← get_compute_sets self;
          missing_names_in_whitelist_entries_values names ok))
       (fun missing => assertFalse (nonnil missing)))).

Definition assert_all_global_exchanges_and_list (ok : list string) : M unit :=
  bind (call (fun self =>
          names ← get_program_names_of_type "GlobalExchange" self;
          missing ← missing_whitelist_entries_in_values names ok;
          shown ← get_compute_sets self;
          _ ← join newline_tab shown;
          Ok missing))
       (fun missing =>
  bind (assertFalse (nonnil missing)) (fun _ =>
  bind (call (fun self =>
          names ← get_program_names_of_type "GlobalExchange" self;
          missing_names_in_whitelist_entries_values names ok))
       (fun missing => assertFalse (nonnil missing)))).

Definition assert_compute_sets_contain_list (ok : list string) : M unit :=
  bind (call (fun self =>
          names ← get_compute_sets self;
          missing ← missing_whitelist_entries_in_values names ok;
          shown ← get_compute_sets self;
          _ ← join newline_tab shown;
          Ok missing))
       (fun missing => assertFalse (nonnil missing)).

Definition assert_compute_sets_not_in_blacklist (blacklist : list string)
  : M unit :=
  bind (call (fun self =>
          names ← get_compute_sets self;
          names_in_blacklist_values names blacklist))
       (fun found => assertFalse (nonnil found)).

Definition assert_vertices_contain_list (ok : list string) : M unit :=
  bind (call (fun self =>
          names ← get_vertices self;
          missing ← missing_whitelist_entries_in_values names ok;
          shown ← get_vertices self;
          _ ← join newline_tab shown;
          Ok missing))
       (fun missing => assertFalse (nonnil missing)).

Definition assert_compute_sets_matches (expr : string) (num_matches : Z)
    (msg : option string) : M unit :=
  bind (call (fun self =>
          names ← get_compute_sets self;
          count_matches_in_value names expr))
       (fun n => assertEqual n num_matches (default "" msg)).

(** *** Pipeline stages *)

(** ["*_stage_%d_" % i]. *)
Definition stage_pattern (i : Z) : string :=
  "*_stage_" +:+ pretty i +:+ "_".

(** [ipus.pop()] on a set; the code calls it on a set of one item. *)
Definition set_pop (ipus : gset Z) : result Z :=
  match elements ipus with
  | ipu :: _ => Ok ipu
  | [] => Raise (KeyError (KStr "pop from an empty set"))
  end.

Section PipelineStages.

(** The text that [%s] gives for a set of IPU ids. *)
Variable str_of_set : gset Z -> string.

(** The [for i, expected_ipu in enumerate(expected_ipus)] loop, from
    index [i] on. *)
Fixpoint check_stages (tm : TensorMap.t) (i : Z) (expected_ipus : list Z)
  : M unit :=
  match expected_ipus with
  | [] => ret tt
  | expected_ipu :: rest =>
      let stage :=
        items_matching_at_least_one_pattern (TensorMap.computation_names tm)
          [stage_pattern i] in
      bind (assertTrue (nonnil stage)) (fun _ =>
      bind (lift (TensorMap.ipu_ids tm (CList stage))) (fun ipus =>
      bind (assertEqual (Z.of_nat (size ipus)) 1
              ("Stage " +:+ pretty (i + 1)
               +:+ " was mapped to more than one ipu: " +:+ str_of_set ipus))
        (fun _ =>
      bind (lift (set_pop ipus)) (fun ipu =>
      bind (assertEqual ipu expected_ipu
              ("Stage " +:+ pretty (i + 1)
               +:+ " did not run on the expected IPU")) (fun _ =>
      check_stages tm (i + 1) rest)))))
  end.

Definition assert_pipeline_stages_on_expected_ipu (expected_ipus : list Z)
  : M unit :=
  fun self =>
    match tensor_map self with
    | None => (self, Raise AttributeError)
    | Some tm =>
        bind (assertFalse
                (nonnil (items_matching_at_least_one_pattern
                           (TensorMap.computation_names tm)
                           [stage_pattern
                              (Z.of_nat (length expected_ipus) + 1)])))
             (fun _ => check_stages tm 0 expected_ipus) self
    end.

End PipelineStages.

End ReportJSON.

(** *** Filtering serialised events *)

Section Extract.

Context {record : Type}.
Variable FromString : record -> result IpuTraceEvent.t.

(** The loop shared by the two functions below: [result += [evt]] for
    the events that [keep] selects; [found] is the list [result]. *)
Fixpoint extract_loop (keep : IpuTraceEvent.t -> bool)
    (events : list record) (found : list IpuTraceEvent.t)
  : result (list IpuTraceEvent.t) :=
  match events with
  | [] => Ok found
  | e :: rest =>
      evt ← FromString e;
      extract_loop keep rest (if keep evt then found ++ [evt] else found)
  end.

Definition extract_all_compile_end_events (events : list record)
  : result (list IpuTraceEvent.t) :=
  extract_loop
    (fun evt =>
       bool_decide (IpuTraceEvent.type evt = COMPILE_END)
       && nonempty (IpuTraceEvent.compilation_report
                      (IpuTraceEvent.compile_end evt)))
    events [].

Definition extract_all_execute_events (events : list record)
  : result (list IpuTraceEvent.t) :=
  extract_loop (fun evt => bool_decide (IpuTraceEvent.type evt = EXECUTE))
    events [].

End Extract.

(** ** [move_variable_initialization_to_cpu] *)

(** [l.pop()]: the last item and the list without it. *)
Definition pop {A} (l : list A) : option (A * list A) :=
  match rev l with
  | [] => None
  | x :: r => Some (x, rev r)
  end.

Section MoveVariableInitialization.

(** The operations of the default graph, which a set tells apart by
    identity, and for an operation the operations that produce its
    inputs: [[x.op for x in op.inputs]]. *)
Context {Operation : Type} `{Countable Operation}.
Variable input_ops : Operation -> list Operation.

(** The [while dep_ops] loop, which ends when the list is empty; [fuel]
    bounds the number of iterations. *)
Fixpoint visit (fuel : nat) (dep_ops : list Operation)
    (visited : gset Operation) (init_ops : list Operation)
  : option (list Operation) :=
  match fuel with
  | O => None
  | S fuel' =>
      match pop dep_ops with
      | None => Some init_ops
      | Some (op, dep_ops) =>
          if decide (op ∈ visited)
          then visit fuel' dep_ops visited init_ops
          else visit fuel' (dep_ops ++ input_ops op) (visited ∪ {[op]})
                 (init_ops ++ [op])
      end
  end.

(** The operations that the second loop moves to the CPU, in the order
    in which [_set_device] and [_set_attr] are called on them.  A
    variable of the collection is given by the operations that produce
    the inputs of its initializer. *)
Definition move_variable_initialization_to_cpu (fuel : nat)
    (variables : list (list Operation)) : result (option (list Operation)) :=
  dep_ops ← mapM (fun initializer_inputs =>
                    Py.index_list initializer_inputs 1) variables;
  Ok (visit fuel dep_ops ∅ []).

End MoveVariableInitialization.

(** ** [configure_ipu_system] *)

Module IpuOptions.

(** Modelled from the spec: the [IpuOptions] message, declared in a
    [.proto] file that is not among the sources: the fields that
    [configure_ipu_system] assigns.  [compilation_options] holds the
    [option] and [value] of each entry, [device_config] the [auto_count]
    of each entry. *)
Record Profiling := {
  enable_ipu_trace_events : bool;
  enable_compilation_trace : bool;
  enable_io_trace : bool;
  enable_execution_trace : bool;
  enable_poplar_reports_text : bool;
  enable_poplar_reports_cbor : bool;
  report_every_nth_execution : Z;
  max_report_size : Z
}.

Record IpuModelConfig := {
  enable_ipu_model : bool;
  compile_ipu_code : bool
}.

Record SpeedSizeConfig := {
  merge_infeed_io_copies : bool;
  always_rearrange_copies_on_the_host : bool
}.

Record t := {
  profiling : Profiling;
  ipu_model_config : IpuModelConfig;
  prefetch_data_streams : bool;
  max_cross_replica_sum_buffer_size : Z;
  max_inter_ipu_copies_buffer_size : Z;
  speed_size_config : SpeedSizeConfig;
  serialization_folder : string;
  compilation_options : list (string * string);
  device_config : list Z
}.

End IpuOptions.

Module Configure.

(** The arguments of [configure_ipu_system]. *)
Record args := {
  compilation_trace : bool;
  io_trace : bool;
  execution_trace : bool;
  report_every_nth_execution : Z;
  text_report : bool;
  cbor_report : bool;
  sharded : bool;
  pipelining : bool;
  replicated : bool;
  compile_ipu_code : bool;
  enable_ipu_events : bool;
  prefetch_data_streams : bool;
  engine_opts : option (list (string * string));
  device_count_override : option Z;
  max_cross_replica_sum_buffer_size : Z;
  max_inter_ipu_copies_buffer_size : Z;
  merge_infeed_io_copies : bool;
  always_rearrange_copies_on_the_host : bool;
  serialization_folder : string
}.

(** The default values of the arguments. *)
Definition defaults : args :=
  {| compilation_trace := true;
     io_trace := false;
     execution_trace := true;
     report_every_nth_execution := 0;
     text_report := true;
     cbor_report := false;
     sharded := false;
     pipelining := false;
     replicated := false;
     compile_ipu_code := false;
     enable_ipu_events := false;
     prefetch_data_streams := true;
     engine_opts := None;
     device_count_override := None;
     max_cross_replica_sum_buffer_size := 0;
     max_inter_ipu_copies_buffer_size := 0;
     merge_infeed_io_copies := false;
     always_rearrange_copies_on_the_host := false;
     serialization_folder := "" |}.

(** The number of devices to ask for; 0 asks for none. *)
Definition device_count (a : args) : Z :=
  if ReportJSON.supplied (device_count_override a)
  then default 0 (device_count_override a)
  else if sharded a then 2 * (if replicated a then 2 else 1)
  else if pipelining a then 4 * (if replicated a then 2 else 1)
  else if replicated a then 2 else 0.

(** The options that [configure_ipu_system] serialises and hands to
    [ipu_configure_hardware]; running that operation in a session is
    outside the model. *)
Definition configure_ipu_system (a : args) : result IpuOptions.t :=
  if pipelining a && ReportJSON.supplied (device_count_override a)
  then Raise AssertionError
  else if sharded a && ReportJSON.supplied (device_count_override a)
  then Raise AssertionError
  else
    Ok {| IpuOptions.profiling :=
            {| IpuOptions.enable_ipu_trace_events :=
                 compilation_trace a || io_trace a || execution_trace a
                 || enable_ipu_events a;
               IpuOptions.enable_compilation_trace := compilation_trace a;
               IpuOptions.enable_io_trace := io_trace a;
               IpuOptions.enable_execution_trace := execution_trace a;
               IpuOptions.enable_poplar_reports_text := text_report a;
               IpuOptions.enable_poplar_reports_cbor := cbor_report a;
               IpuOptions.report_every_nth_execution :=
                 report_every_nth_execution a;
               IpuOptions.max_report_size := 268435456 |};
          IpuOptions.ipu_model_config :=
            {| IpuOptions.enable_ipu_model := true;
               IpuOptions.compile_ipu_code := compile_ipu_code a |};
          IpuOptions.prefetch_data_streams := prefetch_data_streams a;
          IpuOptions.max_cross_replica_sum_buffer_size :=
            max_cross_replica_sum_buffer_size a;
          IpuOptions.max_inter_ipu_copies_buffer_size :=
            max_inter_ipu_copies_buffer_size a;
          IpuOptions.speed_size_config :=
            {| IpuOptions.merge_infeed_io_copies := merge_infeed_io_copies a;
               IpuOptions.always_rearrange_copies_on_the_host :=
                 always_rearrange_copies_on_the_host a |};
          IpuOptions.serialization_folder := serialization_folder a;
          IpuOptions.compilation_options := default [] (engine_opts a);
          IpuOptions.device_config :=
            if device_count a =? 0 then [] else [device_count a] |}.

(** [a] with another [device_count_override]. *)
Definition with_device_count_override (n : option Z) (a : args) : args :=
  {| compilation_trace := compilation_trace a;
     io_trace := io_trace a;
     execution_trace := execution_trace a;
     report_every_nth_execution := report_every_nth_execution a;
     text_report := text_report a;
     cbor_report := cbor_report a;
     sharded := sharded a;
     pipelining := pipelining a;
     replicated := replicated a;
     compile_ipu_code := compile_ipu_code a;
     enable_ipu_events := enable_ipu_events a;
     prefetch_data_streams := prefetch_data_streams a;
     engine_opts := engine_opts a;
     device_count_override := n;
     max_cross_replica_sum_buffer_size := max_cross_replica_sum_buffer_size a;
     max_inter_ipu_copies_buffer_size := max_inter_ipu_copies_buffer_size a;
     merge_infeed_io_copies := merge_infeed_io_copies a;
     always_rearrange_copies_on_the_host :=
       always_rearrange_copies_on_the_host a;
     serialization_folder := serialization_folder a |}.

End Configure.

(** ** Notions used in the statements *)

(** The count check of [parse_events] lets the call through. *)
Definition count_passes (assert_len : option Z) (n : nat) : bool :=
  negb (ReportJSON.supplied assert_len)
  || (default 0 assert_len =? Z.of_nat n).

(** The payload of an event of a kind that is recorded at most once. *)
Definition singleton_payload (evt : IpuTraceEvent.t) : option string :=
  match IpuTraceEvent.type evt with
  | COMPILE_END =>
      Some (IpuTraceEvent.compilation_report (IpuTraceEvent.compile_end evt))
  | HOST_TO_DEVICE_TRANSFER | DEVICE_TO_HOST_TRANSFER =>
      Some (IpuTraceEvent.DataTransfer.data_transfer
              (IpuTraceEvent.data_transfer evt))
  | _ => None
  end.

(** The payload [parse_events] decodes first for an event, if any. *)
Definition payload (evt : IpuTraceEvent.t) : option string :=
  match IpuTraceEvent.type evt with
  | EXECUTE =>
      Some (IpuTraceEvent.execution_report (IpuTraceEvent.execute evt))
  | _ => singleton_payload evt
  end.

(** [self] right after the three assignments that open [parse_events]. *)
Definition blank : ReportJSON.t :=
  {| ReportJSON.events := ∅;
     ReportJSON.tensor_map := None;
     ReportJSON.instruction_info := JDict [] |}.

(** [math.floor(tile_id / num_tiles_per_ipu)], with Python's division. *)
Definition floor_div (tile_id : Z) (num_tiles_per_ipu : json) : result Z :=
  q ← Py.truediv (JInt tile_id) num_tiles_per_ipu;
  match q with
  | JFloat f => Py.floor_of_float f
  | _ => Raise TypeError
  end.

(** Every tile id of the set is non-negative. *)
Definition nonnegative_ids (ids : gset Z) : bool :=
  forallb (Z.leb 0) (elements ids).

(** [get_num_ipus() * get_num_tiles_per_ipu()]. *)
Definition tiles_product (self : ReportJSON.t) : result json :=
  ipus ← ReportJSON.get_num_ipus self;
  per_ipu ← ReportJSON.get_num_tiles_per_ipu self;
  Py.mul ipus per_ipu.

(** A float that is not below zero (or not a number at all). *)
Definition not_negative (f : spec_float) : bool :=
  match f with
  | S754_finite true _ _ | S754_zero true | S754_infinity true => false
  | _ => true
  end.

(** The float with the value of the positive integer [n] below 2^53:
    a 53-bit mantissa and the exponent that goes with it. *)
Definition small_float (n : Z) : spec_float :=
  S754_finite false (Z.to_pos (n * 2 ^ (52 - Z.log2 n))) (Z.log2 n - 52).

(** A strictly positive number. *)
Definition positive_number (v : json) : bool :=
  match v with
  | JInt n => 0 <? n
  | JFloat (S754_finite false _ _) => true
  | JFloat (S754_infinity false) => true
  | _ => false
  end.

(** ** Sample events

    Events that are already deserialised, and the results of
    [json.loads] on the payloads used in the examples. *)

Definition stored (evt : IpuTraceEvent.t) : result IpuTraceEvent.t := Ok evt.

(** Write a JSON text with ['] where the text has a double quote. *)
Definition quoted (s : string) : string :=
  string_of_list_ascii
    (map (fun c => if Ascii.eqb c "'" then "034"%char else c) (chars s)).

Definition report_text : string :=
  quoted "{'target': {'numIPUs': 2, 'numTiles': 4}, 'memory': {'byTile': {'total': [10, 20, 30, 40]}}}".

Definition report_value : json :=
  JDict [("target", JDict [("numIPUs", JInt 2); ("numTiles", JInt 4)]);
         ("memory",
          JDict [("byTile",
                  JDict [("total",
                          JList [JInt 10; JInt 20; JInt 30; JInt 40])])])].

Definition uneven_report_text : string :=
  quoted "{'target': {'numIPUs': 7, 'numTiles': 61}}".

Definition uneven_report_value : json :=
  JDict [("target", JDict [("numIPUs", JInt 7); ("numTiles", JInt 61)])].

Definition tensor_map_text : string :=
  quoted "{'mappings': {'cluster_0': [['add', 0, [2], 'float', 0, 0, 2, [[0, 1], [3, 1]]]]}}".

Definition tensor_map_value : json :=
  JDict [("mappings",
          JDict [("cluster_0",
                  JList [JList [JStr "add"; JInt 0; JList [JInt 2];
                                JStr "float"; JInt 0; JInt 0; JInt 2;
                                JList [JList [JInt 0; JInt 1];
                                       JList [JInt 3; JInt 1]]]])])].

Definition transfer_text : string := quoted "{'tensors': []}".

Definition transfer_value : json := JDict [("tensors", JList [])].

(** One byte, 0xff: not UTF-8. *)
Definition bad_utf8 : string := String "255"%char EmptyString.

(** UTF-8, but not a JSON document. *)
Definition bad_json : string := "{".

Definition sample_loads (s : string) : result json :=
  if String.eqb s report_text then Ok report_value
  else if String.eqb s uneven_report_text then Ok uneven_report_value
  else if String.eqb s tensor_map_text then Ok tensor_map_value
  else if String.eqb s transfer_text then Ok transfer_value
  else if String.eqb s "{}" then Ok (JDict [])
  else if String.eqb s bad_utf8 then Raise UnicodeDecodeError
  else Raise ValueError.

Definition no_compile_end : IpuTraceEvent.CompileEnd :=
  {| IpuTraceEvent.compilation_report := "";
     IpuTraceEvent.tensor_map := "";
     IpuTraceEvent.instruction_info := "" |}.

Definition compile_end_event (report : string) : IpuTraceEvent.t :=
  {| IpuTraceEvent.type := COMPILE_END;
     IpuTraceEvent.compile_end :=
       {| IpuTraceEvent.compilation_report := report;
          IpuTraceEvent.tensor_map := tensor_map_text;
          IpuTraceEvent.instruction_info := "{}" |};
     IpuTraceEvent.data_transfer :=
       {| IpuTraceEvent.DataTransfer.data_transfer := "" |};
     IpuTraceEvent.execute := {| IpuTraceEvent.execution_report := "" |} |}.

Definition transfer_event (kind : EventType) (data : string)
  : IpuTraceEvent.t :=
  {| IpuTraceEvent.type := kind;
     IpuTraceEvent.compile_end := no_compile_end;
     IpuTraceEvent.data_transfer :=
       {| IpuTraceEvent.DataTransfer.data_transfer := data |};
     IpuTraceEvent.execute := {| IpuTraceEvent.execution_report := "" |} |}.

Definition execute_event (report : string) : IpuTraceEvent.t :=
  {| IpuTraceEvent.type := EXECUTE;
     IpuTraceEvent.compile_end := no_compile_end;
     IpuTraceEvent.data_transfer :=
       {| IpuTraceEvent.DataTransfer.data_transfer := "" |};
     IpuTraceEvent.execute := {| IpuTraceEvent.execution_report := report |} |}.

Definition sample_tensor_map : TensorMap.t :=
  {| TensorMap.num_tiles_per_ipu :=
       JFloat (S754_finite false 4503599627370496 (-51));
     TensorMap.mappings :=
       [("cluster_0",
         [ {| TensorMap.Tensor.inst := JStr "add";
              TensorMap.Tensor.index := JInt 0;
              TensorMap.Tensor.shape := JList [JInt 2];
              TensorMap.Tensor.dtype := JStr "float";
              TensorMap.Tensor.has_constant := false;
              TensorMap.Tensor.has_aliases := false;
              TensorMap.Tensor.num_elements := JInt 2;
              TensorMap.Tensor.tiles :=
                [ {| TensorMap.Tile.tile := JInt 0;
                     TensorMap.Tile.num_elements := JInt 1 |};
                  {| TensorMap.Tile.tile := JInt 3;
                     TensorMap.Tile.num_elements := JInt 1 |} ] |} ])] |}.

(** ** More notions used in the statements *)

(** A pattern character that [fnmatch] does not take literally. *)
Definition special (c : ascii) : bool :=
  Ascii.eqb c "*" || Ascii.eqb c "?" || Ascii.eqb c "[".

(** A pattern without [*], [?] and [[]. *)
Definition literal (pat : string) : bool :=
  forallb (fun c => negb (special c)) (chars pat).

Definition all_kinds : list EventType :=
  [COMPILE_BEGIN; COMPILE_END; HOST_TO_DEVICE_TRANSFER;
   DEVICE_TO_HOST_TRANSFER; LOAD_ENGINE; EXECUTE].

(** The number of events of a kind. *)
Definition count_kind (kind : EventType) (evts : list IpuTraceEvent.t)
  : nat :=
  length (List.filter
            (fun evt => bool_decide (IpuTraceEvent.type evt = kind)) evts).

(** The execution reports that [loads] decodes, of the [EXECUTE] events
    that carry one, in the order of the events. *)
Definition execution_reports (loads : string -> result json)
    (evts : list IpuTraceEvent.t) : list json :=
  omap (fun evt =>
          let report :=
            IpuTraceEvent.execution_report (IpuTraceEvent.execute evt) in
          if bool_decide (IpuTraceEvent.type evt = EXECUTE)
             && nonempty report
          then match loads report with Ok v => Some v | Raise _ => None end
          else None)
       evts.

(** The tensor map and the instruction information are there only
    together with a compile report. *)
Definition consistent (self : ReportJSON.t) : Prop :=
  (forall tm,
      ReportJSON.tensor_map self = Some tm ->
      is_Some (ReportJSON.events self !! COMPILE_END)
      /\ ReportJSON.get_num_tiles_per_ipu self
         = Ok (TensorMap.num_tiles_per_ipu tm))
  /\ (ReportJSON.instruction_info self = JDict []
      \/ is_Some (ReportJSON.tensor_map self)).

(** The integer a decoded value stands for in arithmetic, if any:
    [True] and [False] are 1 and 0. *)
Definition int_value (v : json) : option Z :=
  match v with
  | JInt n => Some n
  | JBool b => Some (if b then 1 else 0)
  | _ => None
  end.

(** How many of the values are the integer [k]. *)
Definition count_value (k : Z) (vs : list json) : Z :=
  Z.of_nat (length (List.filter
                      (fun v => bool_decide (int_value v = Some k)) vs)).

(** ** More sample events *)

Definition compile_end_with (report tensor_map instruction_info : string)
  : IpuTraceEvent.t :=
  {| IpuTraceEvent.type := COMPILE_END;
     IpuTraceEvent.compile_end :=
       {| IpuTraceEvent.compilation_report := report;
          IpuTraceEvent.tensor_map := tensor_map;
          IpuTraceEvent.instruction_info := instruction_info |};
     IpuTraceEvent.data_transfer :=
       {| IpuTraceEvent.DataTransfer.data_transfer := "" |};
     IpuTraceEvent.execute := {| IpuTraceEvent.execution_report := "" |} |}.

(** A transfer payload with the tensors [a] and [b]. *)
Definition named_transfer : json :=
  JDict [("tensors",
          JList [JDict [("name", JStr "a")]; JDict [("name", JStr "b")]])].

(** [self] with one recorded payload. *)
Definition recorded (kind : EventType) (v : json) : ReportJSON.t :=
  ReportJSON.with_events {[kind := v]} blank.

(** [self] after decoding the list [evts] of deserialised events. *)
Definition decoded (evts : list IpuTraceEvent.t) : ReportJSON.t :=
  fst (ReportJSON.parse_events stored sample_loads evts None "" blank).

(** The histogram returned for [evts]. *)
Definition histogram (evts : list IpuTraceEvent.t) : gmap EventType nat :=
  value_of ∅
    (snd (ReportJSON.parse_events stored sample_loads evts None "" blank)).

(** The number of inputs of the operations of a set. *)
Definition total_inputs `{Countable Operation}
    (input_ops : Operation -> list Operation) (ops : gset Operation) : nat :=
  sum_list (map (fun op => length (input_ops op)) (elements ops)).

(** [op] is reached from [start] along inputs. *)
Definition reached {Operation} (input_ops : Operation -> list Operation)
    (start op : Operation) : Prop :=
  rtc (fun a b => In b (input_ops a)) start op.

(** A small graph: the initial value 3 is computed from 1 and 2, 2 from
    1 and 4, and 4 from 2 again. *)
Definition sample_inputs (op : nat) : list nat :=
  match op with
  | 3 => [1; 2]
  | 2 => [1; 4]
  | 4 => [2]
  | _ => []
  end%nat.

(** A compile report with two compute sets, one vertex type and two
    programs. *)
Definition named_report : json :=
  JDict [("computeSets", JDict [("names", JList [JStr "conv/a"; JStr "pool"])]);
         ("vertexTypes", JDict [("names", JList [JStr "poplin::Conv"])]);
         ("programs",
          JList [JDict [("type", JStr "GlobalExchange");
                        ("name", JStr "exchange/0")];
                 JDict [("type", JStr "Execute"); ("name", JStr "conv/a")]])].

(** Every item is a [str]. *)
Definition all_strings (l : list json) : bool :=
  forallb (fun x => match x with JStr _ => true | _ => false end) l.

(** A tensor with one tile. *)
Definition tensor_on (tile : Z) : TensorMap.Tensor.t :=
  {| TensorMap.Tensor.inst := JStr "add";
     TensorMap.Tensor.index := JInt 0;
     TensorMap.Tensor.shape := JList [JInt 1];
     TensorMap.Tensor.dtype := JStr "float";
     TensorMap.Tensor.has_constant := false;
     TensorMap.Tensor.has_aliases := false;
     TensorMap.Tensor.num_elements := JInt 1;
     TensorMap.Tensor.tiles :=
       [ {| TensorMap.Tile.tile := JInt tile;
            TensorMap.Tile.num_elements := JInt 1 |} ] |}.

(** A pipeline of three stages, on the IPUs 0, 1 and 1 when an IPU has
    two tiles. *)
Definition three_stages : TensorMap.t :=
  {| TensorMap.num_tiles_per_ipu := JInt 2;
     TensorMap.mappings :=
       [("pipeline_stage_0_a", [tensor_on 0]);
        ("pipeline_stage_1_b", [tensor_on 2]);
        ("pipeline_stage_2_c", [tensor_on 3])] |}.

(** ** Shell patterns

    The meaning of a pattern, in the words of the documentation of
    [fnmatch]: [*] matches everything, [?] matches any single character,
    [[seq]] matches any character in [seq] and [[!seq]] any character not
    in [seq].  It is stated on the text of the pattern, without
    [translate] and [glob_match], for the theorems to compare [fnmatch]
    with it. *)

(** The body of a bracket expression names characters one by one and in
    ranges [lo-hi] of character codes; a character followed by [-] and one
    more character always opens a range. *)
Definition opens_range (rest : list ascii) : Prop :=
  exists hi rest', rest = "-"%char :: hi :: rest'.

Inductive in_seq (c : ascii) : list ascii -> Prop :=
| in_seq_range (lo hi : ascii) (rest : list ascii) :
    (nat_of_ascii lo <= nat_of_ascii c)%nat ->
    (nat_of_ascii c <= nat_of_ascii hi)%nat ->
    in_seq c (lo :: "-"%char :: hi :: rest)
| in_seq_past_range (lo hi : ascii) (rest : list ascii) :
    in_seq c rest ->
    in_seq c (lo :: "-"%char :: hi :: rest)
| in_seq_here (rest : list ascii) :
    ~ opens_range rest ->
    in_seq c (c :: rest)
| in_seq_past (x : ascii) (rest : list ascii) :
    ~ opens_range rest ->
    in_seq c rest ->
    in_seq c (x :: rest).

(** The body of a bracket expression is not empty, and only its first
    character may be [']']: the next [']'] closes the expression. *)
Definition seq_body (body : list ascii) : Prop :=
  exists b tl, body = b :: tl /\ ~ In "]"%char tl.

(** The text after a ['['] opens a bracket expression: [seq]] followed by
    [rest], or [!seq]] followed by [rest]. *)
Definition opens_seq (text : list ascii) (negate : bool)
    (body rest : list ascii) : Prop :=
  seq_body body
  /\ if negate then text = "!"%char :: body ++ "]"%char :: rest
     else text = body ++ "]"%char :: rest /\ hd_error body <> Some "!"%char.

(** [shell_match pattern name]: the whole name matches the whole pattern.
    [*] stands for any run of characters, the empty one too, [?] for any
    one character, [[seq]] for one character of [seq], [[!seq]] for one
    character that is not in [seq]; a ['['] that opens no bracket
    expression and every other character stand for themselves. *)
Inductive shell_match : list ascii -> list ascii -> Prop :=
| shell_match_end :
    shell_match [] []
| shell_match_star (pat run s : list ascii) :
    shell_match pat s ->
    shell_match ("*"%char :: pat) (run ++ s)
| shell_match_any (pat : list ascii) (c : ascii) (s : list ascii) :
    shell_match pat s ->
    shell_match ("?"%char :: pat) (c :: s)
| shell_match_seq (text body rest : list ascii) (c : ascii)
    (s : list ascii) :
    opens_seq text false body rest ->
    in_seq c body ->
    shell_match rest s ->
    shell_match ("["%char :: text) (c :: s)
| shell_match_not_seq (text body rest : list ascii) (c : ascii)
    (s : list ascii) :
    opens_seq text true body rest ->
    ~ in_seq c body ->
    shell_match rest s ->
    shell_match ("["%char :: text) (c :: s)
| shell_match_open (text s : list ascii) :
    (forall negate body rest, ~ opens_seq text negate body rest) ->
    shell_match text s ->
    shell_match ("["%char :: text) ("["%char :: s)
| shell_match_char (c : ascii) (pat s : list ascii) :
    c <> "*"%char -> c <> "?"%char -> c <> "["%char ->
    shell_match pat s ->
    shell_match (c :: pat) (c :: s).

(** ** Tiles and IPUs *)

(** Tile [t] is on IPU [x] when [num_tiles] tiles are spread evenly over
    [num_ipus] IPUs: [x] is the integer quotient of [t * num_ipus] by
    [num_tiles], or one less when the division leaves no remainder. *)
Definition on_ipu (num_tiles num_ipus t x : Z) : Prop :=
  x = t * num_ipus / num_tiles
  \/ ((t * num_ipus) mod num_tiles = 0 /\ x = t * num_ipus / num_tiles - 1).

(** A tensor map with one tensor, on tile 1, and -2.0 tiles per IPU, the
    quotient of -4 by 2. *)
Definition negative_tensor_map : TensorMap.t :=
  {| TensorMap.num_tiles_per_ipu :=
       JFloat (S754_finite true 4503599627370496 (-51));
     TensorMap.mappings := [("cluster_0", [tensor_on 1])] |}.

(** * Properties *)

(** ** Whitelist matching *)

Lemma missing_names_spec (names whitelist : list string) (name : string) :
  In name (missing_names_in_whitelist_entries names whitelist) <->
  In name names /\ nonempty name = true /\
  Forall (fun p => fnmatch name (p +:+ "*") = false) whitelist.
Proof.
  unfold missing_names_in_whitelist_entries.
  rewrite filter_In, andb_true_iff, negb_true_iff.
  assert (E : nonnil (List.filter (fun x => fnmatch name x)
                        (map (fun x => x +:+ "*") whitelist)) = false <->
              Forall (fun p => fnmatch name (p +:+ "*") = false) whitelist).
  { induction whitelist as [|p wl IH]; simpl.
    - split; [constructor | reflexivity].
    - destruct (fnmatch name (p +:+ "*")) eqn:Hp; simpl.
      + split; [discriminate | inversion 1; congruence].
      + rewrite IH. split; [by constructor | by inversion 1]. }
  rewrite E. tauto.
Qed.

Lemma missing_whitelist_entries_spec (names whitelist : list string)
    (x : string) :
  In x (missing_whitelist_entries_in_names names whitelist) <->
  In x (map (fun p => p +:+ "*") whitelist) /\
  Forall (fun name => fnmatch name x = false) names.
Proof.
  unfold missing_whitelist_entries_in_names.
  rewrite filter_In, negb_true_iff.
  assert (E : nonnil (List.filter (fun name => fnmatch name x) names) = false
              <-> Forall (fun name => fnmatch name x = false) names).
  { induction names as [|n ns IH]; simpl.
    - split; [constructor | reflexivity].
    - destruct (fnmatch n x) eqn:Hn; simpl.
      + split; [discriminate | inversion 1; congruence].
      + rewrite IH. split; [by constructor | by inversion 1]. }
  rewrite E. tauto.
Qed.

(** C10: [missing_names_in_whitelist_entries] never reports the empty
    name: every name of the returned fail list is non-empty, whatever
    the whitelist, and a list holding only the empty name gives an empty
    fail list although the empty name matches no pattern of the
    whitelist. *)
Theorem missing_names_never_empty_name (names whitelist : list string) :
  Forall (fun name => nonempty name = true)
    (missing_names_in_whitelist_entries names whitelist)
  /\ fnmatch "" ("a" +:+ "*") = false
  /\ missing_names_in_whitelist_entries [""] ["a"] = [].
Proof.
  split; [| split; reflexivity].
  apply List.Forall_forall. intros name Hin.
  apply missing_names_spec in Hin. tauto.
Qed.

(** *** A pattern followed by [*] matches the names with a matching
    prefix *)

Lemma until_close_snoc (s stuff rest : list ascii) :
  until_close s = Some (stuff, rest) ->
  until_close (s ++ ["*"%char]) = Some (stuff, rest ++ ["*"%char])
  /\ (length rest < length s)%nat.
Proof.
  revert stuff rest. induction s as [|c s IH]; intros stuff rest; simpl.
  - discriminate.
  - destruct (Ascii.eqb c "]").
    + intros [= <- <-]. split; [reflexivity | lia].
    + destruct (until_close s) as [[st r]|] eqn:E; [|discriminate].
      intros [= <- <-]. destruct (IH _ _ eq_refl) as [-> Hl].
      split; [reflexivity | lia].
Qed.

Lemma until_close_snoc_None (s : list ascii) :
  until_close s = None -> until_close (s ++ ["*"%char]) = None.
Proof.
  induction s as [|c s IH]; simpl; [reflexivity|].
  destruct (Ascii.eqb c "]"); [discriminate|].
  destruct (until_close s) as [[st r]|]; [discriminate|].
  intros _. by rewrite IH.
Qed.

Lemma closing_snoc (negate : bool) (s : list ascii) :
  match closing negate s with
  | Some (n, stuff, rest) =>
      closing negate (s ++ ["*"%char]) = Some (n, stuff, rest ++ ["*"%char])
      /\ (length rest < length s)%nat
  | None => closing negate (s ++ ["*"%char]) = None
  end.
Proof.
  destruct s as [|c s2]; [reflexivity|].
  change ((c :: s2) ++ ["*"%char]) with (c :: (s2 ++ ["*"%char])).
  unfold closing. destruct (Ascii.eqb c "]") eqn:Ec.
  - destruct (until_close s2) as [[st r]|] eqn:E.
    + destruct (until_close_snoc _ _ _ E) as [-> Hl].
      split; [reflexivity | simpl; lia].
    + by rewrite (until_close_snoc_None _ E).
  - destruct (until_close (c :: s2)) as [[st r]|] eqn:E.
    + destruct (until_close_snoc _ _ _ E) as [E' Hl].
      change ((c :: s2) ++ ["*"%char]) with (c :: (s2 ++ ["*"%char])) in E'.
      rewrite E'. split; [reflexivity | exact Hl].
    + pose proof (until_close_snoc_None _ E) as E'.
      change ((c :: s2) ++ ["*"%char]) with (c :: (s2 ++ ["*"%char])) in E'.
      by rewrite E'.
Qed.

Lemma bracket_snoc (s : list ascii) :
  match bracket s with
  | Some (negate, stuff, rest) =>
      bracket (s ++ ["*"%char]) = Some (negate, stuff, rest ++ ["*"%char])
      /\ (length rest < length s)%nat
  | None => bracket (s ++ ["*"%char]) = None
  end.
Proof.
  destruct s as [|c s']; [reflexivity|].
  change ((c :: s') ++ ["*"%char]) with (c :: (s' ++ ["*"%char])).
  unfold bracket. destruct (Ascii.eqb c "!") eqn:Ec.
  - pose proof (closing_snoc true s') as H.
    destruct (closing true s') as [[[n stuff] rest]|]; [|exact H].
    destruct H as [H Hl]. split; [exact H | simpl; lia].
  - apply (closing_snoc false (c :: s')).
Qed.

Lemma translate_snoc (fuel : nat) :
  forall (pat : list ascii) (fuel' : nat),
    (length pat <= fuel)%nat -> (length pat < fuel')%nat ->
    translate fuel' (pat ++ ["*"%char]) = translate fuel pat ++ [GStar].
Proof.
  induction fuel as [|fuel IH]; intros pat fuel' Hf Hf'.
  - destruct pat; [|simpl in Hf; lia].
    destruct fuel' as [|f']; [simpl in Hf'; lia|]. simpl. by destruct f'.
  - destruct pat as [|c rest].
    + destruct fuel' as [|f']; [simpl in Hf'; lia|]. simpl. by destruct f'.
    + destruct fuel' as [|f']; [simpl in Hf'; lia|].
      simpl in Hf, Hf'.
      change ((c :: rest) ++ ["*"%char]) with (c :: (rest ++ ["*"%char])).
      cbn [translate].
      destruct (Ascii.eqb c "*"); [by rewrite (IH rest f') by lia|].
      destruct (Ascii.eqb c "?"); [by rewrite (IH rest f') by lia|].
      destruct (Ascii.eqb c "[").
      * pose proof (bracket_snoc rest) as Hb.
        destruct (bracket rest) as [[[negate stuff] rest']|].
        -- destruct Hb as [-> Hl]. by rewrite (IH rest' f') by lia.
        -- rewrite Hb. by rewrite (IH rest f') by lia.
      * by rewrite (IH rest f') by lia.
Qed.

Lemma glob_match_star (pat : list glob) (s : list ascii) :
  glob_match (GStar :: pat) s = true <->
  exists s1 s2, s = s1 ++ s2 /\ glob_match pat s2 = true.
Proof.
  induction s as [|c s IH].
  - cbn [glob_match]. rewrite orb_false_r. split.
    + intros H. by exists [], [].
    + intros (s1 & s2 & E & H). symmetry in E.
      apply app_eq_nil in E as [-> ->]. exact H.
  - change (glob_match (GStar :: pat) (c :: s))
      with (glob_match pat (c :: s) || glob_match (GStar :: pat) s).
    rewrite orb_true_iff, IH. split.
    + intros [H | (s1 & s2 & -> & H)].
      * by exists [], (c :: s).
      * by exists (c :: s1), s2.
    + intros (s1 & s2 & E & H). destruct s1 as [|c' s1].
      * simpl in E. subst s2. by left.
      * injection E as <- ->. right. by exists s1, s2.
Qed.

Lemma glob_match_snoc_star (pat : list glob) :
  forall s : list ascii,
    glob_match (pat ++ [GStar]) s = true <->
    exists s1 s2, s = s1 ++ s2 /\ glob_match pat s1 = true.
Proof.
  induction pat as [|g pat IH]; intros s.
  - change ([] ++ [GStar]) with [GStar]. rewrite glob_match_star. split.
    + intros _. by exists [], s.
    + intros _. exists s, []. by rewrite app_nil_r.
  - change ((g :: pat) ++ [GStar]) with (g :: (pat ++ [GStar])).
    destruct g as [| |c|negate stuff].
    + rewrite glob_match_star. split.
      * intros (a & b & -> & H). apply IH in H as (b1 & b2 & -> & H).
        exists (a ++ b1), b2. split; [by rewrite app_assoc|].
        apply glob_match_star. by exists a, b1.
      * intros (s1 & s2 & -> & H).
        apply glob_match_star in H as (a & b1 & -> & H).
        exists a, (b1 ++ s2). split; [by rewrite app_assoc|].
        apply IH. by exists b1, s2.
    + destruct s as [|c' s]; cbn [glob_match].
      * split; [discriminate|]. intros ([|? ?] & s2 & E & H); discriminate.
      * rewrite IH. split.
        -- intros (s1 & s2 & -> & H). by exists (c' :: s1), s2.
        -- intros ([|c1 s1] & s2 & E & H); [discriminate|].
           injection E as <- ->. by exists s1, s2.
    + destruct s as [|c' s]; cbn [glob_match].
      * split; [discriminate|]. intros ([|? ?] & s2 & E & H); discriminate.
      * rewrite andb_true_iff, IH. split.
        -- intros (Hc & s1 & s2 & -> & H). exists (c' :: s1), s2.
           split; [reflexivity|]. cbn [glob_match]. by rewrite Hc.
        -- intros ([|c1 s1] & s2 & E & H); [discriminate|].
           injection E as <- ->. cbn [glob_match] in H.
           apply andb_true_iff in H as [Hc H]. split; [exact Hc|].
           by exists s1, s2.
    + destruct s as [|c' s]; cbn [glob_match].
      * split; [discriminate|]. intros ([|? ?] & s2 & E & H); discriminate.
      * rewrite andb_true_iff, IH. split.
        -- intros (Hc & s1 & s2 & -> & H). exists (c' :: s1), s2.
           split; [reflexivity|]. cbn [glob_match]. by rewrite Hc.
        -- intros ([|c1 s1] & s2 & E & H); [discriminate|].
           injection E as <- ->. cbn [glob_match] in H.
           apply andb_true_iff in H as [Hc H]. split; [exact Hc|].
           by exists s1, s2.
Qed.

Lemma chars_append (a b : string) : chars (a +:+ b) = chars a ++ chars b.
Proof.
  unfold chars. induction a as [|c a IH]; simpl; [reflexivity|].
  by rewrite IH.
Qed.

Lemma length_chars (a : string) : length (chars a) = String.length a.
Proof.
  unfold chars. induction a as [|c a IH]; simpl; [reflexivity|].
  by rewrite IH.
Qed.

Lemma chars_of_list (l : list ascii) : chars (string_of_list_ascii l) = l.
Proof. apply list_ascii_of_string_of_list_ascii. Qed.

(** A name matches [pattern + '*'] exactly when the pattern matches a
    prefix of the name. *)
Lemma fnmatch_suffixed (name pattern : string) :
  fnmatch name (pattern +:+ "*") = true <->
  exists prefix rest,
    name = prefix +:+ rest /\ fnmatch prefix pattern = true.
Proof.
  unfold fnmatch. rewrite chars_append.
  change (chars "*") with ["*"%char].
  rewrite (translate_snoc (String.length pattern));
    [| by rewrite length_chars
     | rewrite <- !length_chars, chars_append, length_app; simpl; lia ].
  rewrite glob_match_snoc_star. split.
  - intros (s1 & s2 & E & H).
    exists (string_of_list_ascii s1), (string_of_list_ascii s2). split.
    + rewrite <- (string_of_list_ascii_of_string name).
      fold (chars name). rewrite E. clear.
      induction s1 as [|c s1 IH]; simpl; [reflexivity | by rewrite IH].
    + by rewrite chars_of_list.
  - intros (prefix & rest & -> & H).
    exists (chars prefix), (chars rest). by rewrite chars_append.
Qed.

(** *** The matcher against the patterns of the shell *)

Lemma in_class_in_seq (c : ascii) (n : nat) :
  forall stuff : list ascii,
    (length stuff <= n)%nat ->
    in_class c stuff = true <-> in_seq c stuff.
Proof.
  induction n as [|n IH]; intros stuff Hn.
  - destruct stuff; [|simpl in Hn; lia].
    split; [discriminate | inversion 1].
  - destruct stuff as [|lo rest].
    { split; [discriminate | inversion 1]. }
    simpl in Hn.
    assert (Hsingle : ~ opens_range rest ->
              Ascii.eqb c lo || in_class c rest = true <->
              in_seq c (lo :: rest)).
    { intros Hno. rewrite orb_true_iff, Ascii.eqb_eq, (IH rest) by lia.
      split.
      - intros [-> | H]; [by apply in_seq_here | by apply in_seq_past].
      - inversion 1; subst;
          try (exfalso; apply Hno; by eexists _, _); tauto. }
    destruct rest as [|dash [|hi rest']].
    + apply Hsingle. by intros (? & ? & ?).
    + apply Hsingle. by intros (? & ? & ?).
    + cbn [in_class]. destruct (Ascii.eqb dash "-") eqn:Ed.
      * apply Ascii.eqb_eq in Ed. subst dash.
        rewrite orb_true_iff, andb_true_iff. unfold char_le.
        rewrite !Nat.leb_le, (IH rest') by (simpl in Hn; lia).
        split.
        -- intros [[H1 H2] | H];
             [by apply in_seq_range | by apply in_seq_past_range].
        -- inversion 1; subst; try tauto;
             exfalso; match goal with H : ~ opens_range _ |- _ => apply H end;
             by eexists _, _.
      * apply Hsingle. intros (? & ? & [= -> _ _]).
        by rewrite Ascii.eqb_refl in Ed.
Qed.

Lemma in_class_spec (c : ascii) (stuff : list ascii) :
  in_class c stuff = true <-> in_seq c stuff.
Proof. by apply (in_class_in_seq c (length stuff)). Qed.

Lemma until_close_sound (s stuff rest : list ascii) :
  until_close s = Some (stuff, rest) ->
  s = stuff ++ "]"%char :: rest /\ ~ In "]"%char stuff.
Proof.
  revert stuff rest. induction s as [|c s IH]; intros stuff rest; simpl.
  - discriminate.
  - destruct (Ascii.eqb c "]") eqn:Ec.
    + apply Ascii.eqb_eq in Ec. subst c. intros [= <- <-].
      split; [reflexivity | intros []].
    + destruct (until_close s) as [[st r]|]; [|discriminate].
      intros [= <- <-]. destruct (IH _ _ eq_refl) as [-> Hno].
      split; [reflexivity|]. intros [-> | H]; [|tauto].
      by rewrite Ascii.eqb_refl in Ec.
Qed.

Lemma until_close_complete (stuff rest : list ascii) :
  ~ In "]"%char stuff ->
  until_close (stuff ++ "]"%char :: rest) = Some (stuff, rest).
Proof.
  induction stuff as [|c stuff IH]; intros Hno; simpl.
  - reflexivity.
  - destruct (Ascii.eqb c "]") eqn:Ec.
    + apply Ascii.eqb_eq in Ec. subst c. exfalso. apply Hno. by left.
    + rewrite IH; [reflexivity|]. intros H. apply Hno. by right.
Qed.

Lemma closing_sound (negate n : bool) (s body rest : list ascii) :
  closing negate s = Some (n, body, rest) ->
  n = negate /\ seq_body body /\ s = body ++ "]"%char :: rest.
Proof.
  destruct s as [|c s2]; [discriminate|]. unfold closing.
  destruct (Ascii.eqb c "]") eqn:Ec.
  - destruct (until_close s2) as [[st r]|] eqn:E; [|discriminate].
    intros [= <- <- <-]. apply until_close_sound in E as [-> Hno].
    split; [reflexivity|]. split; [by exists c, st | reflexivity].
  - destruct (until_close (c :: s2)) as [[st r]|] eqn:E; [|discriminate].
    intros [= <- <- <-]. apply until_close_sound in E as [E Hno].
    split; [reflexivity|]. split; [|exact E].
    destruct st as [|b tl].
    + injection E as -> _. by rewrite Ascii.eqb_refl in Ec.
    + exists b, tl. split; [reflexivity|]. intros H. apply Hno. by right.
Qed.

Lemma closing_complete (negate : bool) (body rest : list ascii) :
  seq_body body ->
  closing negate (body ++ "]"%char :: rest) = Some (negate, body, rest).
Proof.
  intros (b & tl & -> & Hno).
  change ((b :: tl) ++ "]"%char :: rest) with (b :: (tl ++ "]"%char :: rest)).
  unfold closing. destruct (Ascii.eqb b "]") eqn:Eb.
  - by rewrite (until_close_complete tl rest Hno).
  - change (b :: (tl ++ "]"%char :: rest))
      with ((b :: tl) ++ "]"%char :: rest).
    rewrite until_close_complete; [reflexivity|].
    intros [E | H]; [| tauto]. subst b. by rewrite Ascii.eqb_refl in Eb.
Qed.

Lemma bracket_sound (text : list ascii) (negate : bool)
    (body rest : list ascii) :
  bracket text = Some (negate, body, rest) ->
  opens_seq text negate body rest.
Proof.
  destruct text as [|c s']; [discriminate|]. unfold bracket.
  destruct (Ascii.eqb c "!") eqn:Ec.
  - apply Ascii.eqb_eq in Ec. subst c. intros H.
    apply closing_sound in H as (-> & Hb & ->). by split.
  - intros H. apply closing_sound in H as (-> & Hb & E).
    split; [exact Hb|]. split; [exact E|].
    destruct Hb as (b & tl & -> & _). injection E as -> _.
    simpl. intros [= ->]. by rewrite Ascii.eqb_refl in Ec.
Qed.

Lemma bracket_complete (text : list ascii) (negate : bool)
    (body rest : list ascii) :
  opens_seq text negate body rest ->
  bracket text = Some (negate, body, rest).
Proof.
  intros [Hb H]. destruct negate.
  - subst text. unfold bracket. rewrite Ascii.eqb_refl.
    by apply closing_complete.
  - destruct H as [-> Hhd]. pose proof Hb as (b & tl & -> & _).
    change ((b :: tl) ++ "]"%char :: rest)
      with (b :: (tl ++ "]"%char :: rest)).
    unfold bracket. destruct (Ascii.eqb b "!") eqn:Eb.
    + apply Ascii.eqb_eq in Eb. subst b. by destruct Hhd.
    + by apply (closing_complete false (b :: tl) rest).
Qed.

Lemma opens_seq_shorter (text : list ascii) (negate : bool)
    (body rest : list ascii) :
  opens_seq text negate body rest -> (length rest < length text)%nat.
Proof.
  intros [_ H]. destruct negate; [| destruct H as [H _]]; subst text;
    simpl; rewrite length_app; simpl; lia.
Qed.

(** The translated pattern matches exactly what the pattern of the shell
    matches. *)
Lemma glob_match_translate (fuel : nat) :
  forall pat : list ascii,
    (length pat <= fuel)%nat ->
    forall s : list ascii,
      glob_match (translate fuel pat) s = true <-> shell_match pat s.
Proof.
  induction fuel as [|fuel IH]; intros pat Hf s.
  - destruct pat; [|simpl in Hf; lia]. cbn [translate glob_match].
    split.
    + intros H. destruct s; [constructor | discriminate].
    + by inversion 1.
  - destruct pat as [|c pat].
    { cbn [translate glob_match]. split.
      - intros H. destruct s; [constructor | discriminate].
      - by inversion 1. }
    simpl in Hf.
    assert (Hchar : c <> "*"%char -> c <> "?"%char ->
              (c = "["%char ->
               forall negate body rest, ~ opens_seq pat negate body rest) ->
              glob_match (GChar c :: translate fuel pat) s = true <->
              shell_match (c :: pat) s).
    { intros H1 H2 H3. destruct s as [|c' s]; cbn [glob_match].
      - split; [discriminate | inversion 1; congruence].
      - rewrite andb_true_iff, Ascii.eqb_eq, (IH pat) by lia. split.
        + intros [<- H].
          destruct (ascii_dec c "[") as [E|E].
          * subst c. apply shell_match_open; [by apply H3 | exact H].
          * by apply shell_match_char.
        + inversion 1; subst; try congruence; try tauto;
            exfalso; by eapply H3. }
    cbn [translate].
    destruct (Ascii.eqb c "*") eqn:E1.
    { apply Ascii.eqb_eq in E1. subst c. rewrite glob_match_star. split.
      - intros (s1 & s2 & -> & H). apply shell_match_star.
        by apply (IH pat); [lia|].
      - inversion 1; subst; try congruence.
        eexists _, _. split; [reflexivity|]. by apply (IH pat); [lia|]. }
    destruct (Ascii.eqb c "?") eqn:E2.
    { apply Ascii.eqb_eq in E2. subst c.
      destruct s as [|c' s]; cbn [glob_match].
      - split; [discriminate | inversion 1].
      - rewrite (IH pat) by lia. split.
        + by apply shell_match_any.
        + inversion 1; subst; try congruence. }
    apply Ascii.eqb_neq in E1, E2.
    destruct (Ascii.eqb c "[") eqn:E3.
    + apply Ascii.eqb_eq in E3. subst c.
      destruct (bracket pat) as [[[negate body] rest]|] eqn:Eb.
      * pose proof (bracket_sound _ _ _ _ Eb) as Ho.
        pose proof (opens_seq_shorter _ _ _ _ Ho) as Hl.
        destruct s as [|c' s]; cbn [glob_match].
        { split; [discriminate | inversion 1]. }
        rewrite andb_true_iff, (IH rest) by lia.
        assert (Hx : xorb negate (in_class c' body) = true <->
                     if negate then ~ in_seq c' body else in_seq c' body).
        { pose proof (in_class_spec c' body) as Hs.
          destruct negate, (in_class c' body); simpl; split; intros H;
            try discriminate; try reflexivity.
          - exfalso. apply H. by apply Hs.
          - intros H'. apply Hs in H'. discriminate.
          - by apply Hs.
          - apply Hs in H. discriminate. }
        rewrite Hx. split.
        -- intros [Hc H]. destruct negate.
           ++ by eapply shell_match_not_seq.
           ++ by eapply shell_match_seq.
        -- inversion 1; subst; try congruence;
             try match goal with
                 | H : opens_seq _ _ _ _ |- _ =>
                     apply bracket_complete in H; rewrite Eb in H;
                     injection H as -> -> ->; by split
                 end.
           exfalso.
           match goal with
           | H : forall negate body rest, ~ opens_seq _ _ _ _ |- _ =>
               by eapply H
           end.
      * apply Hchar; [done | done |]. intros _ negate body rest Ho.
        apply bracket_complete in Ho. congruence.
    + apply Ascii.eqb_neq in E3. apply Hchar; [done | done | done].
Qed.

(** [fnmatch] is the matching of shell patterns on whole strings. *)
Lemma fnmatch_shell_match (name pattern : string) :
  fnmatch name pattern = true <-> shell_match (chars pattern) (chars name).
Proof.
  unfold fnmatch. apply glob_match_translate. by rewrite length_chars.
Qed.

Lemma fnmatch_false_shell_match (name pattern : string) :
  fnmatch name pattern = false <->
  ~ shell_match (chars pattern) (chars name).
Proof.
  rewrite <- fnmatch_shell_match. by destruct (fnmatch name pattern).
Qed.

Lemma names_in_blacklist_spec (names blacklist : list string)
    (name : string) :
  In name (names_in_blacklist names blacklist) <->
  In name names /\
  Exists (fun p => fnmatch name (p +:+ "*") = true) blacklist.
Proof.
  unfold names_in_blacklist, items_matching_at_least_one_pattern.
  rewrite filter_In.
  assert (E : nonnil (List.filter (fun p => fnmatch name p)
                        (map (fun x => x +:+ "*") blacklist)) = true <->
              Exists (fun p => fnmatch name (p +:+ "*") = true) blacklist).
  { induction blacklist as [|p bl IH]; simpl.
    - split; [discriminate | inversion 1].
    - destruct (fnmatch name (p +:+ "*")) eqn:Hp; simpl.
      + split; [by left | reflexivity].
      + rewrite IH. split; [by right | inversion 1; congruence]. }
  by rewrite E.
Qed.

(** C7: the checks match each name against each whitelist pattern
    followed by [*], the whole name against the whole pattern, and the
    matching is that of the patterns of the shell: [fnmatch] holds
    exactly when [shell_match] does, where [*] stands for any run of
    characters, [?] for one character, [[seq]] for one character of
    [seq] and [[!seq]] for one character not in it.  A name is reported
    as missing exactly when it is a non-empty name of the list that no
    suffixed pattern matches, a suffixed pattern is reported exactly when
    it matches no name, a name is in the blacklist exactly when it is a
    name of the list that a suffixed pattern matches, and a suffixed
    pattern matches the names of which the pattern matches a prefix.
    For the names [convXXX/Conv2D],
    [poolXXX] and the whitelist [convXXX] the unmatched names are
    [poolXXX] and no whitelist entry is unmatched. *)
Theorem whitelist_matching_is_anchored_glob :
  missing_names_in_whitelist_entries ["convXXX/Conv2D"; "poolXXX"] ["convXXX"]
  = ["poolXXX"]
  /\ missing_whitelist_entries_in_names ["convXXX/Conv2D"; "poolXXX"] ["convXXX"]
     = []
  /\ (fnmatch "abc" "a?c", fnmatch "abc" "a[a-c]c", fnmatch "abc" "a[!a-c]c",
      fnmatch "XconvXXX" "convXXX*", fnmatch "convXX" "convXXX*")
     = (true, true, false, false, false)
  /\ (forall names whitelist name,
        In name (missing_names_in_whitelist_entries names whitelist) <->
        In name names /\ nonempty name = true /\
        Forall (fun p => fnmatch name (p +:+ "*") = false) whitelist)
  /\ (forall names whitelist x,
        In x (missing_whitelist_entries_in_names names whitelist) <->
        In x (map (fun p => p +:+ "*") whitelist) /\
        Forall (fun name => fnmatch name x = false) names)
  /\ (forall name pattern,
        fnmatch name (pattern +:+ "*") = true <->
        exists prefix rest,
          name = prefix +:+ rest /\ fnmatch prefix pattern = true)
  /\ (forall name pattern,
        fnmatch name pattern = true <->
        shell_match (chars pattern) (chars name))
  /\ (forall names whitelist name,
        In name (missing_names_in_whitelist_entries names whitelist) <->
        In name names /\ nonempty name = true /\
        Forall (fun p => ~ shell_match (chars p ++ ["*"%char]) (chars name))
          whitelist)
  /\ (forall names whitelist x,
        In x (missing_whitelist_entries_in_names names whitelist) <->
        In x (map (fun p => p +:+ "*") whitelist) /\
        Forall (fun name => ~ shell_match (chars x) (chars name)) names)
  /\ (forall names blacklist name,
        In name (names_in_blacklist names blacklist) <->
        In name names /\
        Exists (fun p => shell_match (chars p ++ ["*"%char]) (chars name))
          blacklist).
Proof.
  split; [reflexivity|]. split; [reflexivity|]. split; [reflexivity|].
  split; [exact missing_names_spec|].
  split; [exact missing_whitelist_entries_spec|].
  split; [exact fnmatch_suffixed|].
  split; [exact fnmatch_shell_match|].
  split; [|split].
  - intros names whitelist name. rewrite missing_names_spec.
    assert (E : Forall (fun p => fnmatch name (p +:+ "*") = false) whitelist
                <-> Forall (fun p => ~ shell_match (chars p ++ ["*"%char])
                                         (chars name)) whitelist).
    { apply Forall_iff. intros p.
      rewrite fnmatch_false_shell_match, chars_append. reflexivity. }
    by rewrite E.
  - intros names whitelist x. rewrite missing_whitelist_entries_spec.
    assert (E : Forall (fun name => fnmatch name x = false) names
                <-> Forall (fun name => ~ shell_match (chars x) (chars name))
                      names).
    { apply Forall_iff. intros name. apply fnmatch_false_shell_match. }
    by rewrite E.
  - intros names blacklist name. rewrite names_in_blacklist_spec.
    assert (E : Exists (fun p => fnmatch name (p +:+ "*") = true) blacklist
                <-> Exists (fun p => shell_match (chars p ++ ["*"%char])
                                       (chars name)) blacklist).
    { rewrite !List.Exists_exists.
      split; intros (p & Hp & H); exists p; (split; [exact Hp|]).
      - apply fnmatch_shell_match in H. by rewrite chars_append in H.
      - apply fnmatch_shell_match. by rewrite chars_append. }
    by rewrite E.
Qed.

(** ** Decoding trace events *)

Ltac decide_kind :=
repeat first [ rewrite bool_decide_eq_true_2 by reflexivity
             | rewrite bool_decide_eq_false_2 by discriminate ].

Ltac run :=
cbv beta iota delta
  [ReportJSON.when ReportJSON.bind ReportJSON.pass ReportJSON.ret
   ReportJSON.lift ReportJSON.raise ReportJSON.call ReportJSON.modify
   ReportJSON.assert_not_recorded ReportJSON.set_event
   ReportJSON.try_except_UnicodeDecodeError].

Section DecodeProperties.
Context {record : Type}.
Variable FromString : record -> result IpuTraceEvent.t.
Variable loads : string -> result json.

Abbreviation parse_events := (ReportJSON.parse_events FromString loads).
Abbreviation parse_loop := (ReportJSON.parse_loop FromString loads).
Abbreviation decode_event := (ReportJSON.decode_event loads).

(** [parse_events] is the loop on the cleared attributes, unless the
    count check fails first. *)
Lemma parse_events_eq (events : list record) (assert_len : option Z)
    (msg : string) (self : ReportJSON.t) :
  parse_events events assert_len msg self =
  if count_passes assert_len (length events)
  then parse_loop events ∅ blank
  else (self, Raise (TestFailure (default 0 assert_len)
                       (Z.of_nat (length events)) msg)).
Proof.
  unfold ReportJSON.parse_events, count_passes, ReportJSON.supplied.
  destruct assert_len as [n|]; simpl; [|reflexivity].
  destruct (n =? 0) eqn:E0; simpl; [reflexivity|].
  unfold ReportJSON.bind at 1. unfold ReportJSON.assertEqual.
  destruct (n =? Z.of_nat (length events)); reflexivity.
Qed.

Lemma parse_loop_cons (e : record) (rest : list record)
    (h : gmap EventType nat) (self : ReportJSON.t) :
  parse_loop (e :: rest) h self =
  match FromString e with
  | Raise x => (self, Raise x)
  | Ok evt =>
      match
        ReportJSON.try_except_UnicodeDecodeError (decode_event evt) self
      with
      | (self', Ok _) =>
          parse_loop rest (ReportJSON.bump (IpuTraceEvent.type evt) h) self'
      | (self', Raise x) => (self', Raise x)
      end
  end.
Proof.
  cbn [ReportJSON.parse_loop]. unfold ReportJSON.bind at 1, ReportJSON.lift.
  destruct (FromString e) as [evt|x]; [|reflexivity].
  unfold ReportJSON.bind. reflexivity.
Qed.

Lemma parse_loop_app (pre post : list record) :
  forall (h : gmap EventType nat) (self : ReportJSON.t),
    parse_loop (pre ++ post) h self =
    match parse_loop pre h self with
    | (self', Ok h') => parse_loop post h' self'
    | (self', Raise x) => (self', Raise x)
    end.
Proof.
  induction pre as [|e pre IH]; intros h self; [reflexivity|].
  change ((e :: pre) ++ post) with (e :: (pre ++ post)).
  rewrite !parse_loop_cons.
  destruct (FromString e) as [evt|x]; [|reflexivity].
  destruct (ReportJSON.try_except_UnicodeDecodeError _ self) as [self' [[]|x]];
    [apply IH | reflexivity].
Qed.


Lemma decode_duplicate (evt : IpuTraceEvent.t) (p : string)
    (self : ReportJSON.t) :
  singleton_payload evt = Some p -> nonempty p = true ->
  is_Some (ReportJSON.events self !! IpuTraceEvent.type evt) ->
  ReportJSON.try_except_UnicodeDecodeError (decode_event evt) self
  = (self, Raise AssertionError).
Proof.
  unfold singleton_payload, ReportJSON.decode_event.
  intros Hp Hne [v Hv].
  destruct (IpuTraceEvent.type evt) eqn:Ht; try discriminate;
    injection Hp as <-; cbv zeta; decide_kind; run; rewrite Hne, Hv;
    reflexivity.
Qed.


Lemma decode_undecodable (evt : IpuTraceEvent.t) (p : string)
    (self : ReportJSON.t) :
  payload evt = Some p -> loads p = Raise UnicodeDecodeError ->
  IpuTraceEvent.type evt = EXECUTE
  \/ ReportJSON.events self !! IpuTraceEvent.type evt = None ->
  ReportJSON.try_except_UnicodeDecodeError (decode_event evt) self
  = (self, Ok tt).
Proof.
  unfold payload, singleton_payload, ReportJSON.decode_event.
  intros Hp Hl Hv.
  destruct (IpuTraceEvent.type evt) eqn:Ht; try discriminate;
    injection Hp as <-; cbv zeta; decide_kind; run;
    (match goal with |- context [nonempty ?s] => destruct (nonempty s) end;
     [|reflexivity]);
    rewrite ?Hl; (destruct Hv as [Hv|Hv]; [try discriminate | try rewrite Hv]);
    reflexivity.
Qed.

Lemma decode_propagates (evt : IpuTraceEvent.t) (p : string) (x : exn)
    (self : ReportJSON.t) :
  payload evt = Some p -> nonempty p = true -> loads p = Raise x ->
  x <> UnicodeDecodeError ->
  IpuTraceEvent.type evt = EXECUTE
  \/ ReportJSON.events self !! IpuTraceEvent.type evt = None ->
  ReportJSON.try_except_UnicodeDecodeError (decode_event evt) self
  = (self, Raise x).
Proof.
  unfold payload, singleton_payload, ReportJSON.decode_event.
  intros Hp Hne Hl Hx Hv.
  destruct (IpuTraceEvent.type evt) eqn:Ht; try discriminate;
    injection Hp as <-; cbv zeta; decide_kind; run; rewrite Hne, ?Hl;
    (destruct Hv as [Hv|Hv]; [try discriminate | try rewrite Hv]);
    destruct x; try reflexivity; congruence.
Qed.

(** What a decoded compile-end report leaves in [self.events]. *)
Lemma decode_compile_end (evt : IpuTraceEvent.t) (report : json)
    (self : ReportJSON.t) :
  IpuTraceEvent.type evt = COMPILE_END ->
  nonempty (IpuTraceEvent.compilation_report (IpuTraceEvent.compile_end evt))
  = true ->
  loads (IpuTraceEvent.compilation_report (IpuTraceEvent.compile_end evt))
  = Ok report ->
  ReportJSON.events self !! COMPILE_END = None ->
  ReportJSON.events
    (fst (ReportJSON.try_except_UnicodeDecodeError (decode_event evt) self))
  = <[COMPILE_END := report]> (ReportJSON.events self).
Proof.
  unfold ReportJSON.decode_event. intros Ht Hne Hl Hv.
  rewrite Ht. cbv zeta. decide_kind. run. rewrite Hne, Hv, Hl.
  destruct (loads (IpuTraceEvent.tensor_map _)) as [tmj|[]]; try reflexivity.
  destruct (ReportJSON.get_num_tiles_per_ipu _) as [per|[]]; try reflexivity.
  destruct (TensorMap.init tmj per) as [tm|[]]; try reflexivity.
  destruct (loads (IpuTraceEvent.instruction_info _)) as [ii|[]]; reflexivity.
Qed.

(** Any event leaves a recorded compile-end report as it is, or stops
    the decode. *)
Lemma decode_keeps_compile_end (evt : IpuTraceEvent.t) (report : json)
    (self self' : ReportJSON.t) :
  ReportJSON.events self !! COMPILE_END = Some report ->
  ReportJSON.try_except_UnicodeDecodeError (decode_event evt) self
  = (self', Ok tt) ->
  ReportJSON.events self' !! COMPILE_END = Some report.
Proof.
  unfold ReportJSON.decode_event. intros Hv.
  destruct (IpuTraceEvent.type evt) eqn:Ht; cbv zeta; decide_kind; run;
    repeat match goal with
      | |- context [nonempty ?s] => destruct (nonempty s)
      end;
    rewrite ?Hv;
    repeat match goal with
      | |- context [ReportJSON.events self !! ?k] =>
          destruct (ReportJSON.events self !! k) eqn:?
      | |- context [loads ?p] => destruct (loads p) as [?|[]]
      | |- context [ReportJSON.append_item ?a ?b] =>
          destruct (ReportJSON.append_item a b) as [?|[]]
      end;
    cbn; try discriminate; intros [= <-]; cbn;
    rewrite ?lookup_insert_ne by discriminate; try assumption.
Qed.

Lemma parse_loop_keeps_compile_end (events : list record) (report : json) :
  forall (h h' : gmap EventType nat) (self self' : ReportJSON.t),
    ReportJSON.events self !! COMPILE_END = Some report ->
    parse_loop events h self = (self', Ok h') ->
    ReportJSON.events self' !! COMPILE_END = Some report.
Proof.
  induction events as [|e rest IH]; intros h h' self self' Hv.
  - by intros [= <- _].
  - rewrite parse_loop_cons.
    destruct (FromString e) as [evt|x]; [|discriminate].
    destruct (ReportJSON.try_except_UnicodeDecodeError _ self)
      as [s1 [[]|x]] eqn:E; [|discriminate].
    apply IH. by eapply decode_keeps_compile_end.
Qed.

Lemma parse_loop_records_compile_end (events : list record) (e : record)
    (evt : IpuTraceEvent.t) (report : json) :
  FromString e = Ok evt ->
  IpuTraceEvent.type evt = COMPILE_END ->
  nonempty (IpuTraceEvent.compilation_report (IpuTraceEvent.compile_end evt))
  = true ->
  loads (IpuTraceEvent.compilation_report (IpuTraceEvent.compile_end evt))
  = Ok report ->
  In e events ->
  forall (h h' : gmap EventType nat) (self self' : ReportJSON.t),
    parse_loop events h self = (self', Ok h') ->
    ReportJSON.events self' !! COMPILE_END = Some report.
Proof.
  intros He Ht Hne Hl. induction events as [|e0 rest IH]; [intros []|].
  intros Hin h h' self self'. rewrite parse_loop_cons.
  destruct Hin as [->|Hin].
  - rewrite He.
    destruct (ReportJSON.try_except_UnicodeDecodeError _ self)
      as [s1 [[]|x]] eqn:E; [|discriminate].
    apply parse_loop_keeps_compile_end.
    destruct (ReportJSON.events self !! COMPILE_END) as [v|] eqn:Hv.
    + assert (Hp : singleton_payload evt
                   = Some (IpuTraceEvent.compilation_report
                             (IpuTraceEvent.compile_end evt)))
        by (unfold singleton_payload; by rewrite Ht).
      rewrite (decode_duplicate evt _ self Hp Hne) in E; [discriminate|].
      rewrite Ht. eauto.
    + pose proof (decode_compile_end evt report self Ht Hne Hl Hv) as Hr.
      rewrite E in Hr. simpl in Hr. rewrite Hr. apply lookup_insert_eq.
  - destruct (FromString e0) as [evt0|x]; [|discriminate].
    destruct (ReportJSON.try_except_UnicodeDecodeError _ self)
      as [s1 [[]|x]] eqn:E; [|discriminate].
    by apply IH.
Qed.

(** C1: when the events before [e] have been decoded and have recorded
    a payload of the kind of [e] ([COMPILE_END],
    [HOST_TO_DEVICE_TRANSFER] or [DEVICE_TO_HOST_TRANSFER]), and [e]
    carries a non-empty payload of that kind, [parse_events] stops at [e]
    with the [AssertionError] of the [assert] statement: the [try]
    statement does not catch it, and the events after [e] are not
    looked at. *)
Theorem duplicate_payload_aborts (pre post : list record) (e : record)
    (evt : IpuTraceEvent.t) (p : string) (assert_len : option Z)
    (msg : string) (self before : ReportJSON.t) (h : gmap EventType nat) :
  count_passes assert_len (length (pre ++ e :: post)) = true ->
  parse_events pre None "" self = (before, Ok h) ->
  FromString e = Ok evt ->
  singleton_payload evt = Some p ->
  nonempty p = true ->
  is_Some (ReportJSON.events before !! IpuTraceEvent.type evt) ->
  parse_events (pre ++ e :: post) assert_len msg self
  = (before, Raise AssertionError).
Proof.
  intros Hc Hpre He Hp Hne Hrec.
  rewrite parse_events_eq in Hpre. simpl in Hpre.
  rewrite parse_events_eq, Hc, parse_loop_app, Hpre, parse_loop_cons, He.
  by rewrite (decode_duplicate evt p before Hp Hne Hrec).
Qed.

(** C2, as amended: when [json.loads] raises on the non-empty payload of
    an event [e] that does not trip the duplicate assertion, the
    exception is swallowed exactly when it is a [UnicodeDecodeError] (a
    payload that is not UTF-8): [e] is counted in the histogram, leaves
    [self] as it was, and the loop goes on with the events after [e].
    Any other exception, such as the [ValueError] for a payload that is
    UTF-8 but not JSON, leaves [parse_events] at [e]. *)
Theorem undecodable_payload (pre post : list record) (e : record)
    (evt : IpuTraceEvent.t) (p : string) (x : exn) (assert_len : option Z)
    (msg : string) (self before : ReportJSON.t) (h : gmap EventType nat) :
  count_passes assert_len (length (pre ++ e :: post)) = true ->
  parse_events pre None "" self = (before, Ok h) ->
  FromString e = Ok evt ->
  payload evt = Some p ->
  nonempty p = true ->
  IpuTraceEvent.type evt = EXECUTE
  \/ ReportJSON.events before !! IpuTraceEvent.type evt = None ->
  loads p = Raise x ->
  parse_events (pre ++ e :: post) assert_len msg self
  = match x with
    | UnicodeDecodeError =>
        parse_loop post (ReportJSON.bump (IpuTraceEvent.type evt) h) before
    | _ => (before, Raise x)
    end.
Proof.
  intros Hc Hpre He Hp Hne Hrec Hl.
  rewrite parse_events_eq in Hpre. simpl in Hpre.
  rewrite parse_events_eq, Hc, parse_loop_app, Hpre, parse_loop_cons, He.
  assert (x = UnicodeDecodeError \/ x <> UnicodeDecodeError) as [->|Hx]
    by (destruct x; (by left) || (by right)).
  - by rewrite (decode_undecodable evt p before Hp Hl Hrec).
  - rewrite (decode_propagates evt p x before Hp Hne Hl Hx Hrec).
    by destruct x.
Qed.

(** C8: a call of [parse_events] that gets past the count check (as
    every call without [assert_len] does) returns the same histogram or
    exception and leaves the same [events], [tensor_map] and
    [instruction_info] whatever [self] held before, so that every query
    on [self] gives the same answer after decoding one list twice, or
    after decoding it following any other list. *)
Theorem parse_events_is_stateless (events : list record)
    (assert_len : option Z) (msg : string) (self1 self2 : ReportJSON.t) :
  count_passes assert_len (length events) = true ->
  parse_events events assert_len msg self1
  = parse_events events assert_len msg self2
  /\ forall (A : Type) (query : ReportJSON.t -> A),
       query (fst (parse_events events assert_len msg self1))
       = query (fst (parse_events events assert_len msg self2)).
Proof.
  intros Hc. rewrite !parse_events_eq, Hc. by split.
Qed.

(** The value or exception of [parse_events] never depends on what
    [self] held before. *)
Lemma parse_events_result_is_stateless (events : list record)
    (assert_len : option Z) (msg : string) (self1 self2 : ReportJSON.t) :
  snd (parse_events events assert_len msg self1)
  = snd (parse_events events assert_len msg self2).
Proof.
  rewrite !parse_events_eq. by destruct (count_passes _ _).
Qed.

(** A non-zero expected count that differs from the number of records
    fails the test with both numbers and the caller's message. *)
Lemma parse_events_count_mismatch (events : list record) (n : Z)
    (msg : string) (self : ReportJSON.t) :
  n <> 0 -> n <> Z.of_nat (length events) ->
  parse_events events (Some n) msg self
  = (self, Raise (TestFailure n (Z.of_nat (length events)) msg)).
Proof.
  intros H0 Hn. rewrite parse_events_eq.
  unfold count_passes, ReportJSON.supplied. simpl.
  apply Z.eqb_neq in H0, Hn. by rewrite H0, Hn.
Qed.

(** An expected count that agrees lets the decode proceed. *)
Lemma parse_events_count_agrees (events : list record) (msg : string)
    (self : ReportJSON.t) :
  parse_events events (Some (Z.of_nat (length events))) msg self
  = parse_events events None msg self.
Proof.
  rewrite !parse_events_eq. unfold count_passes. simpl.
  by rewrite Z.eqb_refl, orb_true_r.
Qed.

(** An expected count of zero is not compared with anything. *)
Lemma parse_events_zero_count (events : list record) (msg : string)
    (self : ReportJSON.t) :
  parse_events events (Some 0) msg self = parse_events events None msg self.
Proof. by rewrite !parse_events_eq. Qed.

(** C4, as amended: for the empty event list [parse_events] returns the
    empty histogram and leaves no decoded event; every query that reads
    the compilation report then fails with the [KeyError] of the lookup
    of [COMPILE_END] in [self.events], which carries the key and no
    message of its own, and none of them returns a value; the two
    queries on what else a [COMPILE_END] event provides do not fail:
    [get_tensor_map] returns [None] and [get_instruction_info] the
    empty dictionary. *)
Theorem empty_event_list (msg : string) (self : ReportJSON.t) :
  parse_events [] None msg self = (blank, Ok ∅)
  /\ ReportJSON.get_each_tile_memory blank
     = Raise (KeyError (KEvent COMPILE_END))
  /\ ReportJSON.get_max_tile_memory blank
     = Raise (KeyError (KEvent COMPILE_END))
  /\ ReportJSON.get_always_live_memory blank
     = Raise (KeyError (KEvent COMPILE_END))
  /\ ReportJSON.get_total_tile_memory blank
     = Raise (KeyError (KEvent COMPILE_END))
  /\ ReportJSON.get_vertices blank
     = Raise (KeyError (KEvent COMPILE_END))
  /\ ReportJSON.get_compute_sets blank
     = Raise (KeyError (KEvent COMPILE_END))
  /\ ReportJSON.get_num_ipus blank
     = Raise (KeyError (KEvent COMPILE_END))
  /\ ReportJSON.get_num_tiles blank
     = Raise (KeyError (KEvent COMPILE_END))
  /\ ReportJSON.get_num_tiles_per_ipu blank
     = Raise (KeyError (KEvent COMPILE_END))
  /\ (forall program_type,
        ReportJSON.get_first_program_of_type program_type blank
        = Raise (KeyError (KEvent COMPILE_END)))
  /\ (forall program_type,
        ReportJSON.get_program_names_of_type program_type blank
        = Raise (KeyError (KEvent COMPILE_END)))
  /\ (forall index,
        ReportJSON.get_program index blank
        = Raise (KeyError (KEvent COMPILE_END)))
  /\ ReportJSON.get_tensor_map blank = None
  /\ ReportJSON.get_instruction_info blank = JDict [].
Proof. repeat split. Qed.

(** C6: after [parse_events] on the single [COMPILE_END] event whose
    report gives 2 IPUs, 4 tiles and the per-tile totals 10, 20, 30,
    40, [get_num_ipus] returns 2, [get_total_tile_memory] returns 100
    and [get_max_tile_memory] returns 40. *)
Theorem single_compile_end_scenario (e : record) (evt : IpuTraceEvent.t)
    (report : json) (assert_len : option Z) (msg : string)
    (self : ReportJSON.t) :
  count_passes assert_len 1 = true ->
  FromString e = Ok evt ->
  IpuTraceEvent.type evt = COMPILE_END ->
  nonempty (IpuTraceEvent.compilation_report (IpuTraceEvent.compile_end evt))
  = true ->
  loads (IpuTraceEvent.compilation_report (IpuTraceEvent.compile_end evt))
  = Ok report ->
  ReportJSON.path report ["target"; "numIPUs"] = Ok (JInt 2) ->
  ReportJSON.path report ["target"; "numTiles"] = Ok (JInt 4) ->
  ReportJSON.path report ["memory"; "byTile"; "total"]
  = Ok (JList [JInt 10; JInt 20; JInt 30; JInt 40]) ->
  let self' := fst (parse_events [e] assert_len msg self) in
  ReportJSON.get_num_ipus self' = Ok (JInt 2)
  /\ ReportJSON.get_num_tiles self' = Ok (JInt 4)
  /\ ReportJSON.get_total_tile_memory self' = Ok (JInt 100)
  /\ ReportJSON.get_max_tile_memory self' = Ok (JInt 40).
Proof.
  intros Hc He Ht Hne Hl Hi Hn Hm self'.
  assert (Hev : ReportJSON.events self' !! COMPILE_END = Some report).
  { subst self'. rewrite parse_events_eq.
    change (length [e]) with 1%nat. rewrite Hc, parse_loop_cons, He.
    pose proof (decode_compile_end evt report blank Ht Hne Hl eq_refl) as Hr.
    destruct (ReportJSON.try_except_UnicodeDecodeError _ blank)
      as [s1 [[]|x]]; simpl in *; rewrite Hr; apply lookup_insert_eq. }
  unfold ReportJSON.get_total_tile_memory, ReportJSON.get_max_tile_memory,
    ReportJSON.get_each_tile_memory, ReportJSON.get_num_ipus,
    ReportJSON.get_num_tiles, ReportJSON.event.
  rewrite Hev. cbn [mbind result_bind]. rewrite Hi, Hn, Hm.
  repeat split.
Qed.
End DecodeProperties.

(** *** The theorems on sample events *)

(** C4, as the spec states it, fails: after the empty list is decoded,
    not every query on what a [COMPILE_END] event provides fails.
    [get_tensor_map] returns [None] and [get_instruction_info] returns
    the empty dictionary, both without an error; and the error of a query
    that does fail, here [get_compute_sets], is the [KeyError] of a
    dictionary lookup, not an error that says that no compile-end event
    was seen. *)
Lemma empty_list_queries_default :
  snd (ReportJSON.parse_events stored sample_loads [] None "" blank) = Ok ∅
  /\ ReportJSON.get_tensor_map (decoded []) = None
  /\ ReportJSON.get_instruction_info (decoded []) = JDict []
  /\ ReportJSON.get_compute_sets (decoded [])
     = Raise (KeyError (KEvent COMPILE_END)).
Proof. repeat split. Qed.

Lemma duplicate_payload_aborts_witness :
  ReportJSON.parse_events stored sample_loads
    ([compile_end_event report_text]
     ++ compile_end_event report_text :: [execute_event "{}"])
    None "" blank
  = (fst (ReportJSON.parse_events stored sample_loads
            [compile_end_event report_text] None "" blank),
     Raise AssertionError).
Proof.
  apply (duplicate_payload_aborts stored sample_loads
           [compile_end_event report_text] [execute_event "{}"]
           (compile_end_event report_text) (compile_end_event report_text)
           report_text None "" blank
           (fst (ReportJSON.parse_events stored sample_loads
                   [compile_end_event report_text] None "" blank))
           (value_of ∅
              (snd (ReportJSON.parse_events stored sample_loads
                      [compile_end_event report_text] None "" blank)))).
  - vm_compute; reflexivity.
  - vm_compute. reflexivity.
  - vm_compute; reflexivity.
  - vm_compute; reflexivity.
  - vm_compute; reflexivity.
  - vm_compute. eexists. reflexivity.
Defined.

Lemma undecodable_payload_witness :
  ReportJSON.parse_events stored sample_loads
    ([execute_event "{}"]
     ++ transfer_event HOST_TO_DEVICE_TRANSFER bad_utf8
        :: [execute_event "{}"])
    None "" blank
  = ReportJSON.parse_loop stored sample_loads [execute_event "{}"]
      (ReportJSON.bump HOST_TO_DEVICE_TRANSFER {[EXECUTE := 1%nat]})
      (ReportJSON.with_events {[EXECUTE := JList [JDict []]]} blank).
Proof.
  apply (undecodable_payload stored sample_loads
           [execute_event "{}"] [execute_event "{}"]
           (transfer_event HOST_TO_DEVICE_TRANSFER bad_utf8)
           (transfer_event HOST_TO_DEVICE_TRANSFER bad_utf8)
           bad_utf8 UnicodeDecodeError None "" blank
           (ReportJSON.with_events {[EXECUTE := JList [JDict []]]} blank)
           {[EXECUTE := 1%nat]}).
  - vm_compute; reflexivity.
  - vm_compute. reflexivity.
  - vm_compute; reflexivity.
  - vm_compute; reflexivity.
  - vm_compute; reflexivity.
  - right. vm_compute. reflexivity.
  - vm_compute; reflexivity.
Defined.

(** After the undecodable transfer payload the decode goes on and
    returns the histogram of all three events. *)
Example undecodable_payload_counts :
  snd (ReportJSON.parse_events stored sample_loads
         [execute_event "{}";
          transfer_event HOST_TO_DEVICE_TRANSFER bad_utf8;
          execute_event "{}"]
         None "" blank)
  = Ok {[HOST_TO_DEVICE_TRANSFER := 1%nat; EXECUTE := 2%nat]}.
Proof. vm_compute. reflexivity. Qed.

(** C2, as the spec states it, fails on a payload that is valid UTF-8 but
    not JSON: the [ValueError] of [json.loads] leaves [parse_events],
    the event is not skipped and the event after it is not decoded. *)
Lemma invalid_json_payload_is_raised :
  sample_loads bad_json = Raise ValueError
  /\ snd (ReportJSON.parse_events stored sample_loads
            [transfer_event HOST_TO_DEVICE_TRANSFER bad_json;
             execute_event "{}"]
            None "" blank)
     = Raise ValueError.
Proof. split; vm_compute; reflexivity. Qed.

Lemma parse_events_is_stateless_witness :
  ReportJSON.parse_events stored sample_loads
    [compile_end_event report_text] (Some 1) ""
    (fst (ReportJSON.parse_events stored sample_loads
            [transfer_event HOST_TO_DEVICE_TRANSFER transfer_text]
            None "" blank))
  = ReportJSON.parse_events stored sample_loads
      [compile_end_event report_text] (Some 1) "" blank.
Proof.
  refine (proj1 (parse_events_is_stateless stored sample_loads
                   [compile_end_event report_text] (Some 1) "" _ blank _)).
  vm_compute; reflexivity.
Defined.

Lemma single_compile_end_scenario_witness :
  ReportJSON.get_num_ipus
    (fst (ReportJSON.parse_events stored sample_loads
            [compile_end_event report_text] None "" blank))
  = Ok (JInt 2)
  /\ ReportJSON.get_total_tile_memory
       (fst (ReportJSON.parse_events stored sample_loads
               [compile_end_event report_text] None "" blank))
     = Ok (JInt 100)
  /\ ReportJSON.get_max_tile_memory
       (fst (ReportJSON.parse_events stored sample_loads
               [compile_end_event report_text] None "" blank))
     = Ok (JInt 40).
Proof.
  destruct (single_compile_end_scenario stored sample_loads
              (compile_end_event report_text) (compile_end_event report_text)
              report_value None "" blank)
    as (H1 & _ & H2 & H3); try (vm_compute; reflexivity).
  exact (conj H1 (conj H2 H3)).
Defined.

(** C3: an expected count of zero is dropped by [if assert_len:], so a
    list of one record passes where the count check should fail; for
    every list the call with [assert_len=0] is the call without
    [assert_len]. *)
Theorem zero_expected_count_is_not_checked :
  snd (ReportJSON.parse_events stored sample_loads
         [execute_event "{}"] (Some 0) "no events expected" blank)
  = Ok {[EXECUTE := 1%nat]}
  /\ forall (record : Type) (FromString : record -> result IpuTraceEvent.t)
       (loads : string -> result json) (events : list record)
       (msg : string) (self : ReportJSON.t),
       ReportJSON.parse_events FromString loads events (Some 0) msg self
       = ReportJSON.parse_events FromString loads events None msg self.
Proof.
  split; [vm_compute; reflexivity|].
  intros. apply parse_events_zero_count.
Qed.

(** ** IPU ids *)

Lemma int_is_floor (f : spec_float) :
  not_negative f = true -> Py.int_of_float f = Py.floor_of_float f.
Proof.
  destruct f as [| | |[] m e]; try reflexivity; [discriminate|].
  intros _. unfold Py.int_of_float, Py.floor_of_float.
  destruct (Z.leb_spec 0 e) as [He|He]; [reflexivity|].
  f_equal. apply Z.quot_div_nonneg; [lia|].
  apply Z.pow_pos_nonneg; lia.
Qed.

Lemma binary_round_aux_sign (m e : Z) (l : location) :
  not_negative (binary_round_aux Py.prec Py.emax false m e l) = true.
Proof.
  unfold binary_round_aux.
  destruct (shr_fexp _ _ m e l) as [mrs' e'].
  destruct (shr_fexp _ _ _ e' loc_Exact) as [mrs'' e''].
  destruct (shr_m mrs''); [reflexivity| |reflexivity].
  by destruct (e'' <=? _).
Qed.

Lemma SFdiv_sign (x y : spec_float) :
  not_negative x = true -> not_negative y = true ->
  not_negative (SFdiv Py.prec Py.emax x y) = true.
Proof.
  destruct x as [[]|[]| |[] mx ex], y as [[]|[]| |[] my ey];
    try discriminate; try reflexivity.
  intros _ _. unfold SFdiv.
  destruct (SFdiv_core_binary _ _ _ _ _ _) as [[mz ez] lz].
  apply binary_round_aux_sign.
Qed.

Lemma float_of_int_sign (n : Z) (f : spec_float) :
  0 <= n -> Py.float_of_int n = Ok f -> not_negative f = true.
Proof.
  unfold Py.float_of_int, binary_normalize. intros Hn.
  destruct n as [|p|p]; [by intros [= <-] | | lia].
  unfold binary_round.
  destruct (shl_align _ _ _) as [mz ez].
  pose proof (binary_round_aux_sign (Z.pos mz) ez loc_Exact) as Hs.
  destruct (binary_round_aux _ _ _ _ _ _) as [| | |]; try discriminate;
    by intros [= <-].
Qed.

Lemma ipu_of_tile_is_floor (self : TensorMap.t) (tile_id : Z) :
  0 <= tile_id ->
  positive_number (TensorMap.num_tiles_per_ipu self) = true ->
  TensorMap.ipu_of_tile self tile_id
  = floor_div tile_id (TensorMap.num_tiles_per_ipu self).
Proof.
  unfold TensorMap.ipu_of_tile, floor_div, Py.truediv. intros Ht Hp.
  destruct (TensorMap.num_tiles_per_ipu self) as [| |n|f| | |];
    try discriminate; cbn [Py.as_number mbind result_bind].
  - simpl in Hp. apply Z.ltb_lt in Hp.
    destruct (n =? 0); [reflexivity|].
    destruct (tile_id =? 0); [reflexivity|].
    assert (Hs : not_negative (SFdiv Py.prec Py.emax (Py.exact_operand tile_id)
                                 (Py.exact_operand n)) = true).
    { apply SFdiv_sign; [by destruct tile_id | by destruct n]. }
    destruct (SFdiv _ _ _ _) as [| | |]; try reflexivity;
      cbn [Py.int Py.as_number mbind result_bind]; by apply int_is_floor.
  - cbn [Py.to_float].
    destruct (Py.float_of_int tile_id) as [fx|x] eqn:Ef; [|reflexivity].
    cbn [mbind result_bind].
    pose proof (float_of_int_sign _ _ Ht Ef) as Hx.
    assert (Hs : not_negative (SFdiv Py.prec Py.emax fx f) = true).
    { apply SFdiv_sign; [exact Hx | by destruct f as [[]|[]| |[] ? ?]]. }
    destruct f as [[]|[]| |[] ? ?]; try discriminate;
      cbn [Py.int Py.as_number mbind result_bind]; by apply int_is_floor.
Qed.

Lemma mapM_result_ext {A B} (f g : A -> result B) (l : list A) :
  (forall x, In x l -> f x = g x) -> mapM f l = mapM g l.
Proof.
  induction l as [|x l IH]; intros H; [reflexivity|].
  cbn [mapM]. rewrite (H x) by (by left).
  rewrite IH; [reflexivity|]. intros y Hy. apply H. by right.
Qed.

Lemma mapM_result_elem {A B} (f : A -> result B) (l : list A) :
  forall ys : list B,
    mapM f l = Ok ys ->
    forall y, In y ys <-> exists x, In x l /\ f x = Ok y.
Proof.
  induction l as [|x l IH]; intros ys; cbn [mapM].
  - intros [= <-] y. split; [intros [] | intros (x & [] & _)].
  - destruct (f x) as [b|e] eqn:Ef; [|discriminate].
    cbn [mbind result_bind].
    destruct (mapM f l) as [k|e] eqn:Ek; [|discriminate].
    intros [= <-] y. specialize (IH k eq_refl y). split.
    + intros [<-|Hy]; [exists x; split; [by left | exact Ef]|].
      apply IH in Hy as (x' & Hx' & Hf). exists x'.
      split; [by right | exact Hf].
    + intros (x' & [<-|Hx'] & Hf); [left; congruence|].
      right. apply IH. by exists x'.
Qed.

(** ** Exact float arithmetic on small integers *)

Lemma digits2_pos_size (p : positive) : digits2_pos p = Pos.size p.
Proof. induction p as [p IH|p IH|]; simpl; by rewrite ?IH. Qed.

Lemma Zdigits2_log2 (n : Z) : 0 < n -> Zdigits2 n = Z.log2 n + 1.
Proof.
  destruct n as [|p|p]; try lia. intros _. simpl.
  rewrite digits2_pos_size. destruct p; simpl; lia.
Qed.

Lemma fexp_binary64 (x : Z) :
  fexp Py.prec Py.emax x = Z.max (x - 53) (-1074).
Proof. reflexivity. Qed.

Lemma shr_1_double (m : Z) :
  shr_1 (Build_shr_record (2 * m) false false) = Build_shr_record m false false.
Proof. by destruct m. Qed.

Lemma iter_shr_exact (t : positive) :
  forall m : Z,
    SpecFloat.iter_pos shr_1 t (Build_shr_record (2 ^ Z.pos t * m) false false)
    = Build_shr_record m false false.
Proof.
  induction t as [t IH|t IH|]; intros m.
  - cbn [SpecFloat.iter_pos].
    assert (Hp : 2 ^ Z.pos t~1 = 2 * (2 ^ Z.pos t * 2 ^ Z.pos t)).
    { rewrite <- Z.pow_add_r, <- Z.pow_succ_r by lia. f_equal. lia. }
    rewrite Hp.
    replace (2 * (2 ^ Z.pos t * 2 ^ Z.pos t) * m)
      with (2 * (2 ^ Z.pos t * (2 ^ Z.pos t * m))) by ring.
    by rewrite shr_1_double, !IH.
  - cbn [SpecFloat.iter_pos].
    assert (Hp : 2 ^ Z.pos t~0 = 2 ^ Z.pos t * 2 ^ Z.pos t).
    { rewrite <- Z.pow_add_r by lia. f_equal. lia. }
    rewrite Hp.
    replace (2 ^ Z.pos t * 2 ^ Z.pos t * m)
      with (2 ^ Z.pos t * (2 ^ Z.pos t * m)) by ring.
    by rewrite !IH.
  - cbn [SpecFloat.iter_pos]. apply shr_1_double.
Qed.

Lemma shr_exact (m e t : Z) :
  0 <= t ->
  shr (Build_shr_record (m * 2 ^ t) false false) e t
  = (Build_shr_record m false false, e + t).
Proof.
  intros Ht. destruct t as [|p|p]; [| |lia].
  - by rewrite Z.pow_0_r, Z.mul_1_r, Z.add_0_r.
  - unfold shr. by rewrite (Z.mul_comm m), iter_shr_exact.
Qed.

(** Rounding a number that is a 53-bit mantissa [m] times a power of two
    gives that mantissa back. *)
Lemma binary_round_aux_exact (m e t : Z) :
  2 ^ 52 <= m < 2 ^ 53 -> 0 <= t -> -1074 <= e <= 971 ->
  binary_round_aux Py.prec Py.emax false (m * 2 ^ t) (e - t) loc_Exact
  = S754_finite false (Z.to_pos m) e.
Proof.
  intros Hm Ht He.
  assert (Hlog : Z.log2 m = 52) by (apply Z.log2_unique; lia).
  assert (Hd : Zdigits2 (m * 2 ^ t) = 53 + t).
  { rewrite Zdigits2_log2
      by (apply Z.mul_pos_pos; [lia | apply Z.pow_pos_nonneg; lia]).
    rewrite Z.log2_mul_pow2 by lia. lia. }
  assert (Hd0 : Zdigits2 m = 53) by (rewrite Zdigits2_log2 by lia; lia).
  unfold binary_round_aux, shr_fexp.
  rewrite Hd, fexp_binary64.
  replace (Z.max (53 + t + (e - t) - 53) (-1074) - (e - t)) with t by lia.
  cbn [shr_record_of_loc]. rewrite shr_exact by lia.
  cbn [shr_m loc_of_shr_record round_nearest_even].
  rewrite Hd0, fexp_binary64.
  replace (e - t + t) with e by lia.
  replace (Z.max (53 + e - 53) (-1074) - e) with 0 by lia.
  cbn [shr shr_m].
  destruct m as [|p|p]; try lia.
  replace (e <=? Py.emax - Py.prec) with true; [reflexivity|].
  symmetry. apply Z.leb_le. change (Py.emax - Py.prec) with 971. lia.
Qed.

Lemma mantissa_range (n : Z) :
  0 < n < 2 ^ 53 ->
  0 <= Z.log2 n <= 52 /\ 2 ^ 52 <= n * 2 ^ (52 - Z.log2 n) < 2 ^ 53.
Proof.
  intros Hn.
  assert (H0 : 0 <= Z.log2 n) by apply Z.log2_nonneg.
  assert (H1 : Z.log2 n < 53) by (apply Z.log2_lt_pow2; lia).
  destruct (Z.log2_spec n) as [Hlo Hhi]; [lia|].
  split; [lia|].
  replace (2 ^ 52) with (2 ^ Z.log2 n * 2 ^ (52 - Z.log2 n))
    by (rewrite <- Z.pow_add_r by lia; f_equal; lia).
  replace (2 ^ 53) with (2 ^ Z.succ (Z.log2 n) * 2 ^ (52 - Z.log2 n))
    by (rewrite <- Z.pow_add_r by lia; f_equal; lia).
  assert (0 < 2 ^ (52 - Z.log2 n)) by (apply Z.pow_pos_nonneg; lia).
  split; [apply Z.mul_le_mono_nonneg_r | apply Z.mul_lt_mono_pos_r]; lia.
Qed.

Lemma pos_iter_xO (p k : positive) :
  Z.pos (Pos.iter xO p k) = Z.pos p * 2 ^ Z.pos k.
Proof.
  induction k as [|k IH] using Pos.peano_ind.
  - simpl. lia.
  - rewrite Pos.iter_succ, Pos2Z.inj_xO, IH, Pos2Z.inj_succ, Z.pow_succ_r
      by lia.
    ring.
Qed.

(** [float(n)] is exact below 2^53. *)
Lemma float_of_int_small (n : Z) :
  0 < n < 2 ^ 53 -> Py.float_of_int n = Ok (small_float n).
Proof.
  intros Hn. destruct (mantissa_range n Hn) as [Hl Hm].
  unfold Py.float_of_int, small_float.
  destruct n as [|p|p]; try lia.
  cbn [binary_normalize]. unfold binary_round.
  change (Z.pos (digits2_pos p)) with (Zdigits2 (Z.pos p)).
  rewrite Zdigits2_log2, fexp_binary64 by lia.
  replace (Z.max (Z.log2 (Z.pos p) + 1 + 0 - 53) (-1074))
    with (Z.log2 (Z.pos p) - 52) by lia.
  unfold shl_align.
  destruct (Z.log2 (Z.pos p) - 52 - 0) as [|d|d] eqn:Ed; try lia.
  - replace (Z.log2 (Z.pos p)) with 52 in * by lia.
    pose proof (binary_round_aux_exact (Z.pos p) 0 0) as H.
    rewrite Z.pow_0_r, Z.mul_1_r in H, Hm. rewrite Z.mul_1_r.
    change (0 - 0) with 0 in H. change (52 - 52) with 0.
    rewrite H by lia. reflexivity.
  - pose proof (binary_round_aux_exact
                  (Z.pos p * 2 ^ (52 - Z.log2 (Z.pos p)))
                  (Z.log2 (Z.pos p) - 52) 0) as H.
    rewrite Z.pow_0_r, Z.mul_1_r, Z.sub_0_r in H.
    rewrite pos_iter_xO.
    replace (Z.pos d) with (52 - Z.log2 (Z.pos p)) by lia.
    rewrite H by lia. reflexivity.
Qed.

Lemma new_location_zero (n : Z) : new_location n 0 = loc_Exact.
Proof.
  unfold new_location, new_location_even, new_location_odd.
  by destruct (Z.even n).
Qed.

Lemma log2_product (k i : Z) :
  0 < k -> 0 < i ->
  Z.log2 (k * i) = Z.log2 k + Z.log2 i
  \/ Z.log2 (k * i) = Z.log2 k + Z.log2 i + 1.
Proof.
  intros Hk Hi.
  pose proof (Z.log2_mul_below k i Hk Hi).
  pose proof (Z.log2_mul_above k i). lia.
Qed.

(** The quotient of a multiple of [i] by [i] is exact. *)
Lemma SFdiv_exact (k i : Z) :
  0 < k -> 0 < i -> k * i < 2 ^ 53 ->
  SFdiv Py.prec Py.emax (Py.exact_operand (k * i)) (Py.exact_operand i)
  = small_float k.
Proof.
  intros Hk Hi Hn.
  assert (Hk53 : 0 < k < 2 ^ 53) by nia.
  destruct (mantissa_range k Hk53) as [Hlk Hmk].
  assert (Hli : 0 <= Z.log2 i) by apply Z.log2_nonneg.
  pose proof (log2_product k i Hk Hi) as Hlog.
  assert (Hpos : 0 < k * i) by nia.
  destruct (k * i) as [|pn|pn] eqn:En; try lia.
  destruct i as [|pi|pi]; try lia.
  cbn [Py.exact_operand SFdiv]. unfold SFdiv_core_binary.
  rewrite !Zdigits2_log2, fexp_binary64 by lia.
  set (a := Z.log2 (Z.pos pn) - Z.log2 (Z.pos pi)) in *.
  replace (Z.log2 (Z.pos pn) + 1 + 0 - (Z.log2 (Z.pos pi) + 1 + 0))
    with a by (unfold a; lia).
  replace (Z.min (Z.max (a - 53) (-1074)) (0 - 0)) with (a - 53) by lia.
  replace (0 - 0 - (a - 53)) with (53 - a) by lia.
  assert (Hm' : match 53 - a with
                | 0 => Z.pos pn
                | Z.pos _ => Z.shiftl (Z.pos pn) (53 - a)
                | Z.neg _ => 0
                end = Z.pos pi * (k * 2 ^ (53 - a))).
  { rewrite <- En.
    destruct (53 - a) as [|s|s] eqn:Es;
      [ rewrite Z.pow_0_r; ring
      | rewrite Z.shiftl_mul_pow2 by lia; ring
      | lia ]. }
  rewrite Hm'.
  assert (Hdiv : Z.div_eucl (Z.pos pi * (k * 2 ^ (53 - a))) (Z.pos pi)
                 = (k * 2 ^ (53 - a), 0)).
  { pose proof (Z.div_mul (k * 2 ^ (53 - a)) (Z.pos pi)) as Hq.
    pose proof (Z.mod_mul (k * 2 ^ (53 - a)) (Z.pos pi)) as Hr.
    rewrite Z.mul_comm in Hq, Hr. unfold Z.div, Z.modulo in Hq, Hr.
    destruct (Z.div_eucl _ _) as [q r]. f_equal; [apply Hq | apply Hr]; lia. }
  rewrite Hdiv, new_location_zero. cbn [xorb].
  pose proof (binary_round_aux_exact (k * 2 ^ (52 - Z.log2 k))
                (Z.log2 k - 52) (1 + Z.log2 k - a)) as H.
  replace (k * 2 ^ (52 - Z.log2 k) * 2 ^ (1 + Z.log2 k - a))
    with (k * 2 ^ (53 - a)) in H
    by (rewrite <- Z.mul_assoc, <- Z.pow_add_r by lia; do 2 f_equal; lia).
  replace (Z.log2 k - 52 - (1 + Z.log2 k - a)) with (a - 53) in H by lia.
  rewrite H by lia. reflexivity.
Qed.

(** The product of two small floats with a small product is exact. *)
Lemma SFmul_exact (k i : Z) :
  0 < k -> 0 < i -> k * i < 2 ^ 53 ->
  SFmul Py.prec Py.emax (small_float i) (small_float k) = small_float (k * i).
Proof.
  intros Hk Hi Hn.
  assert (Hk53 : 0 < k < 2 ^ 53) by nia.
  assert (Hi53 : 0 < i < 2 ^ 53) by nia.
  assert (Hn53 : 0 < k * i < 2 ^ 53) by nia.
  destruct (mantissa_range k Hk53) as [Hlk Hmk].
  destruct (mantissa_range i Hi53) as [Hli Hmi].
  destruct (mantissa_range (k * i) Hn53) as [Hln Hmn].
  pose proof (log2_product k i Hk Hi) as Hlog.
  unfold small_float at 1 2. cbn [SFmul xorb].
  rewrite Pos2Z.inj_mul, !Z2Pos.id by lia.
  pose proof (binary_round_aux_exact (k * i * 2 ^ (52 - Z.log2 (k * i)))
                (Z.log2 (k * i) - 52)
                (52 + Z.log2 (k * i) - Z.log2 i - Z.log2 k)) as H.
  replace (k * i * 2 ^ (52 - Z.log2 (k * i))
           * 2 ^ (52 + Z.log2 (k * i) - Z.log2 i - Z.log2 k))
    with (i * 2 ^ (52 - Z.log2 i) * (k * 2 ^ (52 - Z.log2 k))) in H.
  - replace (Z.log2 (k * i) - 52
             - (52 + Z.log2 (k * i) - Z.log2 i - Z.log2 k))
      with (Z.log2 i - 52 + (Z.log2 k - 52)) in H by lia.
    rewrite H by lia. reflexivity.
  - rewrite <- (Z.mul_assoc (k * i)), <- Z.pow_add_r by lia.
    replace (52 - Z.log2 (k * i)
             + (52 + Z.log2 (k * i) - Z.log2 i - Z.log2 k))
      with ((52 - Z.log2 i) + (52 - Z.log2 k)) by lia.
    rewrite Z.pow_add_r by lia. ring.
Qed.

(** [int] of a small float gives the integer back. *)
Lemma int_of_small_float (n : Z) :
  0 < n < 2 ^ 53 -> Py.int_of_float (small_float n) = Ok n.
Proof.
  intros Hn. destruct (mantissa_range n Hn) as [Hl Hm].
  unfold small_float, Py.int_of_float. rewrite Z2Pos.id by lia.
  destruct (Z.leb_spec 0 (Z.log2 n - 52)) as [He|He]; f_equal.
  - replace (Z.log2 n) with 52 by lia. simpl. lia.
  - replace (- (Z.log2 n - 52)) with (52 - Z.log2 n) by lia.
    apply Z.quot_mul. apply Z.pow_nonzero; lia.
Qed.

(** ** Rounding error of float arithmetic *)

Lemma shr_1_half (mrs : shr_record) :
  0 <= shr_m mrs -> shr_m (shr_1 mrs) = shr_m mrs / 2.
Proof.
  destruct mrs as [m r s]. cbn [shr_m]. intros Hm.
  destruct m as [|[p|p|]|p]; cbn [shr_1 shr_m];
    [ reflexivity
    | rewrite Pos2Z.inj_xI; apply Z.div_unique with 1; lia
    | rewrite Pos2Z.inj_xO; apply Z.div_unique with 0; lia
    | reflexivity
    | lia ].
Qed.

Lemma iter_shr_div (t : positive) :
  forall mrs : shr_record,
    0 <= shr_m mrs ->
    shr_m (SpecFloat.iter_pos shr_1 t mrs) = shr_m mrs / 2 ^ Z.pos t.
Proof.
  assert (Hnn : forall a b, 0 <= a -> 0 < b -> 0 <= a / b)
    by (intros; apply Z.div_pos; lia).
  assert (Hp : forall q : positive, 0 < 2 ^ Z.pos q)
    by (intros; apply Z.pow_pos_nonneg; lia).
  induction t as [t IH|t IH|]; intros mrs Hm; cbn [SpecFloat.iter_pos].
  - pose proof (shr_1_half mrs Hm) as H1.
    assert (H1' : 0 <= shr_m (shr_1 mrs)) by (rewrite H1; apply Hnn; lia).
    pose proof (IH _ H1') as H2.
    assert (H2' : 0 <= shr_m (SpecFloat.iter_pos shr_1 t (shr_1 mrs)))
      by (rewrite H2; apply Hnn; [lia | apply Hp]).
    rewrite (IH _ H2'), H2, H1.
    rewrite !Z.div_div by (pose proof (Hp t); lia).
    f_equal.
    assert (Hx : 2 ^ Z.pos t~1 = 2 * (2 ^ Z.pos t * 2 ^ Z.pos t)).
    { rewrite <- Z.pow_add_r, <- Z.pow_succ_r by lia. f_equal. lia. }
    rewrite Hx. ring.
  - pose proof (IH _ Hm) as H2.
    assert (H2' : 0 <= shr_m (SpecFloat.iter_pos shr_1 t mrs))
      by (rewrite H2; apply Hnn; [lia | apply Hp]).
    rewrite (IH _ H2'), H2.
    rewrite !Z.div_div by (pose proof (Hp t); lia).
    f_equal.
    assert (Hx : 2 ^ Z.pos t~0 = 2 ^ Z.pos t * 2 ^ Z.pos t).
    { rewrite <- Z.pow_add_r by lia. f_equal. lia. }
    rewrite Hx. ring.
  - by apply shr_1_half.
Qed.

Lemma shr_div (mrs : shr_record) (e t : Z) :
  0 <= t -> 0 <= shr_m mrs ->
  shr_m (fst (shr mrs e t)) = shr_m mrs / 2 ^ t /\ snd (shr mrs e t) = e + t.
Proof.
  intros Ht Hm. destruct t as [|p|p]; [| |lia]; cbn [shr fst snd].
  - rewrite Z.pow_0_r, Z.div_1_r. lia.
  - by rewrite iter_shr_div.
Qed.

Lemma shr_m_of_loc (m : Z) (l : location) :
  shr_m (shr_record_of_loc m l) = m.
Proof. by destruct l as [|[]]. Qed.

Lemma round_nearest_even_near (m : Z) (l : location) :
  m <= round_nearest_even m l <= m + 1.
Proof.
  destruct l as [|[]]; cbn [round_nearest_even]; try lia.
  destruct (Z.even m); lia.
Qed.

Lemma digits_range (m d : Z) :
  0 < m -> Zdigits2 m = d -> 2 ^ (d - 1) <= m < 2 ^ d.
Proof.
  intros Hm Hd. rewrite Zdigits2_log2 in Hd by lia.
  destruct (Z.log2_spec m Hm) as [Hlo Hhi].
  replace (d - 1) with (Z.log2 m) by lia.
  replace d with (Z.succ (Z.log2 m)) by lia. lia.
Qed.

Lemma digits_of_range (m d : Z) :
  0 < d -> 2 ^ (d - 1) <= m < 2 ^ d -> Zdigits2 m = d.
Proof.
  intros Hd Hm.
  assert (0 < 2 ^ (d - 1)) by (apply Z.pow_pos_nonneg; lia).
  assert (0 < m) by lia.
  rewrite Zdigits2_log2 by lia.
  rewrite (Z.log2_unique m (d - 1)); [lia | lia |].
  replace (Z.succ (d - 1)) with d by lia. lia.
Qed.

(** Rounding a mantissa of [53 + k] bits keeps its leading 53 bits, or
    adds one to them. *)
Lemma binary_round_aux_near (m e k : Z) (l : location) :
  0 < m -> Zdigits2 m = 53 + k -> 0 <= k ->
  -1074 <= e + k -> e + k < 971 ->
  exists (M : positive) (E : Z),
    binary_round_aux Py.prec Py.emax false m e l = S754_finite false M E
    /\ e + k <= E <= e + k + 1
    /\ m / 2 ^ k <= Z.pos M * 2 ^ (E - e - k) <= m / 2 ^ k + 1
    /\ 2 ^ 52 <= Z.pos M < 2 ^ 53.
Proof.
  intros Hm Hd Hk Hlo Hhi.
  pose proof (digits_range m _ Hm Hd) as Hr.
  assert (Hpk : 0 < 2 ^ k) by (apply Z.pow_pos_nonneg; lia).
  assert (Hf : 2 ^ 52 <= m / 2 ^ k < 2 ^ 53).
  { replace (53 + k - 1) with (52 + k) in Hr by lia.
    rewrite !Z.pow_add_r in Hr by lia. split.
    - apply Z.div_le_lower_bound; lia.
    - apply Z.div_lt_upper_bound; lia. }
  set (f := m / 2 ^ k) in *.
  unfold binary_round_aux, shr_fexp.
  rewrite Hd, fexp_binary64.
  replace (Z.max (53 + k + e - 53) (-1074) - e) with k by lia.
  destruct (shr_div (shr_record_of_loc m l) e k Hk) as [Hm1 He1];
    [rewrite shr_m_of_loc; lia|].
  rewrite shr_m_of_loc in Hm1. fold f in Hm1.
  destruct (shr (shr_record_of_loc m l) e k) as [mrs' e'].
  cbn [fst snd] in Hm1, He1. subst e'. rewrite Hm1.
  pose proof (round_nearest_even_near f (loc_of_shr_record mrs')) as Hrn.
  set (m1 := round_nearest_even f (loc_of_shr_record mrs')) in *.
  assert (m1 < 2 ^ 53 \/ m1 = 2 ^ 53) as [Hsmall|Hbig] by lia.
  - rewrite (digits_of_range m1 53) by lia.
    rewrite fexp_binary64.
    replace (Z.max (53 + (e + k) - 53) (-1074) - (e + k)) with 0 by lia.
    cbn [shr_record_of_loc shr shr_m].
    destruct m1 as [|M|M] eqn:Em1; try lia.
    exists M, (e + k).
    replace (e + k <=? Py.emax - Py.prec) with true
      by (symmetry; apply Z.leb_le; change (Py.emax - Py.prec) with 971; lia).
    replace (e + k - e - k) with 0 by lia. rewrite Z.pow_0_r.
    repeat split; lia.
  - rewrite Hbig.
    rewrite (digits_of_range (2 ^ 53) 54) by lia.
    rewrite fexp_binary64.
    replace (Z.max (54 + (e + k) - 53) (-1074) - (e + k)) with 1 by lia.
    cbn [shr_record_of_loc].
    destruct (shr_div (Build_shr_record (2 ^ 53) false false) (e + k) 1)
      as [Hm2 He2]; [lia | cbn [shr_m]; lia |].
    cbn [shr_m] in Hm2.
    destruct (shr (Build_shr_record (2 ^ 53) false false) (e + k) 1)
      as [mrs'' e''].
    cbn [fst snd] in Hm2, He2. subst e''. rewrite Hm2.
    change (2 ^ 53 / 2 ^ 1) with (Z.pos (Z.to_pos (2 ^ 52))).
    exists (Z.to_pos (2 ^ 52)), (e + k + 1).
    replace (e + k + 1 <=? Py.emax - Py.prec) with true
      by (symmetry; apply Z.leb_le; change (Py.emax - Py.prec) with 971; lia).
    replace (e + k + 1 - e - k) with 1 by lia.
    change (Z.pos (Z.to_pos (2 ^ 52)) * 2 ^ 1) with (2 ^ 53).
    change (Z.pos (Z.to_pos (2 ^ 52))) with (2 ^ 52).
    repeat split; lia.
Qed.

(** The quotient of two integers below 2^53, as a float: its mantissa
    [M] and exponent [E] are within two units of [n * 2^s / i], where
    [s] scales the quotient to 53 or 54 bits. *)
Lemma SFdiv_near (n i : Z) :
  0 < n < 2 ^ 53 -> 0 < i < 2 ^ 53 ->
  let s := 53 + Z.log2 i - Z.log2 n in
  exists (M : positive) (E : Z),
    SFdiv Py.prec Py.emax (Py.exact_operand n) (Py.exact_operand i)
    = S754_finite false M E
    /\ 0 <= E + s <= 2
    /\ n * 2 ^ s - 3 * i < i * (Z.pos M * 2 ^ (E + s)) <= n * 2 ^ s + 2 * i
    /\ 2 ^ 52 <= Z.pos M < 2 ^ 53.
Proof.
  intros Hn Hi s.
  destruct (mantissa_range n Hn) as [Hln _].
  destruct (mantissa_range i Hi) as [Hli _].
  destruct (Z.log2_spec n) as [Hnlo Hnhi]; [lia|].
  destruct (Z.log2_spec i) as [Hilo Hihi]; [lia|].
  assert (Hs : 1 <= s <= 105) by (unfold s; lia).
  destruct n as [|pn|pn]; try lia. destruct i as [|pi|pi]; try lia.
  cbn [Py.exact_operand SFdiv]. unfold SFdiv_core_binary.
  rewrite !Zdigits2_log2, fexp_binary64 by lia.
  replace (Z.log2 (Z.pos pn) + 1 + 0 - (Z.log2 (Z.pos pi) + 1 + 0))
    with (53 - s) by (unfold s; lia).
  replace (Z.min (Z.max (53 - s - 53) (-1074)) (0 - 0)) with (- s) by lia.
  replace (0 - 0 - - s) with s by lia.
  destruct s as [|ps|ps] eqn:Es; try lia. rewrite <- Es in *.
  rewrite Z.shiftl_mul_pow2 by lia.
  set (n := Z.pos pn) in *. set (i := Z.pos pi) in *.
  assert (Hps : 0 < 2 ^ s) by (apply Z.pow_pos_nonneg; lia).
  pose proof (Z.div_mod (n * 2 ^ s) i) as Hdm.
  pose proof (Z.mod_pos_bound (n * 2 ^ s) i) as Hmb.
  unfold Z.div, Z.modulo in Hdm, Hmb.
  destruct (Z.div_eucl (n * 2 ^ s) i) as [q0 r].
  specialize (Hdm ltac:(lia)). specialize (Hmb ltac:(lia)).
  (* the quotient has 53 or 54 bits *)
  assert (Hscale : 2 ^ (53 + Z.log2 i) <= n * 2 ^ s < 2 ^ (54 + Z.log2 i)).
  { replace (53 + Z.log2 i) with (Z.log2 n + s) by (rewrite Es; unfold s; lia).
    replace (54 + Z.log2 i) with (Z.succ (Z.log2 n) + s)
      by (rewrite Es; unfold s; lia).
    rewrite !Z.pow_add_r by lia. nia. }
  assert (Hi53 : 2 ^ (53 + Z.log2 i) = 2 ^ 52 * 2 ^ Z.succ (Z.log2 i)).
  { rewrite <- Z.pow_add_r by lia. f_equal. lia. }
  assert (Hi54 : 2 ^ (54 + Z.log2 i) = 2 ^ 54 * 2 ^ Z.log2 i).
  { rewrite <- Z.pow_add_r by lia. f_equal. }
  assert (Hq0 : 2 ^ 52 <= q0 < 2 ^ 54) by nia.
  assert (exists k, 0 <= k <= 1 /\ 2 ^ (53 + k - 1) <= q0 < 2 ^ (53 + k))
    as (k & Hk & Hqk).
  { destruct (Z.lt_ge_cases q0 (2 ^ 53)); [exists 0 | exists 1];
      (split; [lia|]); simpl; lia. }
  destruct (binary_round_aux_near q0 (- s) k (new_location i r))
    as (M & E & HR & HE & HM & HM53);
    [lia | apply digits_of_range; lia | lia | lia | lia |].
  exists M, E. cbn [xorb]. split; [exact HR|].
  split; [lia|]. split; [|exact HM53].
  (* from the leading bits back to the quotient *)
  assert (Hpk : 1 <= 2 ^ k <= 2).
  { assert (k = 0 \/ k = 1) as [->| ->] by lia; simpl; lia. }
  assert (Hfl : q0 - 2 ^ k < q0 / 2 ^ k * 2 ^ k <= q0).
  { pose proof (Z.div_mod q0 (2 ^ k) ltac:(lia)).
    pose proof (Z.mod_pos_bound q0 (2 ^ k) ltac:(lia)). lia. }
  assert (HQ : Z.pos M * 2 ^ (E + s)
               = Z.pos M * 2 ^ (E - - s - k) * 2 ^ k).
  { rewrite <- Z.mul_assoc, <- Z.pow_add_r by lia. do 2 f_equal. lia. }
  rewrite HQ.
  set (Q := Z.pos M * 2 ^ (E - - s - k)) in *.
  set (f := q0 / 2 ^ k) in *.
  assert (H1 : f * 2 ^ k <= Q * 2 ^ k)
    by (apply Z.mul_le_mono_nonneg_r; lia).
  assert (H2 : Q * 2 ^ k <= (f + 1) * 2 ^ k)
    by (apply Z.mul_le_mono_nonneg_r; lia).
  set (QP := Q * 2 ^ k) in *.
  assert (H3 : q0 - 2 < QP <= q0 + 2) by lia.
  assert (H4 : i * (q0 - 2) < i * QP) by (apply Z.mul_lt_mono_pos_l; lia).
  assert (H5 : i * QP <= i * (q0 + 2)) by (apply Z.mul_le_mono_nonneg_l; lia).
  lia.
Qed.

(** [i * (n / i)] in floats is less than one away from [n]: truncated
    it is [n] or [n - 1]. *)
Lemma product_near (n i : Z) :
  0 < n < 2 ^ 48 -> 0 < i < 2 ^ 48 ->
  exists (q p : spec_float) (t : Z),
    Py.truediv (JInt n) (JInt i) = Ok (JFloat q)
    /\ Py.mul (JInt i) (JFloat q) = Ok (JFloat p)
    /\ Py.int_of_float p = Ok t
    /\ n - 1 <= t <= n.
Proof.
  intros Hn Hi.
  assert (Hn53 : 0 < n < 2 ^ 53) by lia.
  assert (Hi53 : 0 < i < 2 ^ 53) by lia.
  destruct (SFdiv_near n i Hn53 Hi53) as (Mq & Eq & Hdiv & Hu & HQ & HMq).
  destruct (mantissa_range i Hi53) as [Hli HMi].
  assert (Hln : 0 <= Z.log2 n <= 47).
  { split; [apply Z.log2_nonneg|].
    assert (Z.log2 n < 48) by (apply Z.log2_lt_pow2; lia). lia. }
  assert (Hli' : Z.log2 i <= 47).
  { assert (Z.log2 i < 48) by (apply Z.log2_lt_pow2; lia). lia. }
  set (s := 53 + Z.log2 i - Z.log2 n) in *.
  set (u := Eq + s) in *.
  set (v := 52 - Z.log2 i) in *.
  set (Mi := i * 2 ^ v) in *.
  exists (S754_finite false Mq Eq).
  (* the product, before rounding *)
  set (m := Mi * Z.pos Mq).
  set (e := Z.log2 i - 52 + Eq).
  assert (Hm : 2 ^ 104 <= m < 2 ^ 106).
  { unfold m. split.
    - change (2 ^ 104) with (2 ^ 52 * 2 ^ 52).
      apply Z.mul_le_mono_nonneg; lia.
    - change (2 ^ 106) with (2 ^ 53 * 2 ^ 53).
      apply Z.mul_lt_mono_nonneg; lia. }
  assert (exists k, 52 <= k <= 53 /\ 2 ^ (53 + k - 1) <= m < 2 ^ (53 + k))
    as (k & Hk & Hmk).
  { destruct (Z.lt_ge_cases m (2 ^ 105)); [exists 52 | exists 53];
      (split; [lia|]); simpl; lia. }
  destruct (binary_round_aux_near m e k loc_Exact)
    as (Mp & Ep & HR & HE & HP & HMp);
    [lia | apply digits_of_range; lia | lia | unfold e, u, s in *; lia
    | unfold e, u, s in *; lia |].
  exists (S754_finite false Mp Ep), (Z.pos Mp / 2 ^ (- Ep)).
  split; [|split; [|split]].
  - unfold Py.truediv. cbn [Py.as_number mbind result_bind].
    replace (i =? 0) with false by (symmetry; apply Z.eqb_neq; lia).
    replace (n =? 0) with false by (symmetry; apply Z.eqb_neq; lia).
    by rewrite Hdiv.
  - unfold Py.mul. cbn [Py.as_number Py.to_float mbind result_bind].
    rewrite float_of_int_small by lia. cbn [mbind result_bind].
    unfold small_float. cbn [SFmul xorb].
    rewrite Pos2Z.inj_mul, Z2Pos.id by (fold v Mi; lia).
    fold v Mi m e. by rewrite HR.
  - unfold Py.int_of_float.
    replace (0 <=? Ep) with false
      by (symmetry; apply Z.leb_gt; unfold e, u, s in *; lia).
    f_equal. apply Z.quot_div_nonneg; [lia|].
    apply Z.pow_pos_nonneg; unfold e, u, s in *; lia.
  - (* the error of the quotient, scaled to the exponent of the product *)
    set (W := - e).
    assert (HW : 56 <= W) by (unfold W, e, u, s in *; lia).
    assert (Hvu : 3 <= v - u) by (unfold v, u in *; lia).
    set (D := 2 ^ (v - u)).
    assert (HD : 0 < D) by (apply Z.pow_pos_nonneg; lia).
    assert (HDv : D * 2 ^ u = 2 ^ v).
    { unfold D. rewrite <- Z.pow_add_r by lia. f_equal. lia. }
    assert (Hpu : 1 <= 2 ^ u).
    { assert (0 < 2 ^ u) by (apply Z.pow_pos_nonneg; lia). lia. }
    assert (HiD : i * D <= Mi).
    { unfold Mi. rewrite <- HDv.
      replace (i * (D * 2 ^ u)) with (i * D * 2 ^ u) by ring.
      assert (0 <= i * D) by (apply Z.mul_nonneg_nonneg; lia).
      replace (i * D) with (i * D * 1) at 1 by ring.
      apply Z.mul_le_mono_nonneg_l; lia. }
    assert (HN : n * 2 ^ W = n * 2 ^ s * D).
    { unfold D. rewrite <- Z.mul_assoc, <- Z.pow_add_r by (unfold s; lia).
      do 2 f_equal. unfold W, e, v, u. lia. }
    assert (Hmq : m = i * (Z.pos Mq * 2 ^ u) * D).
    { unfold m, Mi. rewrite <- HDv. ring. }
    set (X := i * (Z.pos Mq * 2 ^ u)) in *.
    assert (Hm1 : (n * 2 ^ s - 3 * i) * D < X * D)
      by (apply Z.mul_lt_mono_pos_r; lia).
    assert (Hm2 : X * D <= (n * 2 ^ s + 2 * i) * D)
      by (apply Z.mul_le_mono_nonneg_r; lia).
    assert (Hm3 : n * 2 ^ W - 3 * 2 ^ 53 < m < n * 2 ^ W + 2 * 2 ^ 53).
    { rewrite HN, Hmq.
      replace ((n * 2 ^ s - 3 * i) * D) with (n * 2 ^ s * D - 3 * (i * D))
        in Hm1 by ring.
      replace ((n * 2 ^ s + 2 * i) * D) with (n * 2 ^ s * D + 2 * (i * D))
        in Hm2 by ring.
      lia. }
    (* the error of rounding the product *)
    assert (Hpk : 0 < 2 ^ k <= 2 ^ 53).
    { split; [apply Z.pow_pos_nonneg; lia|].
      apply Z.pow_le_mono_r; lia. }
    set (f := m / 2 ^ k) in *.
    assert (Hfl : m - 2 ^ k < f * 2 ^ k <= m).
    { pose proof (Z.div_mod m (2 ^ k) ltac:(lia)).
      pose proof (Z.mod_pos_bound m (2 ^ k) ltac:(lia)). unfold f. lia. }
    set (Y := Z.pos Mp * 2 ^ (Ep - e - k)) in *.
    assert (HY1 : f * 2 ^ k <= Y * 2 ^ k)
      by (apply Z.mul_le_mono_nonneg_r; lia).
    assert (HY2 : Y * 2 ^ k <= (f + 1) * 2 ^ k)
      by (apply Z.mul_le_mono_nonneg_r; lia).
    assert (HYP : Y * 2 ^ k = Z.pos Mp * 2 ^ (Ep + W)).
    { unfold Y. rewrite <- Z.mul_assoc, <- Z.pow_add_r by lia.
      do 2 f_equal. unfold W. lia. }
    assert (H55 : 4 * 2 ^ 53 <= 2 ^ W).
    { change (4 * 2 ^ 53) with (2 ^ 55). apply Z.pow_le_mono_r; lia. }
    assert (Hnear : (n - 1) * 2 ^ W < Z.pos Mp * 2 ^ (Ep + W)
                    < (n + 1) * 2 ^ W).
    { rewrite <- HYP.
      replace ((f + 1) * 2 ^ k) with (f * 2 ^ k + 2 ^ k) in HY2 by ring.
      replace ((n - 1) * 2 ^ W) with (n * 2 ^ W - 2 ^ W) by ring.
      replace ((n + 1) * 2 ^ W) with (n * 2 ^ W + 2 ^ W) by ring.
      lia. }
    (* back to the exponent of the result *)
    set (g := - Ep).
    assert (Hg : 0 < g <= W) by (unfold g, W; lia).
    assert (HWg : 2 ^ W = 2 ^ g * 2 ^ (Ep + W)).
    { rewrite <- Z.pow_add_r by (unfold g in *; lia). f_equal.
      unfold g. lia. }
    set (T := 2 ^ (Ep + W)) in *.
    assert (HT : 0 < T) by (apply Z.pow_pos_nonneg; unfold g in *; lia).
    assert (Hpg : 0 < 2 ^ g) by (apply Z.pow_pos_nonneg; lia).
    rewrite HWg in Hnear.
    replace ((n - 1) * (2 ^ g * T)) with ((n - 1) * 2 ^ g * T)
      in Hnear by ring.
    replace ((n + 1) * (2 ^ g * T)) with ((n + 1) * 2 ^ g * T)
      in Hnear by ring.
    destruct Hnear as [Hlo Hhi].
    apply Z.mul_lt_mono_pos_r in Hlo; [|exact HT].
    apply Z.mul_lt_mono_pos_r in Hhi; [|exact HT].
    fold g. split.
    + apply Z.div_le_lower_bound; lia.
    + assert (Z.pos Mp / 2 ^ g < n + 1); [|lia].
      apply Z.div_lt_upper_bound; lia.
Qed.

(** ** Tiles per IPU *)

Section TilesPerIpu.
Context {record : Type}.
Variable FromString : record -> result IpuTraceEvent.t.
Variable loads : string -> result json.

(** After a decode that succeeded on a list holding a [COMPILE_END]
    event whose report gives [numIPUs = i] and [numTiles = k * i] for
    positive integers with [k * i] below 2^53,
    [get_num_tiles_per_ipu()] is the float [k] and
    [get_num_ipus() * get_num_tiles_per_ipu()] is the float
    [get_num_tiles()]: the product equals the number of tiles exactly,
    and so does its truncation. *)
Lemma tiles_product_exact_on_multiples (events : list record) (e : record)
    (evt : IpuTraceEvent.t) (report : json) (assert_len : option Z)
    (msg : string) (self self' : ReportJSON.t) (h : gmap EventType nat)
    (k i : Z) :
  ReportJSON.parse_events FromString loads events assert_len msg self
  = (self', Ok h) ->
  In e events ->
  FromString e = Ok evt ->
  IpuTraceEvent.type evt = COMPILE_END ->
  nonempty (IpuTraceEvent.compilation_report (IpuTraceEvent.compile_end evt))
  = true ->
  loads (IpuTraceEvent.compilation_report (IpuTraceEvent.compile_end evt))
  = Ok report ->
  ReportJSON.path report ["target"; "numIPUs"] = Ok (JInt i) ->
  ReportJSON.path report ["target"; "numTiles"] = Ok (JInt (k * i)) ->
  0 < i -> 0 < k -> k * i < 2 ^ 53 ->
  ReportJSON.get_num_tiles self' = Ok (JInt (k * i))
  /\ ReportJSON.get_num_ipus self' = Ok (JInt i)
  /\ ReportJSON.get_num_tiles_per_ipu self'
     = (f ← Py.float_of_int k; Ok (JFloat f))
  /\ tiles_product self' = (f ← Py.float_of_int (k * i); Ok (JFloat f))
  /\ (p ← tiles_product self'; Py.int p) = Ok (k * i).
Proof.
  intros Hparse Hin He Ht Hne Hl Hi Hn Hipos Hkpos Hsmall.
  assert (Hev : ReportJSON.events self' !! COMPILE_END = Some report).
  { rewrite parse_events_eq in Hparse.
    destruct (count_passes _ _); [|discriminate].
    by eapply (parse_loop_records_compile_end FromString loads). }
  assert (Hk53 : 0 < k < 2 ^ 53) by nia.
  assert (Hi53 : 0 < i < 2 ^ 53) by nia.
  assert (Hn53 : 0 < k * i < 2 ^ 53) by nia.
  assert (Htiles : ReportJSON.get_num_tiles self' = Ok (JInt (k * i))).
  { unfold ReportJSON.get_num_tiles, ReportJSON.event. by rewrite Hev. }
  assert (Hipus : ReportJSON.get_num_ipus self' = Ok (JInt i)).
  { unfold ReportJSON.get_num_ipus, ReportJSON.event. by rewrite Hev. }
  assert (Hper : ReportJSON.get_num_tiles_per_ipu self'
                 = Ok (JFloat (small_float k))).
  { unfold ReportJSON.get_num_tiles_per_ipu. rewrite Htiles, Hipus.
    cbn [mbind result_bind]. unfold Py.truediv.
    cbn [Py.as_number mbind result_bind].
    replace (i =? 0) with false by (symmetry; apply Z.eqb_neq; lia).
    replace (k * i =? 0) with false by (symmetry; apply Z.eqb_neq; lia).
    by rewrite SFdiv_exact. }
  assert (Hprod : tiles_product self' = Ok (JFloat (small_float (k * i)))).
  { unfold tiles_product. rewrite Hipus, Hper.
    cbn [mbind result_bind]. unfold Py.mul.
    cbn [Py.as_number Py.to_float mbind result_bind].
    rewrite float_of_int_small by lia. cbn [mbind result_bind].
    by rewrite SFmul_exact. }
  rewrite !float_of_int_small by lia.
  repeat split; try assumption.
  rewrite Hprod. cbn [mbind result_bind Py.int Py.as_number].
  by apply int_of_small_float.
Qed.

(** C5, as amended: after a decode that succeeded on a list holding a
    [COMPILE_END] event whose report gives [numIPUs = i] and
    [numTiles = n], both positive and below 2^48, the float
    [get_num_ipus() * get_num_tiles_per_ipu()] is less than one away
    from [get_num_tiles()]: truncated to an integer it is [n] or
    [n - 1].  When [n] is a multiple of [i] (tiles per IPU
    integer-valued) nothing is rounded: [get_num_tiles_per_ipu()] is the
    float [n / i], the product is the float [n] and its truncation is
    [n]. *)
Theorem tiles_product_up_to_truncation (events : list record) (e : record)
    (evt : IpuTraceEvent.t) (report : json) (assert_len : option Z)
    (msg : string) (self self' : ReportJSON.t) (h : gmap EventType nat)
    (n i : Z) :
  ReportJSON.parse_events FromString loads events assert_len msg self
  = (self', Ok h) ->
  In e events ->
  FromString e = Ok evt ->
  IpuTraceEvent.type evt = COMPILE_END ->
  nonempty (IpuTraceEvent.compilation_report (IpuTraceEvent.compile_end evt))
  = true ->
  loads (IpuTraceEvent.compilation_report (IpuTraceEvent.compile_end evt))
  = Ok report ->
  ReportJSON.path report ["target"; "numIPUs"] = Ok (JInt i) ->
  ReportJSON.path report ["target"; "numTiles"] = Ok (JInt n) ->
  0 < i < 2 ^ 48 -> 0 < n < 2 ^ 48 ->
  ReportJSON.get_num_tiles self' = Ok (JInt n)
  /\ exists (p : spec_float) (t : Z),
       tiles_product self' = Ok (JFloat p)
       /\ Py.int (JFloat p) = Ok t
       /\ n - 1 <= t <= n
       /\ (n mod i = 0 ->
           ReportJSON.get_num_tiles_per_ipu self'
           = (f ← Py.float_of_int (n / i); Ok (JFloat f))
           /\ Py.float_of_int n = Ok p
           /\ t = n).
Proof.
  intros Hparse Hin He Ht Hne Hl Hi Hn Hipos Hnpos.
  assert (Hev : ReportJSON.events self' !! COMPILE_END = Some report).
  { pose proof Hparse as Hloop. rewrite parse_events_eq in Hloop.
    destruct (count_passes _ _); [|discriminate].
    by eapply (parse_loop_records_compile_end FromString loads). }
  assert (Htiles : ReportJSON.get_num_tiles self' = Ok (JInt n)).
  { unfold ReportJSON.get_num_tiles, ReportJSON.event. by rewrite Hev. }
  assert (Hipus : ReportJSON.get_num_ipus self' = Ok (JInt i)).
  { unfold ReportJSON.get_num_ipus, ReportJSON.event. by rewrite Hev. }
  split; [exact Htiles|].
  destruct (product_near n i Hnpos Hipos)
    as (q & p & t & Hq & Hp & Hint & Hnear).
  assert (Hprod : tiles_product self' = Ok (JFloat p)).
  { unfold tiles_product, ReportJSON.get_num_tiles_per_ipu.
    rewrite Hipus, Htiles. cbn [mbind result_bind].
    rewrite Hq. cbn [mbind result_bind]. exact Hp. }
  exists p, t. split; [exact Hprod|]. split; [exact Hint|].
  split; [exact Hnear|].
  intros Hmod.
  assert (Hk : n = n / i * i).
  { rewrite Z.mul_comm. apply Z.div_exact; lia. }
  assert (Hkpos : 0 < n / i).
  { apply Z.div_str_pos. split; [lia|].
    apply Z.divide_pos_le; [lia|]. apply Z.mod_divide; lia. }
  rewrite Hk in Hn.
  destruct (tiles_product_exact_on_multiples events e evt report assert_len
              msg self self' h (n / i) i)
    as (_ & _ & Hper & Hexact & Htrunc); try assumption; try lia.
  rewrite <- Hk in Hexact, Htrunc.
  split; [exact Hper|].
  rewrite float_of_int_small in Hexact |- * by lia.
  cbn [mbind result_bind] in Hexact. rewrite Hprod in Hexact, Htrunc.
  injection Hexact as ->.
  cbn [Py.int Py.as_number mbind result_bind] in Htrunc.
  split; [reflexivity|]. congruence.
Qed.

End TilesPerIpu.

Lemma tiles_product_up_to_truncation_witness :
  ReportJSON.get_num_tiles
    (fst (ReportJSON.parse_events stored sample_loads
            [compile_end_event uneven_report_text] None "" blank))
  = Ok (JInt 61)
  /\ exists (p : spec_float) (t : Z),
       tiles_product
         (fst (ReportJSON.parse_events stored sample_loads
                 [compile_end_event uneven_report_text] None "" blank))
       = Ok (JFloat p)
       /\ Py.int (JFloat p) = Ok t
       /\ 61 - 1 <= t <= 61
       /\ (61 mod 7 = 0 ->
           ReportJSON.get_num_tiles_per_ipu
             (fst (ReportJSON.parse_events stored sample_loads
                     [compile_end_event uneven_report_text] None "" blank))
           = (f ← Py.float_of_int (61 / 7); Ok (JFloat f))
           /\ Py.float_of_int 61 = Ok p
           /\ t = 61).
Proof.
  refine (tiles_product_up_to_truncation stored sample_loads
            [compile_end_event uneven_report_text]
            (compile_end_event uneven_report_text)
            (compile_end_event uneven_report_text) uneven_report_value
            None "" blank
            (fst (ReportJSON.parse_events stored sample_loads
                    [compile_end_event uneven_report_text] None "" blank))
            {[COMPILE_END := 1%nat]} 61 7 _ _ _ _ _ _ _ _ _ _);
    try (vm_compute; reflexivity); try lia.
  by left.
Defined.

(** On the sample report, with 4 tiles on 2 IPUs, the product is exact. *)
Example even_tiles_product :
  (p ← tiles_product
         (fst (ReportJSON.parse_events stored sample_loads
                 [compile_end_event report_text] None "" blank));
   Py.int p)
  = Ok 4.
Proof. vm_compute. reflexivity. Qed.

(** C5, as the spec states it, fails when the tiles are not a multiple
    of the IPUs: for 61 tiles on 7 IPUs the decode succeeds,
    [get_num_tiles()] is 61, and [get_num_ipus() *
    get_num_tiles_per_ipu()] is the float 60.99999999999999, which
    truncates to 60. *)
Lemma uneven_tiles_product_truncates :
  snd (ReportJSON.parse_events stored sample_loads
         [compile_end_event uneven_report_text] None "" blank)
  = Ok {[COMPILE_END := 1%nat]}
  /\ ReportJSON.get_num_tiles
       (fst (ReportJSON.parse_events stored sample_loads
               [compile_end_event uneven_report_text] None "" blank))
     = Ok (JInt 61)
  /\ ReportJSON.get_num_ipus
       (fst (ReportJSON.parse_events stored sample_loads
               [compile_end_event uneven_report_text] None "" blank))
     = Ok (JInt 7)
  /\ tiles_product
       (fst (ReportJSON.parse_events stored sample_loads
               [compile_end_event uneven_report_text] None "" blank))
     = Ok (JFloat (S754_finite false 8584986789675007 (-47)))
  /\ (p ← tiles_product
            (fst (ReportJSON.parse_events stored sample_loads
                    [compile_end_event uneven_report_text] None "" blank));
      Py.int p)
     = Ok 60.
Proof. repeat split; vm_compute; reflexivity. Qed.

(** ** IPU ids as integer quotients *)

Lemma new_location_scale (b r j : Z) :
  0 < b -> 0 <= r < b -> 0 <= j ->
  new_location (b * 2 ^ j) (r * 2 ^ j) = new_location b r.
Proof.
  intros Hb Hr Hj.
  destruct (Z.eq_dec j 0) as [->|Hj0]; [by rewrite Z.pow_0_r, !Z.mul_1_r|].
  assert (Hc : 0 < 2 ^ j) by (apply Z.pow_pos_nonneg; lia).
  assert (He : Z.even (2 ^ j) = true).
  { replace j with (Z.succ (j - 1)) by lia. rewrite Z.pow_succ_r by lia.
    by rewrite Z.even_mul. }
  unfold new_location. rewrite Z.even_mul, He, orb_true_r.
  assert (Hz : (r * 2 ^ j =? 0) = (r =? 0)).
  { destruct (Z.eqb_spec r 0) as [->|Hr0]; [reflexivity|].
    apply Z.eqb_neq. nia. }
  assert (Hcmp : (2 * (r * 2 ^ j) ?= b * 2 ^ j) = (2 * r ?= b)).
  { replace (2 * (r * 2 ^ j)) with (2 * r * 2 ^ j) by ring.
    symmetry. apply Zmult_compare_compat_r. lia. }
  destruct (Z.even b) eqn:Eb; unfold new_location_even, new_location_odd;
    rewrite Hz, Hcmp; [reflexivity|].
  destruct (r =? 0); [reflexivity|]. f_equal.
  assert (Hodd : Z.odd b = true) by (by rewrite <- Z.negb_even, Eb).
  apply Z.odd_spec in Hodd as [h Hh].
  destruct (Z.compare_spec (2 * r) b), (Z.compare_spec (2 * r + 1) b);
    try reflexivity; lia.
Qed.

(** Dividing two small floats divides the integers they stand for. *)
Lemma SFdiv_small_floats (a b : Z) :
  0 < a < 2 ^ 53 -> 0 < b < 2 ^ 53 ->
  SFdiv Py.prec Py.emax (small_float a) (small_float b)
  = SFdiv Py.prec Py.emax (Py.exact_operand a) (Py.exact_operand b).
Proof.
  intros Ha Hb.
  destruct (mantissa_range a Ha) as [Hla Hma].
  destruct (mantissa_range b Hb) as [Hlb Hmb].
  set (la := Z.log2 a) in *. set (lb := Z.log2 b) in *.
  assert (Hsl : small_float a
                = S754_finite false (Z.to_pos (a * 2 ^ (52 - la))) (la - 52))
    by reflexivity.
  assert (Hsr : small_float b
                = S754_finite false (Z.to_pos (b * 2 ^ (52 - lb))) (lb - 52))
    by reflexivity.
  rewrite Hsl, Hsr.
  assert (Hea : Py.exact_operand a = S754_finite false (Z.to_pos a) 0)
    by (destruct a; try lia; reflexivity).
  assert (Heb : Py.exact_operand b = S754_finite false (Z.to_pos b) 0)
    by (destruct b; try lia; reflexivity).
  rewrite Hea, Heb. cbn [SFdiv xorb]. rewrite !Z2Pos.id by lia.
  assert (Hcore : SFdiv_core_binary Py.prec Py.emax
                    (a * 2 ^ (52 - la)) (la - 52) (b * 2 ^ (52 - lb)) (lb - 52)
                  = SFdiv_core_binary Py.prec Py.emax a 0 b 0);
    [|by rewrite Hcore].
  unfold SFdiv_core_binary.
  rewrite (digits_of_range (a * 2 ^ (52 - la)) 53) by lia.
  rewrite (digits_of_range (b * 2 ^ (52 - lb)) 53) by lia.
  rewrite !Zdigits2_log2, !fexp_binary64 by lia. fold la lb.
  set (s := 53 - la + lb).
  replace (Z.min (Z.max (53 + (la - 52) - (53 + (lb - 52)) - 53) (-1074))
             (la - 52 - (lb - 52))) with (- s) by (unfold s; lia).
  replace (Z.min (Z.max (la + 1 + 0 - (lb + 1 + 0) - 53) (-1074)) (0 - 0))
    with (- s) by (unfold s; lia).
  replace (la - 52 - (lb - 52) - - s) with 53 by (unfold s; lia).
  replace (0 - 0 - - s) with s by lia.
  assert (Hs : 1 <= s) by (unfold s; lia).
  destruct s as [|ps|ps] eqn:Es; try lia. rewrite <- Es.
  rewrite !Z.shiftl_mul_pow2 by lia.
  set (c := 2 ^ (52 - lb)).
  assert (Hc : 0 < c) by (apply Z.pow_pos_nonneg; lia).
  assert (Hnum : a * 2 ^ (52 - la) * 2 ^ 53 = a * 2 ^ s * c).
  { unfold c. rewrite <- !Z.mul_assoc, <- !Z.pow_add_r by lia.
    do 2 f_equal. lia. }
  rewrite Hnum.
  pose proof (Z.div_mod (a * 2 ^ s) b ltac:(lia)) as Hdm.
  pose proof (Z.mod_pos_bound (a * 2 ^ s) b ltac:(lia)) as Hmb'.
  pose proof (Z.div_mul_cancel_r (a * 2 ^ s) b c ltac:(lia) ltac:(lia)) as Hq.
  pose proof (Z.mul_mod_distr_r (a * 2 ^ s) b c ltac:(lia) ltac:(lia)) as Hr.
  unfold Z.div, Z.modulo in Hdm, Hmb', Hq, Hr.
  destruct (Z.div_eucl (a * 2 ^ s * c) (b * c)) as [q' r'].
  destruct (Z.div_eucl (a * 2 ^ s) b) as [q r].
  subst q' r'. f_equal. unfold c. apply new_location_scale; lia.
Qed.

(** The float quotient of two integers, truncated, is their integer
    quotient: the rounding of the division cannot reach the next
    integer. *)
Lemma int_of_quotient (t k : Z) :
  0 < t < 2 ^ 50 -> 0 < k < 2 ^ 53 ->
  exists (M : positive) (E : Z),
    SFdiv Py.prec Py.emax (Py.exact_operand t) (Py.exact_operand k)
    = S754_finite false M E
    /\ Py.int_of_float (S754_finite false M E) = Ok (t / k).
Proof.
  intros Ht Hk.
  pose proof (Z.div_mod t k ltac:(lia)) as Hdm.
  pose proof (Z.mod_pos_bound t k ltac:(lia)) as Hmb.
  set (q := t / k) in *. set (r := t mod k) in *.
  destruct (Z.eq_dec r 0) as [Hr|Hr].
  - (* an exact quotient *)
    assert (Hq : 0 < q) by nia.
    assert (Et : t = q * k) by lia.
    assert (Hq53 : 0 < q < 2 ^ 53) by nia.
    eexists _, _. split.
    + rewrite Et. apply SFdiv_exact; lia.
    + by apply int_of_small_float.
  - assert (Ht53 : 0 < t < 2 ^ 53) by lia.
    destruct (SFdiv_near t k Ht53 Hk) as (M & E & Hdiv & Hu & HQ & HM).
    destruct (mantissa_range t Ht53) as [Hlt _].
    destruct (mantissa_range k Hk) as [Hlk _].
    assert (Hlt' : Z.log2 t < 50) by (apply Z.log2_lt_pow2; lia).
    destruct (Z.log2_spec k) as [Hklo Hkhi]; [lia|].
    set (s := 53 + Z.log2 k - Z.log2 t) in *.
    set (u := E + s) in *.
    exists M, E. split; [exact Hdiv|].
    unfold Py.int_of_float.
    replace (0 <=? E) with false by (symmetry; apply Z.leb_gt; lia).
    f_equal. rewrite Z.quot_div_nonneg
      by (try apply Z.pow_pos_nonneg; lia).
    set (g := - E).
    assert (Hg : 0 < g) by (unfold g; lia).
    assert (Hpg : 0 < 2 ^ g) by (apply Z.pow_pos_nonneg; lia).
    assert (Hpu : 0 < 2 ^ u) by (apply Z.pow_pos_nonneg; lia).
    assert (Hps : 2 ^ s = 2 ^ g * 2 ^ u).
    { rewrite <- Z.pow_add_r by lia. f_equal. unfold g, u. lia. }
    assert (H8 : 8 * k < 2 ^ s).
    { assert (H16 : 2 ^ (4 + Z.log2 k) <= 2 ^ s)
        by (apply Z.pow_le_mono_r; unfold s; lia).
      rewrite Z.pow_add_r in H16 by lia.
      rewrite Z.pow_succ_r in Hkhi by lia.
      change (2 ^ 4) with 16 in H16. lia. }
    set (W := Z.pos M * 2 ^ u) in *.
    assert (Hlo : q * 2 ^ s <= W).
    { assert (k * (q * 2 ^ s) < k * W + 1); [|nia].
      replace (k * (q * 2 ^ s)) with (k * q * 2 ^ s) by ring.
      assert (k * q * 2 ^ s + 2 ^ s <= t * 2 ^ s); [|lia].
      replace (k * q * 2 ^ s + 2 ^ s) with ((k * q + 1) * 2 ^ s) by ring.
      apply Z.mul_le_mono_nonneg_r; lia. }
    assert (Hhi : W < (q + 1) * 2 ^ s).
    { assert (k * W < k * ((q + 1) * 2 ^ s)); [|nia].
      assert (t * 2 ^ s + 2 ^ s <= k * ((q + 1) * 2 ^ s)); [|lia].
      replace (t * 2 ^ s + 2 ^ s) with ((t + 1) * 2 ^ s) by ring.
      replace (k * ((q + 1) * 2 ^ s)) with (k * (q + 1) * 2 ^ s) by ring.
      apply Z.mul_le_mono_nonneg_r; lia. }
    unfold W in Hlo, Hhi. rewrite Hps in Hlo, Hhi.
    replace (q * (2 ^ g * 2 ^ u)) with (q * 2 ^ g * 2 ^ u) in Hlo by ring.
    replace ((q + 1) * (2 ^ g * 2 ^ u)) with ((q + 1) * 2 ^ g * 2 ^ u)
      in Hhi by ring.
    apply Z.mul_le_mono_pos_r in Hlo; [|exact Hpu].
    apply Z.mul_lt_mono_pos_r in Hhi; [|exact Hpu].
    symmetry. apply Z.div_unique with (Z.pos M - q * 2 ^ g); lia.
Qed.

(** With a whole number [k] of tiles per IPU, as an integer or as the
    float the division of the report gives, the IPU of a tile is the
    integer quotient of the tile id by [k]. *)
Lemma ipu_of_tile_whole (self : TensorMap.t) (k t : Z) :
  0 < k < 2 ^ 53 -> 0 <= t < 2 ^ 50 ->
  TensorMap.num_tiles_per_ipu self = JInt k
  \/ TensorMap.num_tiles_per_ipu self = JFloat (small_float k) ->
  TensorMap.ipu_of_tile self t = Ok (t / k).
Proof.
  intros Hk Ht Hper. unfold TensorMap.ipu_of_tile, Py.truediv.
  destruct (Z.eq_dec t 0) as [->|Ht0].
  - rewrite Z.div_0_l by lia.
    destruct Hper as [-> | ->]; cbn [Py.as_number mbind result_bind].
    + replace (k =? 0) with false by (symmetry; apply Z.eqb_neq; lia).
      reflexivity.
    + reflexivity.
  - destruct (int_of_quotient t k ltac:(lia) Hk) as (M & E & Hdiv & Hint).
    destruct Hper as [-> | ->]; cbn [Py.as_number mbind result_bind].
    + replace (k =? 0) with false by (symmetry; apply Z.eqb_neq; lia).
      replace (t =? 0) with false by (symmetry; apply Z.eqb_neq; lia).
      rewrite Hdiv. exact Hint.
    + cbn [Py.to_float]. rewrite float_of_int_small by lia.
      cbn [mbind result_bind]. unfold small_float at 2.
      change (S754_finite false (Z.to_pos (k * 2 ^ (52 - Z.log2 k)))
                (Z.log2 k - 52)) with (small_float k).
      rewrite SFdiv_small_floats, Hdiv by lia. exact Hint.
Qed.

(** The quotient of two positive floats, away from the ends of the
    exponent range: as for integers, with the exponents of the operands
    carried over to the result. *)
Lemma SFdiv_near_finite (m1 m2 : positive) (e1 e2 : Z) :
  Z.pos m1 < 2 ^ 53 -> Z.pos m2 < 2 ^ 53 -> -900 <= e1 - e2 <= 900 ->
  let s := 53 + Z.log2 (Z.pos m2) - Z.log2 (Z.pos m1) in
  exists (M : positive) (E : Z),
    SFdiv Py.prec Py.emax (S754_finite false m1 e1) (S754_finite false m2 e2)
    = S754_finite false M E
    /\ 0 <= E - (e1 - e2) + s <= 2
    /\ Z.pos m1 * 2 ^ s - 3 * Z.pos m2
       < Z.pos m2 * (Z.pos M * 2 ^ (E - (e1 - e2) + s))
       <= Z.pos m1 * 2 ^ s + 2 * Z.pos m2
    /\ 2 ^ 52 <= Z.pos M < 2 ^ 53.
Proof.
  intros Hn Hi Hd s.
  set (n := Z.pos m1) in *. set (i := Z.pos m2) in *.
  destruct (mantissa_range n ltac:(unfold n; lia)) as [Hln _].
  destruct (mantissa_range i ltac:(unfold i; lia)) as [Hli _].
  destruct (Z.log2_spec n) as [Hnlo Hnhi]; [unfold n; lia|].
  destruct (Z.log2_spec i) as [Hilo Hihi]; [unfold i; lia|].
  assert (Hs : 1 <= s <= 105) by (unfold s; lia).
  assert (Hn0 : 0 < n) by (unfold n; lia).
  assert (Hi0 : 0 < i) by (unfold i; lia).
  set (d := e1 - e2) in *.
  cbn [SFdiv]. unfold SFdiv_core_binary. fold n i.
  rewrite !Zdigits2_log2, fexp_binary64 by lia.
  replace (Z.log2 n + 1 + e1 - (Z.log2 i + 1 + e2))
    with (d + 53 - s) by (unfold s, d; lia).
  fold d.
  replace (Z.min (Z.max (d + 53 - s - 53) (-1074)) d) with (d - s) by lia.
  replace (d - (d - s)) with s by lia.
  destruct s as [|ps|ps] eqn:Es; try lia. rewrite <- Es in *.
  rewrite Z.shiftl_mul_pow2 by lia.
  assert (Hps : 0 < 2 ^ s) by (apply Z.pow_pos_nonneg; lia).
  pose proof (Z.div_mod (n * 2 ^ s) i) as Hdm.
  pose proof (Z.mod_pos_bound (n * 2 ^ s) i) as Hmb.
  unfold Z.div, Z.modulo in Hdm, Hmb.
  destruct (Z.div_eucl (n * 2 ^ s) i) as [q0 r].
  specialize (Hdm ltac:(lia)). specialize (Hmb ltac:(lia)).
  assert (Hscale : 2 ^ (53 + Z.log2 i) <= n * 2 ^ s < 2 ^ (54 + Z.log2 i)).
  { replace (53 + Z.log2 i) with (Z.log2 n + s) by (rewrite Es; unfold s; lia).
    replace (54 + Z.log2 i) with (Z.succ (Z.log2 n) + s)
      by (rewrite Es; unfold s; lia).
    rewrite !Z.pow_add_r by lia. nia. }
  assert (Hi53 : 2 ^ (53 + Z.log2 i) = 2 ^ 52 * 2 ^ Z.succ (Z.log2 i)).
  { rewrite <- Z.pow_add_r by lia. f_equal. lia. }
  assert (Hi54 : 2 ^ (54 + Z.log2 i) = 2 ^ 54 * 2 ^ Z.log2 i).
  { rewrite <- Z.pow_add_r by lia. f_equal. }
  assert (Hq0 : 2 ^ 52 <= q0 < 2 ^ 54) by nia.
  assert (exists k, 0 <= k <= 1 /\ 2 ^ (53 + k - 1) <= q0 < 2 ^ (53 + k))
    as (k & Hk & Hqk).
  { destruct (Z.lt_ge_cases q0 (2 ^ 53)); [exists 0 | exists 1];
      (split; [lia|]); simpl; lia. }
  destruct (binary_round_aux_near q0 (d - s) k (new_location i r))
    as (M & E & HR & HE & HM & HM53);
    [lia | apply digits_of_range; lia | lia | lia | lia |].
  exists M, E. cbn [xorb]. split; [exact HR|].
  split; [lia|]. split; [|exact HM53].
  assert (Hpk : 1 <= 2 ^ k <= 2).
  { assert (k = 0 \/ k = 1) as [->| ->] by lia; simpl; lia. }
  assert (Hfl : q0 - 2 ^ k < q0 / 2 ^ k * 2 ^ k <= q0).
  { pose proof (Z.div_mod q0 (2 ^ k) ltac:(lia)).
    pose proof (Z.mod_pos_bound q0 (2 ^ k) ltac:(lia)). lia. }
  assert (HQ : Z.pos M * 2 ^ (E - d + s)
               = Z.pos M * 2 ^ (E - (d - s) - k) * 2 ^ k).
  { rewrite <- Z.mul_assoc, <- Z.pow_add_r by lia. do 2 f_equal. lia. }
  rewrite HQ.
  set (Q := Z.pos M * 2 ^ (E - (d - s) - k)) in *.
  set (f := q0 / 2 ^ k) in *.
  assert (H1 : f * 2 ^ k <= Q * 2 ^ k)
    by (apply Z.mul_le_mono_nonneg_r; lia).
  assert (H2 : Q * 2 ^ k <= (f + 1) * 2 ^ k)
    by (apply Z.mul_le_mono_nonneg_r; lia).
  set (QP := Q * 2 ^ k) in *.
  assert (H3 : q0 - 2 < QP <= q0 + 2) by lia.
  assert (H4 : i * (q0 - 2) < i * QP) by (apply Z.mul_lt_mono_pos_l; lia).
  assert (H5 : i * QP <= i * (q0 + 2)) by (apply Z.mul_le_mono_nonneg_l; lia).
  lia.
Qed.

(** Two nested error bounds, in integers: [P] is within three units of
    [n * A], [P * G] within three times [P] of [T * B * A], and the
    scales [A] and [B] are large; then [G / B] lies between any two
    integers that [T / n] lies strictly between. *)
Lemma quotient_bounds (A B P G T n i L U : Z) :
  0 < n -> 0 < i -> 0 <= L < U ->
  n * A - 3 * i < P <= n * A + 2 * i ->
  T * B * A - 3 * P < P * G <= T * B * A + 2 * P ->
  n * L + 1 <= T -> T + 1 <= n * U ->
  8 * n <= B -> 8 * i * U <= A ->
  L * B <= G < U * B.
Proof.
  intros Hn Hi HL HP HG HLT HTU HB HA.
  assert (HA0 : 0 < A) by nia.
  assert (HB0 : 0 < B) by lia.
  assert (HBA : 0 < B * A) by (apply Z.mul_pos_pos; lia).
  assert (H8i : 8 * i <= A) by nia.
  assert (HnA : 8 * i <= n * A) by nia.
  assert (HP0 : 0 < P) by lia.
  assert (HnAB : 8 * (n * A) <= B * A)
    by (replace (8 * (n * A)) with (8 * n * A) by ring;
        apply Z.mul_le_mono_nonneg_r; lia).
  assert (HiUB : 8 * (i * U * B) <= A * B)
    by (replace (8 * (i * U * B)) with (8 * i * U * B) by ring;
        apply Z.mul_le_mono_nonneg_r; lia).
  assert (HiLB : i * L * B <= i * U * B).
  { apply Z.mul_le_mono_nonneg_r; [lia|].
    apply Z.mul_le_mono_nonneg_l; lia. }
  assert (HTlo : (n * L + 1) * (B * A) <= T * (B * A))
    by (apply Z.mul_le_mono_nonneg_r; lia).
  assert (HThi : T * (B * A) <= (n * U - 1) * (B * A))
    by (apply Z.mul_le_mono_nonneg_r; lia).
  split.
  - destruct (Z.le_gt_cases (L * B) G) as [H|H]; [exact H | exfalso].
    assert (H1 : P * G <= P * (L * B - 1))
      by (apply Z.mul_le_mono_nonneg_l; lia).
    assert (HLB : 0 <= L * B + 2) by nia.
    assert (H2 : P * (L * B + 2) <= (n * A + 2 * i) * (L * B + 2))
      by (apply Z.mul_le_mono_nonneg_r; lia).
    assert (H16 : 16 * i <= A * B) by nia.
    nia.
  - destruct (Z.lt_ge_cases G (U * B)) as [H|H]; [exact H | exfalso].
    assert (H1 : P * (U * B) <= P * G)
      by (apply Z.mul_le_mono_nonneg_l; lia).
    assert (HUB : 0 <= U * B - 2) by nia.
    assert (H2 : (n * A - 3 * i) * (U * B - 2) <= P * (U * B - 2))
      by (apply Z.mul_le_mono_nonneg_r; lia).
    nia.
Qed.

(** The scales of the two divisions are large next to the numbers of
    tiles and of IPUs. *)
Lemma fraction_scales (n i m ln li z A : Z) :
  0 < n -> 0 < i -> 0 <= ln -> 0 <= li -> 0 <= m ->
  2 ^ ln <= n < 2 * 2 ^ ln -> 2 ^ li <= i < 2 * 2 ^ li ->
  (m + 1) * n <= 2 ^ 49 -> 6 + ln <= z ->
  A * 2 ^ ln = 2 ^ 53 * 2 ^ li ->
  8 * n <= 2 ^ z /\ 8 * i * (m + 1) <= A.
Proof.
  intros Hn Hi Hln Hli Hm Hnl Hil Hmn Hz HA. split.
  - assert (H6 : 2 ^ (6 + ln) <= 2 ^ z) by (apply Z.pow_le_mono_r; lia).
    rewrite Z.pow_add_r in H6 by lia. change (2 ^ 6) with 64 in H6. lia.
  - assert (Hp : 0 < 2 ^ ln) by (apply Z.pow_pos_nonneg; lia).
    apply (Z.mul_le_mono_pos_r _ _ (2 ^ ln)); [exact Hp|].
    rewrite HA.
    assert (H1 : 8 * i * (m + 1) * 2 ^ ln <= 8 * i * (m + 1) * n)
      by (apply Z.mul_le_mono_nonneg_l; [|lia];
          repeat apply Z.mul_nonneg_nonneg; lia).
    assert (H3 : 8 * i * ((m + 1) * n) <= 8 * i * 2 ^ 49)
      by (apply Z.mul_le_mono_nonneg_l; lia).
    replace (8 * i * (m + 1) * n) with (8 * i * ((m + 1) * n)) in H1 by ring.
    assert (H4 : 8 * i * 2 ^ 49 < 2 ^ 53 * 2 ^ li).
    { change (2 ^ 53) with (8 * 2 * 2 ^ 49).
      replace (8 * 2 * 2 ^ 49 * 2 ^ li) with (8 * (2 * 2 ^ li) * 2 ^ 49)
        by ring.
      apply Z.mul_lt_mono_pos_r; [reflexivity | lia]. }
    lia.
Qed.

(** With [num_tiles] tiles on [num_ipus] IPUs, all below 2^24, the IPU
    of a tile is the integer quotient of [tile * num_ipus] by [num_tiles];
    only when that division leaves no remainder may the two roundings
    give one less. *)
Lemma ipu_of_tile_fraction (self : TensorMap.t) (num_tiles num_ipus t : Z) :
  0 < num_tiles < 2 ^ 24 -> 0 < num_ipus < 2 ^ 24 -> 0 <= t < 2 ^ 24 ->
  Py.truediv (JInt num_tiles) (JInt num_ipus)
  = Ok (TensorMap.num_tiles_per_ipu self) ->
  exists x : Z,
    TensorMap.ipu_of_tile self t = Ok x
    /\ (x = t * num_ipus / num_tiles
        \/ ((t * num_ipus) mod num_tiles = 0
            /\ x = t * num_ipus / num_tiles - 1)).
Proof.
  intros Hn Hi Ht Hper.
  set (n := num_tiles) in *. set (i := num_ipus) in *.
  assert (Hn53 : 0 < n < 2 ^ 53) by lia.
  assert (Hi53 : 0 < i < 2 ^ 53) by lia.
  destruct (SFdiv_near n i Hn53 Hi53) as (Mf & Ef & Hdiv & Hu & HF & HMf).
  unfold Py.truediv in Hper. cbn [Py.as_number mbind result_bind] in Hper.
  replace (i =? 0) with false in Hper by (symmetry; apply Z.eqb_neq; lia).
  replace (n =? 0) with false in Hper by (symmetry; apply Z.eqb_neq; lia).
  rewrite Hdiv in Hper. injection Hper as Hper.
  unfold TensorMap.ipu_of_tile, Py.truediv. rewrite <- Hper.
  cbn [Py.as_number Py.to_float mbind result_bind].
  destruct (Z.eq_dec t 0) as [->|Ht0].
  { exists 0. split; [reflexivity|]. left.
    by rewrite Z.mul_0_l, Z.div_0_l by lia. }
  rewrite float_of_int_small by lia. cbn [mbind result_bind].
  assert (Ht53 : 0 < t < 2 ^ 53) by lia.
  destruct (mantissa_range t Ht53) as [Hlt HMt].
  destruct (mantissa_range n Hn53) as [Hln _].
  destruct (mantissa_range i Hi53) as [Hli _].
  assert (Hlt' : Z.log2 t < 24) by (apply Z.log2_lt_pow2; lia).
  assert (Hli' : Z.log2 i < 24) by (apply Z.log2_lt_pow2; lia).
  assert (Hln' : Z.log2 n < 24) by (apply Z.log2_lt_pow2; lia).
  destruct (Z.log2_spec n) as [Hnlo Hnhi]; [lia|].
  destruct (Z.log2_spec i) as [Hilo Hihi]; [lia|].
  rewrite Z.pow_succ_r in Hnhi, Hihi by lia.
  set (lt := Z.log2 t) in *. set (ln := Z.log2 n) in *.
  set (li := Z.log2 i) in *.
  set (s1 := 53 + li - ln) in *. set (u := Ef + s1) in *.
  unfold small_float. fold lt.
  set (Mt := t * 2 ^ (52 - lt)) in *.
  destruct (SFdiv_near_finite (Z.to_pos Mt) Mf (lt - 52) Ef)
    as (Mv & Ev & Hdiv2 & Hw & HG & HMv);
    [rewrite Z2Pos.id by lia; lia | lia | unfold u, s1 in *; lia |].
  rewrite Z2Pos.id in HG, Hw by lia.
  rewrite (Z.log2_unique (Z.pos Mf) 52) in HG, Hw by (simpl; lia).
  rewrite (Z.log2_unique Mt 52) in HG, Hw by (simpl; lia).
  replace (53 + 52 - 52) with 53 in HG, Hw by lia.
  rewrite Hdiv2. cbn [Py.int Py.as_number mbind result_bind].
  set (w := Ev - (lt - 52 - Ef) + 53) in *.
  set (g := - Ev).
  assert (Hg : 4 <= g) by (unfold g, w, u, s1 in *; lia).
  exists (Z.pos Mv / 2 ^ g). split.
  { unfold Py.int_of_float.
    replace (0 <=? Ev) with false by (symmetry; apply Z.leb_gt; lia).
    f_equal. apply Z.quot_div_nonneg; [lia|].
    apply Z.pow_pos_nonneg; lia. }
  (* the two error bounds, on one scale *)
  set (z := g + w).
  assert (Hz : z = 52 + u + ln - lt - li) by (unfold z, g, w, u, s1; lia).
  set (A := 2 ^ s1) in *. set (B := 2 ^ z).
  set (F := Z.pos Mf * 2 ^ u) in *.
  set (G := Z.pos Mv * 2 ^ w) in *.
  set (T := t * i).
  assert (Hpu : 0 < 2 ^ u) by (apply Z.pow_pos_nonneg; lia).
  assert (Hpw : 0 < 2 ^ w) by (apply Z.pow_pos_nonneg; lia).
  assert (Hpg : 0 < 2 ^ g) by (apply Z.pow_pos_nonneg; lia).
  assert (HBg : B = 2 ^ g * 2 ^ w).
  { unfold B, z. apply Z.pow_add_r; lia. }
  assert (HTBA : i * 2 ^ u * (Mt * 2 ^ 53) = T * B * A).
  { unfold T, B, A, Mt.
    replace (i * 2 ^ u * (t * 2 ^ (52 - lt) * 2 ^ 53))
      with (t * i * (2 ^ u * 2 ^ (52 - lt) * 2 ^ 53)) by ring.
    rewrite <- !(Z.mul_assoc (t * i)). f_equal.
    rewrite <- !Z.pow_add_r by lia. f_equal. unfold s1. lia. }
  assert (HPG : T * B * A - 3 * (i * F) < i * F * G
                <= T * B * A + 2 * (i * F)).
  { rewrite <- HTBA.
    assert (Hc : 0 < i * 2 ^ u) by (apply Z.mul_pos_pos; lia).
    destruct HG as [HG1 HG2].
    apply (Z.mul_lt_mono_pos_l (i * 2 ^ u)) in HG1; [|exact Hc].
    apply (Z.mul_le_mono_nonneg_l _ _ (i * 2 ^ u)) in HG2; [|lia].
    replace (i * F * G) with (i * 2 ^ u * (Z.pos Mf * G))
      by (unfold F; ring).
    replace (i * F) with (i * 2 ^ u * Z.pos Mf) by (unfold F; ring).
    clear - HG1 HG2. lia. }
  assert (HT : 0 < T < 2 ^ 48).
  { unfold T. change (2 ^ 48) with (2 ^ 24 * 2 ^ 24). clear - Ht Hi Ht0.
    split; [apply Z.mul_pos_pos; lia|].
    apply Z.mul_lt_mono_nonneg; lia. }
  pose proof (Z.div_mod T n ltac:(lia)) as Hdm.
  pose proof (Z.mod_pos_bound T n ltac:(lia)) as Hmb.
  fold T. set (m := T / n) in *. set (r := T mod n) in *.
  assert (Hm : 0 <= m) by (apply Z.div_pos; lia).
  assert (HAln : A * 2 ^ ln = 2 ^ 53 * 2 ^ li).
  { unfold A. rewrite <- !Z.pow_add_r by lia. f_equal. unfold s1. lia. }
  assert (Hmn : (m + 1) * n <= 2 ^ 49)
    by (clear - Hdm Hmb HT Hn; lia).
  destruct (fraction_scales n i m ln li z A) as [HB8 HA8]; try lia.
  fold B in HB8.
  assert (Hbounds : forall L U, 0 <= L < U -> U <= m + 1 ->
            n * L + 1 <= T -> T + 1 <= n * U ->
            L <= Z.pos Mv / 2 ^ g < U).
  { intros L U HLU HU HLT HTU.
    assert (HiU : 8 * i * U <= A).
    { assert (8 * i * U <= 8 * i * (m + 1))
        by (apply Z.mul_le_mono_nonneg_l; lia). lia. }
    destruct (quotient_bounds A B (i * F) G T n i L U
                ltac:(lia) ltac:(lia) HLU HF HPG HLT HTU HB8 HiU)
      as [Hlo Hhi].
    unfold G in Hlo, Hhi. rewrite HBg in Hlo, Hhi.
    replace (L * (2 ^ g * 2 ^ w)) with (L * 2 ^ g * 2 ^ w) in Hlo by ring.
    replace (U * (2 ^ g * 2 ^ w)) with (U * 2 ^ g * 2 ^ w) in Hhi by ring.
    apply Z.mul_le_mono_pos_r in Hlo; [|exact Hpw].
    apply Z.mul_lt_mono_pos_r in Hhi; [|exact Hpw].
    split.
    - apply Z.div_le_lower_bound; lia.
    - apply Z.div_lt_upper_bound; lia. }
  destruct (Z.eq_dec r 0) as [Hr|Hr].
  - assert (Hm1 : 1 <= m).
    { clear - Hdm Hr HT Hm Hn.
      destruct (Z.eq_dec m 0) as [E|E]; [|lia]. rewrite E in Hdm. lia. }
    destruct (Hbounds (m - 1) (m + 1)) as [Hlo Hhi];
      [lia | lia | clear - Hdm Hr Hn; lia | clear - Hdm Hmb; lia |].
    clear - Hlo Hhi Hr. lia.
  - destruct (Hbounds m (m + 1)) as [Hlo Hhi];
      [lia | lia | clear - Hdm Hmb Hr; lia | clear - Hdm Hmb; lia |].
    left. clear - Hlo Hhi. lia.
Qed.

Lemma mapM_result_map {A B} (f : A -> result B) (g : A -> B) (l : list A) :
  (forall x, In x l -> f x = Ok (g x)) -> mapM f l = Ok (map g l).
Proof.
  induction l as [|x l IH]; intros H; [reflexivity|].
  cbn [mapM map]. rewrite (H x) by (by left). cbn [mbind result_bind].
  rewrite IH; [reflexivity|]. intros y Hy. apply H. by right.
Qed.

(** [ipu_ids] is the image of the tile ids under a function that gives the
    IPU of each of them. *)
Lemma ipu_ids_image (self : TensorMap.t) (computation : computation_arg)
    (ids : gset Z) (f : Z -> Z) :
  TensorMap.tile_ids self computation = Ok ids ->
  (forall t, t ∈ ids -> TensorMap.ipu_of_tile self t = Ok (f t)) ->
  TensorMap.ipu_ids self computation = Ok (set_map f ids).
Proof.
  intros Hids Hf. unfold TensorMap.ipu_ids. rewrite Hids.
  cbn [mbind result_bind].
  rewrite (mapM_result_map _ f); [reflexivity|].
  intros t Ht. apply Hf. by apply elem_of_elements, list_elem_of_In.
Qed.

(** C9, as amended: on a [TensorMap] whose selected tile ids are
    non-negative and whose tiles-per-IPU number is positive, [ipu_ids] is
    the set of [floor(tile_id / num_tiles_per_ipu)] over the tile ids of
    the selection, and it fails exactly when one of these floors does.
    The division is the float division by the stored number.  When that
    number is a whole number [k], as an integer or as the float that the
    report gives for [k * i] tiles on [i] IPUs, and the tile ids are below
    2^50, the IPU ids are the integer quotients [t / k].  When it is the
    quotient of [n] tiles by [i] IPUs, with [n], [i] and the tile ids
    below 2^24, the IPU of tile [t] is the integer quotient of [t * i] by
    [n]; only when [n] divides [t * i] may the two roundings give one
    less. *)
Theorem ipu_ids_is_floor_of_division (self : TensorMap.t)
    (computation : computation_arg) (ids : gset Z) :
  TensorMap.tile_ids self computation = Ok ids ->
  nonnegative_ids ids = true ->
  positive_number (TensorMap.num_tiles_per_ipu self) = true ->
  (TensorMap.ipu_ids self computation
   = (ipus ← mapM (fun t => floor_div t (TensorMap.num_tiles_per_ipu self))
               (elements ids);
      Ok (list_to_set ipus))
   /\ forall ipus : gset Z,
        TensorMap.ipu_ids self computation = Ok ipus ->
        forall x : Z,
          x ∈ ipus <->
          exists t : Z,
            t ∈ ids /\ floor_div t (TensorMap.num_tiles_per_ipu self) = Ok x)
  /\ (forall k : Z,
        0 < k < 2 ^ 53 ->
        TensorMap.num_tiles_per_ipu self = JInt k
        \/ TensorMap.num_tiles_per_ipu self = JFloat (small_float k) ->
        (forall t, t ∈ ids -> t < 2 ^ 50) ->
        TensorMap.ipu_ids self computation
        = Ok (set_map (fun t => t / k) ids))
  /\ (forall k i : Z,
        0 < k -> 0 < i -> k * i < 2 ^ 53 ->
        Py.truediv (JInt (k * i)) (JInt i) = Ok (JFloat (small_float k)))
  /\ (forall n i : Z,
        0 < n < 2 ^ 24 -> 0 < i < 2 ^ 24 ->
        Py.truediv (JInt n) (JInt i)
        = Ok (TensorMap.num_tiles_per_ipu self) ->
        (forall t, t ∈ ids -> t < 2 ^ 24) ->
        exists ipus : gset Z,
          TensorMap.ipu_ids self computation = Ok ipus
          /\ (forall t, t ∈ ids -> exists x, x ∈ ipus /\ on_ipu n i t x)
          /\ (forall x, x ∈ ipus -> exists t, t ∈ ids /\ on_ipu n i t x)).
Proof.
  intros Hids Hnn Hpos.
  assert (Hnn' : forall t, t ∈ ids -> 0 <= t).
  { intros t Ht. unfold nonnegative_ids in Hnn.
    rewrite forallb_forall in Hnn.
    by apply Z.leb_le, Hnn, list_elem_of_In, elem_of_elements. }
  split; [|split; [|split]].
  - assert (E : TensorMap.ipu_ids self computation
                = (ipus ← mapM (fun t => floor_div t
                                           (TensorMap.num_tiles_per_ipu self))
                            (elements ids);
                   Ok (list_to_set ipus))).
    { unfold TensorMap.ipu_ids. rewrite Hids. cbn [mbind result_bind].
      rewrite (mapM_result_ext (TensorMap.ipu_of_tile self)
                 (fun t => floor_div t (TensorMap.num_tiles_per_ipu self)));
        [reflexivity|].
      intros t Ht. apply ipu_of_tile_is_floor; [|exact Hpos].
      by apply Hnn', elem_of_elements, list_elem_of_In. }
    split; [exact E|].
    intros ipus Hipus x. rewrite E in Hipus.
    destruct (mapM _ (elements ids)) as [l|e] eqn:El; [|discriminate].
    injection Hipus as <-.
    rewrite elem_of_list_to_set, list_elem_of_In, (mapM_result_elem _ _ _ El).
    split; intros (t & Ht & Hf); exists t; (split; [|exact Hf]).
    + by apply elem_of_elements, list_elem_of_In.
    + by apply list_elem_of_In, elem_of_elements.
  - intros k Hk Hper Hsmall. apply ipu_ids_image; [exact Hids|].
    intros t Ht. apply ipu_of_tile_whole; [exact Hk | | exact Hper].
    split; [by apply Hnn' | by apply Hsmall].
  - intros k i Hk Hi Hki. unfold Py.truediv.
    cbn [Py.as_number mbind result_bind].
    replace (i =? 0) with false by (symmetry; apply Z.eqb_neq; lia).
    replace (k * i =? 0) with false by (symmetry; apply Z.eqb_neq; nia).
    by rewrite SFdiv_exact.
  - intros n i Hn Hi Hper Hsmall.
    assert (Hx : forall t, t ∈ ids ->
              exists x, TensorMap.ipu_of_tile self t = Ok x
                        /\ on_ipu n i t x).
    { intros t Ht. apply ipu_of_tile_fraction; [exact Hn | exact Hi | | exact Hper].
      split; [by apply Hnn' | by apply Hsmall]. }
    set (f := fun t => match TensorMap.ipu_of_tile self t with
                       | Ok x => x
                       | Raise _ => 0
                       end).
    assert (Hf : forall t, t ∈ ids ->
              TensorMap.ipu_of_tile self t = Ok (f t) /\ on_ipu n i t (f t)).
    { intros t Ht. destruct (Hx t Ht) as (x & E & Hon). unfold f.
      by rewrite E. }
    exists (set_map f ids). split; [|split].
    + apply ipu_ids_image; [exact Hids|]. intros t Ht. by apply Hf.
    + intros t Ht. exists (f t). split; [|by apply Hf].
      apply elem_of_map. by exists t.
    + intros x Hin. apply elem_of_map in Hin as (t & -> & Ht).
      exists t. split; [exact Ht | by apply Hf].
Qed.

Lemma ipu_ids_is_floor_of_division_witness :
  TensorMap.ipu_ids sample_tensor_map CNone = Ok {[0; 1]}.
Proof.
  assert (H1 : TensorMap.tile_ids sample_tensor_map CNone = Ok {[0; 3]})
    by (vm_compute; reflexivity).
  assert (H2 : nonnegative_ids {[0; 3]} = true) by (vm_compute; reflexivity).
  assert (H3 : positive_number (TensorMap.num_tiles_per_ipu sample_tensor_map)
               = true) by reflexivity.
  rewrite (proj1 (proj2 (ipu_ids_is_floor_of_division sample_tensor_map CNone
                           {[0; 3]} H1 H2 H3))
             2 ltac:(lia) (or_intror eq_refl)).
  - vm_compute. reflexivity.
  - intros t Ht. apply elem_of_union in Ht as [Ht|Ht];
      apply elem_of_singleton in Ht; subst t; reflexivity.
Defined.

(** C9, as the spec states it, fails without the condition on the
    tiles-per-IPU number: with -2.0 tiles per IPU, the quotient of -4 by
    2, the only tile id is 1, which is not negative, and [ipu_ids] gives
    the IPU 0, while the floor of 1 / -2.0 is -1: [int] truncates towards
    zero. *)
Lemma negative_tiles_per_ipu_truncates :
  Py.truediv (JInt (-4)) (JInt 2)
  = Ok (TensorMap.num_tiles_per_ipu negative_tensor_map)
  /\ TensorMap.tile_ids negative_tensor_map CNone = Ok {[1]}
  /\ nonnegative_ids {[1]} = true
  /\ TensorMap.ipu_ids negative_tensor_map CNone = Ok {[0]}
  /\ floor_div 1 (TensorMap.num_tiles_per_ipu negative_tensor_map) = Ok (-1)
  /\ Py.floor_of_float
       (SFdiv Py.prec Py.emax (S754_finite false 1 0)
          (S754_finite true 2 0)) = Ok (-1)
  /\ TensorMap.ipu_ids negative_tensor_map CNone
     <> (ipus ← mapM (fun t => floor_div t (TensorMap.num_tiles_per_ipu
                                              negative_tensor_map))
                 (elements ({[1]} : gset Z));
         Ok (list_to_set ipus)).
Proof.
  repeat split; try (vm_compute; reflexivity).
  vm_compute. discriminate.
Qed.

(** The division is float division by the fractional quotient, not
    integer division, and it rounds: with 7 tiles on 3 IPUs tile 6 is on
    IPU 2 (6 // (7 // 3) would be 3), and with 18 tiles on 14 IPUs tile
    9 is on IPU 6 although 9 * 14 / 18 is 7: 18 divides 9 * 14, and the
    two roundings give one less. *)
Example ipu_of_tile_divides_floats :
  (per_ipu ← Py.truediv (JInt 7) (JInt 3);
   TensorMap.ipu_of_tile (TensorMap.Build_t per_ipu []) 6) = Ok 2
  /\ (per_ipu ← Py.truediv (JInt 18) (JInt 14);
      TensorMap.ipu_of_tile (TensorMap.Build_t per_ipu []) 9) = Ok 6
  /\ on_ipu 18 14 9 6.
Proof.
  split; [vm_compute; reflexivity|]. split; [vm_compute; reflexivity|].
  right. split; reflexivity.
Qed.

(** * Further properties *)

(** ** Literal patterns *)

Lemma translate_literal (pat : list ascii) :
  forall fuel : nat,
    (length pat <= fuel)%nat ->
    forallb (fun c => negb (special c)) pat = true ->
    translate fuel pat = map GChar pat.
Proof.
  induction pat as [|c pat IH]; intros fuel Hf Hl.
  - by destruct fuel.
  - destruct fuel as [|fuel]; [simpl in Hf; lia|].
    simpl in Hf, Hl. apply andb_true_iff in Hl as [Hc Hl].
    unfold special in Hc. apply negb_true_iff in Hc.
    apply orb_false_iff in Hc as [Hc H3].
    apply orb_false_iff in Hc as [H1 H2].
    cbn [translate]. rewrite H1, H2, H3. cbn [map]. f_equal.
    apply IH; [lia | exact Hl].
Qed.

Lemma glob_match_chars (pat : list ascii) :
  forall s : list ascii, glob_match (map GChar pat) s = true <-> s = pat.
Proof.
  induction pat as [|c pat IH]; intros [|c' s]; cbn [map glob_match];
    try (split; [discriminate | discriminate]); [tauto|].
  rewrite andb_true_iff, IH, Ascii.eqb_eq. split.
  - by intros [-> ->].
  - by intros [= -> ->].
Qed.

Lemma chars_inj (a b : string) : chars a = chars b -> a = b.
Proof.
  intros E. rewrite <- (string_of_list_ascii_of_string a),
    <- (string_of_list_ascii_of_string b). unfold chars in E. by rewrite E.
Qed.

Lemma fnmatch_literal_eq (name pat : string) :
  literal pat = true -> fnmatch name pat = true <-> name = pat.
Proof.
  intros Hl. unfold fnmatch.
  rewrite translate_literal; [| by rewrite length_chars | exact Hl].
  rewrite glob_match_chars. split; [apply chars_inj | by intros ->].
Qed.

Lemma count_matches_literal (input_list : list string) (to_match : string) :
  literal to_match = true ->
  count_matches_in_list input_list to_match
  = Z.of_nat (count_occ string_dec input_list to_match).
Proof.
  intros Hl. unfold count_matches_in_list. f_equal.
  induction input_list as [|s l IH]; [reflexivity|].
  cbn [List.filter count_occ].
  destruct (string_dec s to_match) as [->|Hne].
  - rewrite (proj2 (fnmatch_literal_eq to_match to_match Hl) eq_refl).
    simpl. by rewrite IH.
  - destruct (fnmatch s to_match) eqn:E; [|exact IH].
    by apply (fnmatch_literal_eq _ _ Hl) in E.
Qed.

(** X1: a pattern without [*], [?] and [[] matches its own text and
    nothing else, so that [count_matches_in_list] with such a pattern
    counts the occurrences of the pattern in the list. *)
Theorem literal_pattern_counts_occurrences (to_match : string) :
  literal to_match = true ->
  (forall name, fnmatch name to_match = true <-> name = to_match)
  /\ (forall input_list,
        count_matches_in_list input_list to_match
        = Z.of_nat (count_occ string_dec input_list to_match)).
Proof.
  intros Hl. split.
  - intros name. by apply fnmatch_literal_eq.
  - intros input_list. by apply count_matches_literal.
Qed.

Lemma literal_pattern_counts_occurrences_witness :
  literal "host_to_device_0" = true
  /\ (forall name,
        fnmatch name "host_to_device_0" = true <-> name = "host_to_device_0")
  /\ (forall input_list,
        count_matches_in_list input_list "host_to_device_0"
        = Z.of_nat (count_occ string_dec input_list "host_to_device_0")).
Proof.
  split; [reflexivity|].
  apply (literal_pattern_counts_occurrences "host_to_device_0"). reflexivity.
Defined.

(** ** Whitelists and blacklists *)

Lemma nonnil_filter {A} (f : A -> bool) (l : list A) :
  nonnil (List.filter f l) = existsb f l.
Proof.
  induction l as [|a l IH]; [reflexivity|]. simpl.
  destruct (f a); [reflexivity | exact IH].
Qed.

Lemma filter_sublist {A} (f : A -> bool) (l : list A) :
  sublist (List.filter f l) l.
Proof.
  induction l as [|a l IH]; simpl; [constructor|].
  destruct (f a); by constructor.
Qed.

Lemma fnmatch_empty_pattern (name : string) : fnmatch name ("" +:+ "*") = true.
Proof. apply fnmatch_suffixed. by exists "", name. Qed.

(** X2: [names_in_blacklist] keeps, in their order, the names of which
    some blacklist entry matches a prefix, and only those. *)
Theorem names_in_blacklist_are_prefix_matches (names blacklist : list string) :
  sublist (names_in_blacklist names blacklist) names
  /\ (forall name,
        In name (names_in_blacklist names blacklist) <->
        In name names /\
        exists p prefix rest,
          In p blacklist /\ name = prefix +:+ rest /\ fnmatch prefix p = true).
Proof.
  unfold names_in_blacklist, items_matching_at_least_one_pattern.
  split; [apply filter_sublist|].
  intros name. rewrite filter_In, nonnil_filter, existsb_exists.
  split; intros [Hin H]; (split; [exact Hin|]).
  - destruct H as (x & Hx & Hm). apply in_map_iff in Hx as (p & <- & Hp).
    apply fnmatch_suffixed in Hm as (prefix & rest & E & Hm).
    by exists p, prefix, rest.
  - destruct H as (p & prefix & rest & Hp & E & Hm).
    exists (p +:+ "*"). split; [apply in_map_iff; by exists p|].
    apply fnmatch_suffixed. by exists prefix, rest.
Qed.

(** X3: with one list of patterns the two checks split the non-empty
    names: [missing_names_in_whitelist_entries] returns the non-empty
    names that [names_in_blacklist] does not return, so no name is in
    both results and every non-empty name is in exactly one. *)
Theorem whitelist_and_blacklist_split_names (names patterns : list string) :
  missing_names_in_whitelist_entries names patterns
  = List.filter
      (fun name =>
         nonempty name
         && negb (bool_decide (name ∈ names_in_blacklist names patterns)))
      names
  /\ List.filter nonempty names
     ≡ₚ missing_names_in_whitelist_entries names patterns
        ++ List.filter nonempty (names_in_blacklist names patterns).
Proof.
  unfold names_in_blacklist, items_matching_at_least_one_pattern,
    missing_names_in_whitelist_entries.
  set (wl := map (fun x => x +:+ "*") patterns).
  set (m := fun item => nonnil (List.filter (fun p => fnmatch item p) wl)).
  change (fun name => nonempty name
                      && negb (nonnil (List.filter (fun x => fnmatch name x) wl)))
    with (fun name => nonempty name && negb (m name)).
  split.
  - apply filter_ext_in. intros name Hin. f_equal. f_equal.
    destruct (m name) eqn:E.
    + symmetry. apply bool_decide_eq_true, list_elem_of_In, filter_In.
      by split.
    + symmetry. apply bool_decide_eq_false.
      rewrite list_elem_of_In, filter_In. intros [_ H]. congruence.
  - induction names as [|n names IH]; [reflexivity|]. cbn [List.filter].
    destruct (nonempty n) eqn:En, (m n) eqn:Em; cbn [andb negb List.filter];
      rewrite ?En.
    + rewrite IH. by apply Permutation_middle.
    + cbn [app]. by rewrite IH.
    + exact IH.
    + exact IH.
Qed.

(** X4: the empty pattern, which becomes [*], matches every name: a
    whitelist that holds it leaves no name missing and is itself missing
    only when there is no name at all, and a blacklist that holds it
    returns every name. *)
Theorem empty_pattern_matches_every_name (names patterns : list string) :
  In "" patterns ->
  missing_names_in_whitelist_entries names patterns = []
  /\ names_in_blacklist names patterns = names
  /\ (In "*" (missing_whitelist_entries_in_names names patterns)
      <-> names = []).
Proof.
  intros Hin.
  assert (Hany : forall name,
             existsb (fun p => fnmatch name p)
               (map (fun x => x +:+ "*") patterns) = true).
  { intros name. apply existsb_exists. exists ("" +:+ "*").
    split; [apply in_map_iff; by exists "" | apply fnmatch_empty_pattern]. }
  split; [|split].
  - unfold missing_names_in_whitelist_entries.
    induction names as [|n names IH]; [reflexivity|]. cbn [List.filter].
    by rewrite nonnil_filter, Hany, andb_false_r.
  - unfold names_in_blacklist, items_matching_at_least_one_pattern.
    induction names as [|n names IH]; [reflexivity|]. cbn [List.filter].
    by rewrite nonnil_filter, Hany, IH.
  - rewrite missing_whitelist_entries_spec. split.
    + intros [_ H]. destruct names as [|n names]; [reflexivity|].
      inversion H as [|? ? Hn _]; subst.
      pose proof (fnmatch_empty_pattern n) as Hm.
      change ("" +:+ "*") with "*" in Hm. congruence.
    + intros ->. split; [|constructor].
      apply in_map_iff. by exists "".
Qed.

Lemma empty_pattern_matches_every_name_witness :
  In "" ["conv"; ""]
  /\ missing_names_in_whitelist_entries ["pool"; "conv/a"] ["conv"; ""] = []
  /\ names_in_blacklist ["pool"; "conv/a"] ["conv"; ""] = ["pool"; "conv/a"]
  /\ (In "*" (missing_whitelist_entries_in_names ["pool"; "conv/a"]
                ["conv"; ""])
      <-> ["pool"; "conv/a"] = []).
Proof.
  split; [simpl; tauto|].
  apply (empty_pattern_matches_every_name ["pool"; "conv/a"] ["conv"; ""]).
  simpl. tauto.
Defined.

(** X5: with nothing to match against, everything is reported: an empty
    whitelist makes every non-empty name a missing name, an empty list of
    names makes every suffixed whitelist entry a missing entry; an empty
    blacklist flags no name and an empty whitelist has no missing
    entries. *)
Theorem matching_against_empty_lists (names patterns : list string) :
  missing_names_in_whitelist_entries names [] = List.filter nonempty names
  /\ missing_whitelist_entries_in_names [] patterns
     = map (fun x => x +:+ "*") patterns
  /\ names_in_blacklist names [] = []
  /\ missing_whitelist_entries_in_names names [] = [].
Proof.
  split; [|split; [|split]].
  - unfold missing_names_in_whitelist_entries. apply filter_ext.
    intros name. simpl. apply andb_true_r.
  - unfold missing_whitelist_entries_in_names. simpl.
    induction (map (fun x => x +:+ "*") patterns) as [|p l IH];
      [reflexivity | simpl; by rewrite IH].
  - unfold names_in_blacklist, items_matching_at_least_one_pattern. simpl.
    induction names as [|n names IH]; [reflexivity | exact IH].
  - reflexivity.
Qed.

(** X6: longer lists can only shorten the reports: the names missing
    from a larger whitelist are among those missing from the smaller one,
    and the whitelist entries missing in a larger list of names are among
    those missing in the smaller one. *)
Theorem missing_reports_are_antitone
    (names names' whitelist whitelist' : list string) :
  incl whitelist whitelist' -> incl names names' ->
  incl (missing_names_in_whitelist_entries names whitelist')
       (missing_names_in_whitelist_entries names whitelist)
  /\ incl (missing_whitelist_entries_in_names names' whitelist)
          (missing_whitelist_entries_in_names names whitelist).
Proof.
  intros Hw Hn. split; intros x.
  - rewrite !missing_names_spec. intros (Hin & Hne & Hall).
    split; [exact Hin|]. split; [exact Hne|].
    rewrite List.Forall_forall in *. intros p Hp. apply Hall, Hw, Hp.
  - rewrite !missing_whitelist_entries_spec. intros (Hin & Hall).
    split; [exact Hin|].
    rewrite List.Forall_forall in *. intros n Hin'. apply Hall, Hn, Hin'.
Qed.

Lemma missing_reports_are_antitone_witness :
  incl ["conv"] ["conv"; "pool"] /\ incl ["pool/a"] ["pool/a"; "conv/b"]
  /\ incl (missing_names_in_whitelist_entries ["pool/a"] ["conv"; "pool"])
          (missing_names_in_whitelist_entries ["pool/a"] ["conv"])
  /\ incl (missing_whitelist_entries_in_names ["pool/a"; "conv/b"] ["conv"])
          (missing_whitelist_entries_in_names ["pool/a"] ["conv"]).
Proof.
  assert (H1 : incl ["conv"] ["conv"; "pool"])
    by (intros x [<-|[]]; simpl; tauto).
  assert (H2 : incl ["pool/a"] ["pool/a"; "conv/b"])
    by (intros x [<-|[]]; simpl; tauto).
  split; [exact H1|]. split; [exact H2|].
  exact (missing_reports_are_antitone ["pool/a"] ["pool/a"; "conv/b"]
           ["conv"] ["conv"; "pool"] H1 H2).
Defined.

(** ** The histogram and the recorded payloads *)

Section DecodeMore.
Context {record : Type}.
Variable FromString : record -> result IpuTraceEvent.t.
Variable loads : string -> result json.

Abbreviation parse_events := (ReportJSON.parse_events FromString loads).
Abbreviation parse_loop := (ReportJSON.parse_loop FromString loads).
Abbreviation decode_event := (ReportJSON.decode_event loads).
Abbreviation try_decode evt :=
  (ReportJSON.try_except_UnicodeDecodeError (ReportJSON.decode_event loads evt)).

(** The outcome of the [try] body, case by case. *)
Lemma decode_event_cases (evt : IpuTraceEvent.t) (self : ReportJSON.t) :
  decode_event evt self
  = let ce := IpuTraceEvent.compile_end evt in
    let data :=
      IpuTraceEvent.DataTransfer.data_transfer
        (IpuTraceEvent.data_transfer evt) in
    let transfer kind :=
      if nonempty data then
        match ReportJSON.events self !! kind with
        | Some _ => (self, Raise AssertionError)
        | None =>
            match loads data with
            | Ok v =>
                (ReportJSON.with_events
                   (<[kind := v]> (ReportJSON.events self)) self, Ok tt)
            | Raise x => (self, Raise x)
            end
        end
      else (self, Ok tt) in
    match IpuTraceEvent.type evt with
    | COMPILE_BEGIN | LOAD_ENGINE => (self, Ok tt)
    | COMPILE_END =>
        if nonempty (IpuTraceEvent.compilation_report ce) then
          match ReportJSON.events self !! COMPILE_END with
          | Some _ => (self, Raise AssertionError)
          | None =>
              match loads (IpuTraceEvent.compilation_report ce) with
              | Raise x => (self, Raise x)
              | Ok report =>
                  let s1 :=
                    ReportJSON.with_events
                      (<[COMPILE_END := report]> (ReportJSON.events self))
                      self in
                  match loads (IpuTraceEvent.tensor_map ce) with
                  | Raise x => (s1, Raise x)
                  | Ok tm_json =>
                      match ReportJSON.get_num_tiles_per_ipu s1 with
                      | Raise x => (s1, Raise x)
                      | Ok per_ipu =>
                          match TensorMap.init tm_json per_ipu with
                          | Raise x => (s1, Raise x)
                          | Ok tm =>
                              let s2 :=
                                ReportJSON.with_tensor_map (Some tm) s1 in
                              match
                                loads (IpuTraceEvent.instruction_info ce)
                              with
                              | Raise x => (s2, Raise x)
                              | Ok info =>
                                  (ReportJSON.with_instruction_info info s2,
                                   Ok tt)
                              end
                          end
                      end
                  end
              end
          end
        else (self, Ok tt)
    | HOST_TO_DEVICE_TRANSFER => transfer HOST_TO_DEVICE_TRANSFER
    | DEVICE_TO_HOST_TRANSFER => transfer DEVICE_TO_HOST_TRANSFER
    | EXECUTE =>
        let report :=
          IpuTraceEvent.execution_report (IpuTraceEvent.execute evt) in
        if nonempty report then
          match loads report with
          | Raise x => (self, Raise x)
          | Ok v =>
              match
                ReportJSON.append_item
                  (default (JList []) (ReportJSON.events self !! EXECUTE)) v
              with
              | Raise x => (self, Raise x)
              | Ok all =>
                  (ReportJSON.with_events
                     (<[EXECUTE := all]> (ReportJSON.events self)) self,
                   Ok tt)
              end
          end
        else (self, Ok tt)
    end.
Proof.
  unfold ReportJSON.decode_event.
  destruct (IpuTraceEvent.type evt); cbv zeta; decide_kind; run;
    try reflexivity;
    match goal with |- context [nonempty ?s] => destruct (nonempty s) end;
    try reflexivity;
    repeat match goal with
      | |- context [ReportJSON.events self !! ?k] =>
          destruct (ReportJSON.events self !! k)
      | |- context [match loads ?p with _ => _ end] => destruct (loads p)
      | |- context [match ReportJSON.append_item ?a ?b with _ => _ end] =>
          destruct (ReportJSON.append_item a b)
      | |- context [match ReportJSON.get_num_tiles_per_ipu ?a with _ => _ end] =>
          destruct (ReportJSON.get_num_tiles_per_ipu a)
      | |- context [match TensorMap.init ?a ?b with _ => _ end] =>
          destruct (TensorMap.init a b)
      end; reflexivity.
Qed.

Lemma try_decode_state (evt : IpuTraceEvent.t) (self : ReportJSON.t) :
  fst (try_decode evt self) = fst (decode_event evt self).
Proof.
  unfold ReportJSON.try_except_UnicodeDecodeError.
  by destruct (decode_event evt self) as [s [[]|[]]].
Qed.

Lemma try_decode_ok (evt : IpuTraceEvent.t) (self self' : ReportJSON.t) :
  try_decode evt self = (self', Ok tt) ->
  decode_event evt self = (self', Ok tt)
  \/ decode_event evt self = (self', Raise UnicodeDecodeError).
Proof.
  unfold ReportJSON.try_except_UnicodeDecodeError.
  destruct (decode_event evt self) as [s [[]|[]]]; intros [= <-]; auto.
Qed.

(** A property of [self] that every [try] body keeps holds when the
    loop is left, with a histogram or with an exception. *)
Lemma parse_loop_invariant (I : ReportJSON.t -> Prop) (all : list record) :
  (forall e evt self,
      In e all -> FromString e = Ok evt -> I self ->
      I (fst (decode_event evt self))) ->
  forall (events : list record) (h : gmap EventType nat)
         (self self' : ReportJSON.t) (r : result (gmap EventType nat)),
    incl events all -> I self ->
    parse_loop events h self = (self', r) -> I self'.
Proof.
  intros Hstep. induction events as [|e rest IH]; intros h self self' r Hi HI.
  - by intros [= <- _].
  - rewrite parse_loop_cons.
    destruct (FromString e) as [evt|x] eqn:He; [|by intros [= <- _]].
    pose proof (Hstep e evt self (Hi e (or_introl eq_refl)) He HI) as H1.
    rewrite <- try_decode_state in H1.
    destruct (try_decode evt self) as [s1 [[]|x]]; simpl in H1.
    + apply IH; [|exact H1]. intros y Hy. apply Hi. by right.
    + by intros [= <- _].
Qed.

Ltac state_simpl :=
cbn [fst ReportJSON.events ReportJSON.tensor_map ReportJSON.instruction_info
     ReportJSON.with_events ReportJSON.with_tensor_map
     ReportJSON.with_instruction_info] in *.

Lemma recorded_from_events (events : list record)
    (assert_len : option Z) (msg : string) (self self' : ReportJSON.t)
    (r : result (gmap EventType nat)) :
  count_passes assert_len (length events) = true ->
  parse_events events assert_len msg self = (self', r) ->
  forall kind v,
    ReportJSON.events self' !! kind = Some v ->
    exists e evt p w,
      In e events /\ FromString e = Ok evt
      /\ IpuTraceEvent.type evt = kind
      /\ payload evt = Some p /\ nonempty p = true /\ loads p = Ok w
      /\ (kind <> EXECUTE -> v = w).
Proof.
  intros Hc. rewrite parse_events_eq, Hc. intros Hloop.
  set (I := fun s : ReportJSON.t =>
              forall kind v,
                ReportJSON.events s !! kind = Some v ->
                exists e evt p w,
                  In e events /\ FromString e = Ok evt
                  /\ IpuTraceEvent.type evt = kind
                  /\ payload evt = Some p /\ nonempty p = true
                  /\ loads p = Ok w
                  /\ (kind <> EXECUTE -> v = w)).
  refine (parse_loop_invariant I events _ events ∅ blank self' r
            (fun x Hx => Hx) _ Hloop);
    [| intros kind v; unfold blank; state_simpl; by rewrite lookup_empty].
  unfold I. intros e evt s Hin He HI. rewrite decode_event_cases. cbv zeta.
  destruct (IpuTraceEvent.type evt) eqn:Ht; repeat case_match;
    state_simpl; try exact HI; intros kind v;
    (match goal with
     | |- <[?k := _]> _ !! _ = _ -> _ =>
         destruct (decide (kind = k)) as [->|Hne];
         [ rewrite lookup_insert_eq; intros [= <-]
         | rewrite lookup_insert_ne by congruence; apply HI ]
     end);
    eexists e, evt, _, _;
    (split; [exact Hin|]); (split; [exact He|]); (split; [exact Ht|]);
    (split; [unfold payload, singleton_payload; rewrite Ht; reflexivity|]);
    (split; [eassumption|]); (split; [eassumption|]);
    first [ by intros _ | by intros [] ].
Qed.

(** X7: whatever [parse_events] leaves in [self.events], also when it
    stops with an exception, was decoded from an event of the list: an
    entry for a kind comes from an event of that kind with a non-empty
    payload that [json.loads] decoded, and for the kinds other than
    [EXECUTE] the entry is that decoded payload.  So when
    [assert_contains_one_compile_event] passes afterwards, the list holds
    a [COMPILE_END] event with a decodable, non-empty report. *)
Theorem recorded_payloads_come_from_events (events : list record)
    (assert_len : option Z) (msg : string) (self self' : ReportJSON.t)
    (r : result (gmap EventType nat)) :
  count_passes assert_len (length events) = true ->
  parse_events events assert_len msg self = (self', r) ->
  (forall kind v,
      ReportJSON.events self' !! kind = Some v ->
      exists e evt p w,
        In e events /\ FromString e = Ok evt
        /\ IpuTraceEvent.type evt = kind
        /\ payload evt = Some p /\ nonempty p = true /\ loads p = Ok w
        /\ (kind <> EXECUTE -> v = w))
  /\ (ReportJSON.assert_contains_one_compile_event self' = (self', Ok tt) ->
      exists e evt report,
        In e events /\ FromString e = Ok evt
        /\ IpuTraceEvent.type evt = COMPILE_END
        /\ nonempty (IpuTraceEvent.compilation_report
                       (IpuTraceEvent.compile_end evt)) = true
        /\ loads (IpuTraceEvent.compilation_report
                    (IpuTraceEvent.compile_end evt)) = Ok report
        /\ ReportJSON.events self' !! COMPILE_END = Some report).
Proof.
  intros Hc Hp.
  pose proof (recorded_from_events _ _ _ _ _ _ Hc Hp) as Hall.
  split; [exact Hall|].
  unfold ReportJSON.assert_contains_one_compile_event, ReportJSON.assertTrue.
  destruct (ReportJSON.events self' !! COMPILE_END) as [report|] eqn:Hr.
  - intros _. destruct (Hall _ _ Hr) as (e & evt & p & w & H1 & H2 & H3 & H4
                                          & H5 & H6 & H7).
    unfold payload, singleton_payload in H4. rewrite H3 in H4.
    injection H4 as <-. rewrite (H7 ltac:(discriminate)).
    by exists e, evt, w.
  - rewrite bool_decide_eq_false_2 by (by intros [? ?]). discriminate.
Qed.

(** *** Execution reports *)

Lemma execution_reports_cons (evt : IpuTraceEvent.t)
    (evts : list IpuTraceEvent.t) :
  execution_reports loads (evt :: evts)
  = execution_reports loads [evt] ++ execution_reports loads evts.
Proof.
  unfold execution_reports.
  change (evt :: evts) with ([evt] ++ evts). apply omap_app.
Qed.

Lemma try_decode_execute (evt : IpuTraceEvent.t) (self self' : ReportJSON.t)
    (reports : list json) :
  try_decode evt self = (self', Ok tt) ->
  ReportJSON.events self !! EXECUTE
  = (if nonnil reports then Some (JList reports) else None) ->
  ReportJSON.events self' !! EXECUTE
  = (if nonnil (reports ++ execution_reports loads [evt])
     then Some (JList (reports ++ execution_reports loads [evt]))
     else None).
Proof.
  intros H Hinv. unfold execution_reports. cbn [omap list_omap]. cbv zeta.
  apply try_decode_ok in H. rewrite decode_event_cases in H. cbv zeta in H.
  destruct (IpuTraceEvent.type evt) eqn:Ht;
    repeat first [ rewrite bool_decide_eq_true_2 by reflexivity
                 | rewrite bool_decide_eq_false_2 by discriminate ];
    cbn [andb]; rewrite ?app_nil_r.
  6: { destruct (nonempty _); cbn [andb];
         [| rewrite app_nil_r; destruct H as [[= <-]|[=]]; exact Hinv].
       destruct (loads _) as [v|x].
       - rewrite Hinv in H.
         destruct reports as [|r0 reports]; cbn [nonnil default] in H;
           unfold ReportJSON.append_item in H;
           destruct H as [[= <-]|[=]]; state_simpl;
           rewrite lookup_insert_eq; reflexivity.
       - rewrite app_nil_r. destruct H as [[=]|[= <- _]]. exact Hinv. }
  all: repeat case_match; destruct H as [H|H]; try discriminate;
    injection H as <-; state_simpl;
    rewrite ?lookup_insert_ne by discriminate; try exact Hinv.
Qed.

Lemma parse_loop_execute (events : list record) :
  forall (evts : list IpuTraceEvent.t) (h h' : gmap EventType nat)
         (self self' : ReportJSON.t) (reports : list json),
    mapM FromString events = Ok evts ->
    parse_loop events h self = (self', Ok h') ->
    ReportJSON.events self !! EXECUTE
    = (if nonnil reports then Some (JList reports) else None) ->
    ReportJSON.events self' !! EXECUTE
    = (if nonnil (reports ++ execution_reports loads evts)
       then Some (JList (reports ++ execution_reports loads evts))
       else None).
Proof.
  induction events as [|e rest IH]; intros evts h h' self self' reports.
  - intros [= <-] [= <- _]. unfold execution_reports. cbn [omap list_omap].
    by rewrite app_nil_r.
  - cbn [mapM]. rewrite parse_loop_cons.
    destruct (FromString e) as [evt|x]; [|discriminate].
    cbn [mbind result_bind].
    destruct (mapM FromString rest) as [evts'|x]; [|discriminate].
    intros [= <-].
    destruct (try_decode evt self) as [s1 [[]|x]] eqn:E; [|discriminate].
    intros Hloop Hinv. rewrite execution_reports_cons, app_assoc.
    eapply IH; [reflexivity | exact Hloop |].
    by eapply try_decode_execute.
Qed.

(** X8: after [parse_events] has returned, [get_execution_reports] is
    the list of the decoded execution reports of the [EXECUTE] events
    that carry one, in the order of the events, leaving out the reports
    that are not UTF-8; when there is none, [self.events] has no
    [EXECUTE] entry and the query raises [KeyError]. *)
Theorem execution_reports_accumulate_in_order (events : list record)
    (evts : list IpuTraceEvent.t) (assert_len : option Z) (msg : string)
    (self self' : ReportJSON.t) (h : gmap EventType nat) :
  mapM FromString events = Ok evts ->
  parse_events events assert_len msg self = (self', Ok h) ->
  ReportJSON.get_execution_reports self'
  = match execution_reports loads evts with
    | [] => Raise (KeyError (KEvent EXECUTE))
    | reports => Ok (JList reports)
    end.
Proof.
  intros Hm. rewrite parse_events_eq.
  destruct (count_passes assert_len (length events)); [|discriminate].
  intros Hloop.
  pose proof (parse_loop_execute events evts ∅ h blank self' [] Hm Hloop
                (lookup_empty _)) as H.
  cbn [app] in H.
  unfold ReportJSON.get_execution_reports, ReportJSON.event. rewrite H.
  by destruct (execution_reports loads evts).
Qed.

(** *** Payloads recorded once *)

Lemma try_decode_keeps (evt : IpuTraceEvent.t) (self self' : ReportJSON.t)
    (kind : EventType) (v : json) :
  kind <> EXECUTE ->
  ReportJSON.events self !! kind = Some v ->
  try_decode evt self = (self', Ok tt) ->
  ReportJSON.events self' !! kind = Some v.
Proof.
  intros Hk Hv H. apply try_decode_ok in H.
  rewrite decode_event_cases in H. cbv zeta in H.
  destruct (IpuTraceEvent.type evt) eqn:Ht; repeat case_match;
    destruct H as [H|H]; try discriminate; injection H as <-; state_simpl;
    try exact Hv;
    match goal with
    | |- <[?k := _]> _ !! _ = _ =>
        destruct (decide (kind = k)) as [->|Hne];
        [congruence | by rewrite lookup_insert_ne by congruence]
    end.
Qed.

Lemma parse_loop_keeps (events : list record) (kind : EventType) (v : json) :
  kind <> EXECUTE ->
  forall (h h' : gmap EventType nat) (self self' : ReportJSON.t),
    ReportJSON.events self !! kind = Some v ->
    parse_loop events h self = (self', Ok h') ->
    ReportJSON.events self' !! kind = Some v.
Proof.
  intros Hk. induction events as [|e rest IH]; intros h h' self self' Hv.
  - by intros [= <- _].
  - rewrite parse_loop_cons.
    destruct (FromString e) as [evt|x]; [|discriminate].
    destruct (try_decode evt self) as [s1 [[]|x]] eqn:E; [|discriminate].
    apply IH. by eapply try_decode_keeps.
Qed.

Lemma try_decode_records (evt : IpuTraceEvent.t) (self self' : ReportJSON.t)
    (p : string) (v : json) :
  singleton_payload evt = Some p -> nonempty p = true -> loads p = Ok v ->
  try_decode evt self = (self', Ok tt) ->
  ReportJSON.events self' !! IpuTraceEvent.type evt = Some v.
Proof.
  intros Hp Hne Hl H. apply try_decode_ok in H.
  rewrite decode_event_cases in H. cbv zeta in H.
  unfold singleton_payload in Hp.
  destruct (IpuTraceEvent.type evt) eqn:Ht; try discriminate;
    injection Hp as <-; rewrite Hne, Hl in H;
    repeat case_match;
    destruct H as [H|H]; try discriminate; injection H as <-; state_simpl;
    rewrite ?lookup_insert_ne by discriminate; apply lookup_insert_eq.
Qed.

(** X9: after [parse_events] has returned, the entry of
    [self.events] for [COMPILE_END], [HOST_TO_DEVICE_TRANSFER] or
    [DEVICE_TO_HOST_TRANSFER] is the decoded payload of any event of
    that kind in the list whose non-empty payload [json.loads] decodes;
    the two name queries then list [t["name"]] for the [tensors] of that
    payload. *)
Theorem decodable_payload_is_recorded (events : list record) (e : record)
    (evt : IpuTraceEvent.t) (p : string) (v : json) (assert_len : option Z)
    (msg : string) (self self' : ReportJSON.t) (h : gmap EventType nat) :
  parse_events events assert_len msg self = (self', Ok h) ->
  In e events -> FromString e = Ok evt ->
  singleton_payload evt = Some p -> nonempty p = true -> loads p = Ok v ->
  ReportJSON.event (IpuTraceEvent.type evt) self' = Ok v
  /\ (IpuTraceEvent.type evt = HOST_TO_DEVICE_TRANSFER ->
      ReportJSON.get_host_to_device_event_names self'
      = ReportJSON.tensor_names v)
  /\ (IpuTraceEvent.type evt = DEVICE_TO_HOST_TRANSFER ->
      ReportJSON.get_device_to_host_event_names self'
      = ReportJSON.tensor_names v).
Proof.
  rewrite parse_events_eq.
  destruct (count_passes assert_len (length events)); [|discriminate].
  intros Hloop Hin He Hp Hne Hl.
  assert (Hk : IpuTraceEvent.type evt <> EXECUTE).
  { unfold singleton_payload in Hp. by destruct (IpuTraceEvent.type evt). }
  assert (Hv : ReportJSON.events self' !! IpuTraceEvent.type evt = Some v).
  { apply in_split in Hin as (pre & post & ->).
    rewrite parse_loop_app in Hloop.
    destruct (parse_loop pre ∅ blank) as [s0 [h0|x]]; [|discriminate].
    rewrite parse_loop_cons, He in Hloop.
    destruct (try_decode evt s0) as [s1 [[]|x]] eqn:E; [|discriminate].
    eapply parse_loop_keeps; [exact Hk | | exact Hloop].
    by eapply try_decode_records. }
  unfold ReportJSON.get_host_to_device_event_names,
    ReportJSON.get_device_to_host_event_names, ReportJSON.event.
  split; [by rewrite Hv|].
  split; intros Ht; rewrite Ht in Hv; by rewrite Hv.
Qed.

(** *** The tensor map *)

Lemma get_num_tiles_per_ipu_events (s1 s2 : ReportJSON.t) :
  ReportJSON.events s1 !! COMPILE_END = ReportJSON.events s2 !! COMPILE_END ->
  ReportJSON.get_num_tiles_per_ipu s1 = ReportJSON.get_num_tiles_per_ipu s2.
Proof.
  intros H. unfold ReportJSON.get_num_tiles_per_ipu, ReportJSON.get_num_tiles,
    ReportJSON.get_num_ipus, ReportJSON.event. by rewrite H.
Qed.

Lemma init_num_tiles_per_ipu (tensor_map per_ipu : json) (tm : TensorMap.t) :
  TensorMap.init tensor_map per_ipu = Ok tm ->
  TensorMap.num_tiles_per_ipu tm = per_ipu.
Proof.
  unfold TensorMap.init.
  destruct (Py.getitem _ _) as [m|x]; [|discriminate]. cbn [mbind result_bind].
  destruct (Py.items m) as [its|x]; [|discriminate]. cbn [mbind result_bind].
  destruct (TensorMap.fill_mappings its []) as [ms|x]; [|discriminate].
  by intros [= <-].
Qed.

Lemma decode_event_consistent (evt : IpuTraceEvent.t) (self : ReportJSON.t) :
  consistent self -> consistent (fst (decode_event evt self)).
Proof.
  intros Hc. rewrite decode_event_cases. cbv zeta.
  assert (Hnone : ReportJSON.events self !! COMPILE_END = None ->
                  ReportJSON.tensor_map self = None
                  /\ ReportJSON.instruction_info self = JDict []).
  { destruct Hc as [Htm Hinfo].
    intros Hn. destruct (ReportJSON.tensor_map self) as [tm|] eqn:E.
    - destruct (Htm tm eq_refl) as [[? Hs] _]. congruence.
    - split; [reflexivity|]. destruct Hinfo as [?|[? ?]]; congruence. }
  assert (Hother : forall kind v,
             kind <> COMPILE_END ->
             consistent (ReportJSON.with_events
                           (<[kind := v]> (ReportJSON.events self)) self)).
  { destruct Hc as [Htm Hinfo].
    intros kind v Hk. split; state_simpl; [|exact Hinfo].
    intros tm Ht. destruct (Htm tm Ht) as [Hs Hn].
    rewrite lookup_insert_ne by exact Hk. split; [exact Hs|].
    rewrite <- Hn. apply get_num_tiles_per_ipu_events. state_simpl.
    by rewrite lookup_insert_ne by exact Hk. }
  destruct (IpuTraceEvent.type evt) eqn:Ht; repeat case_match; state_simpl;
    try exact Hc; try (by apply Hother);
    destruct (Hnone eq_refl) as [Hn1 Hn2].
  - split; state_simpl; [|by right].
    intros tm' [= <-]. rewrite lookup_insert_eq. split; [by eexists|].
    erewrite init_num_tiles_per_ipu by eassumption.
    etransitivity; [|eassumption]. by apply get_num_tiles_per_ipu_events.
  - split; state_simpl; [|by right].
    intros tm' [= <-]. rewrite lookup_insert_eq. split; [by eexists|].
    erewrite init_num_tiles_per_ipu by eassumption.
    etransitivity; [|eassumption]. by apply get_num_tiles_per_ipu_events.
  - split; state_simpl; [congruence | by left].
  - split; state_simpl; [congruence | by left].
  - split; state_simpl; [congruence | by left].
Qed.

Lemma parse_events_consistent (events : list record)
    (assert_len : option Z) (msg : string) (self self' : ReportJSON.t)
    (r : result (gmap EventType nat)) :
  count_passes assert_len (length events) = true ->
  parse_events events assert_len msg self = (self', r) ->
  consistent self'.
Proof.
  intros Hc. rewrite parse_events_eq, Hc. intros Hloop.
  refine (parse_loop_invariant consistent events _ events ∅ blank self' r
            (fun x Hx => Hx) _ Hloop).
  - intros e evt s _ _. apply decode_event_consistent.
  - split; [discriminate | by left].
Qed.

(** X10: whatever the outcome of [parse_events], [self.tensor_map] is
    set only together with a recorded compile report, its
    [num_tiles_per_ipu] is then the value of [get_num_tiles_per_ipu()],
    and the instruction information is still the empty dictionary as
    long as there is no tensor map. *)
Theorem tensor_map_agrees_with_report (events : list record)
    (assert_len : option Z) (msg : string) (self self' : ReportJSON.t)
    (r : result (gmap EventType nat)) :
  count_passes assert_len (length events) = true ->
  parse_events events assert_len msg self = (self', r) ->
  (forall tm,
      ReportJSON.get_tensor_map self' = Some tm ->
      is_Some (ReportJSON.events self' !! COMPILE_END)
      /\ ReportJSON.get_num_tiles_per_ipu self'
         = Ok (TensorMap.num_tiles_per_ipu tm))
  /\ (ReportJSON.get_tensor_map self' = None ->
      ReportJSON.get_instruction_info self' = JDict []).
Proof.
  intros Hc Hp.
  destruct (parse_events_consistent _ _ _ _ _ _ Hc Hp) as [H1 H2].
  split; [exact H1|].
  unfold ReportJSON.get_tensor_map, ReportJSON.get_instruction_info.
  intros Hn. destruct H2 as [?|[? ?]]; congruence.
Qed.

(** X11: a compile report that is decoded is recorded before the tensor
    map is looked at.  When [json.loads] then fails on the tensor-map
    payload, the report stays recorded without a tensor map and without
    instruction information: a payload that is not UTF-8 is skipped and
    the loop goes on, any other exception leaves [parse_events]. *)
Theorem undecodable_tensor_map_keeps_report (pre post : list record)
    (e : record) (evt : IpuTraceEvent.t) (report : json) (x : exn)
    (assert_len : option Z) (msg : string) (self before : ReportJSON.t)
    (h : gmap EventType nat) :
  count_passes assert_len (length (pre ++ e :: post)) = true ->
  parse_events pre None "" self = (before, Ok h) ->
  FromString e = Ok evt ->
  IpuTraceEvent.type evt = COMPILE_END ->
  nonempty (IpuTraceEvent.compilation_report (IpuTraceEvent.compile_end evt))
  = true ->
  ReportJSON.events before !! COMPILE_END = None ->
  loads (IpuTraceEvent.compilation_report (IpuTraceEvent.compile_end evt))
  = Ok report ->
  loads (IpuTraceEvent.tensor_map (IpuTraceEvent.compile_end evt)) = Raise x ->
  let recorded :=
    ReportJSON.with_events (<[COMPILE_END := report]> (ReportJSON.events before))
      before in
  parse_events (pre ++ e :: post) assert_len msg self
  = match x with
    | UnicodeDecodeError => parse_loop post (ReportJSON.bump COMPILE_END h)
                              recorded
    | _ => (recorded, Raise x)
    end
  /\ ReportJSON.get_tensor_map recorded = None
  /\ ReportJSON.get_instruction_info recorded = JDict [].
Proof.
  intros Hc Hpre He Ht Hne Hv Hl Hx recorded.
  pose proof (parse_events_consistent pre None "" self before (Ok h)
                eq_refl Hpre) as [H1 H2].
  assert (Hnone : ReportJSON.tensor_map before = None).
  { destruct (ReportJSON.tensor_map before) as [tm|] eqn:E; [|reflexivity].
    destruct (H1 tm eq_refl) as [[? Hs] _]. congruence. }
  split; [|split; [exact Hnone|]].
  2: { unfold ReportJSON.get_instruction_info. subst recorded. state_simpl.
       destruct H2 as [?|[? ?]]; congruence. }
  rewrite parse_events_eq in Hpre. simpl in Hpre.
  rewrite parse_events_eq, Hc, parse_loop_app, Hpre, parse_loop_cons, He.
  unfold ReportJSON.try_except_UnicodeDecodeError.
  rewrite decode_event_cases. cbv zeta. rewrite Ht, Hne, Hv, Hl, Hx.
  by destruct x.
Qed.

Lemma count_kind_cons (kind : EventType) (evt : IpuTraceEvent.t)
    (evts : list IpuTraceEvent.t) :
  count_kind kind (evt :: evts)
  = ((if bool_decide (IpuTraceEvent.type evt = kind) then 1 else 0)
     + count_kind kind evts)%nat.
Proof.
  unfold count_kind. cbn [List.filter].
  by destruct (bool_decide (IpuTraceEvent.type evt = kind)).
Qed.

Lemma parse_loop_histogram (events : list record) :
  forall (h h' : gmap EventType nat) (self self' : ReportJSON.t),
    parse_loop events h self = (self', Ok h') ->
    exists evts,
      mapM FromString events = Ok evts
      /\ forall kind,
           h' !! kind
           = match count_kind kind evts with
             | O => h !! kind
             | S n => Some (default 0%nat (h !! kind) + S n)%nat
             end.
Proof.
  induction events as [|e rest IH]; intros h h' self self'.
  - intros [= _ <-]. by exists [].
  - rewrite parse_loop_cons.
    destruct (FromString e) as [evt|x] eqn:He; [|discriminate].
    destruct (try_decode evt self) as [s1 [[]|x]]; [|discriminate].
    intros H. apply IH in H as (evts & Hm & Hh).
    exists (evt :: evts). split.
    + cbn [mapM]. rewrite He. cbn [mbind result_bind]. by rewrite Hm.
    + intros kind. rewrite Hh, count_kind_cons. unfold ReportJSON.bump.
      destruct (decide (IpuTraceEvent.type evt = kind)) as [<-|Hne].
      * rewrite bool_decide_eq_true_2 by reflexivity.
        rewrite lookup_insert_eq.
        destruct (count_kind _ evts); cbn [default Nat.add]; unfold id;
          f_equal; lia.
      * rewrite bool_decide_eq_false_2 by exact Hne.
        by rewrite lookup_insert_ne by exact Hne.
Qed.

Lemma count_kind_total (evts : list IpuTraceEvent.t) :
  sum_list (map (fun kind => count_kind kind evts) all_kinds) = length evts.
Proof.
  induction evts as [|evt evts IH]; [reflexivity|].
  cbn [all_kinds map sum_list] in *. rewrite !count_kind_cons.
  cbn [length]. rewrite <- IH.
  destruct (IpuTraceEvent.type evt);
    repeat first [ rewrite bool_decide_eq_true_2 by reflexivity
                 | rewrite bool_decide_eq_false_2 by discriminate ].
  all: unfold id; lia.
Qed.

Lemma mapM_result_length {A B} (f : A -> result B) (l : list A) :
  forall ys, mapM f l = Ok ys -> length ys = length l.
Proof.
  induction l as [|x l IH]; intros ys; cbn [mapM].
  - by intros [= <-].
  - destruct (f x) as [b|e]; [|discriminate]. cbn [mbind result_bind].
    destruct (mapM f l) as [k|e]; [|discriminate].
    intros [= <-]. cbn [length]. by rewrite (IH k).
Qed.

(** X12: when [parse_events] returns, every record was deserialised and
    the returned histogram counts the events by kind: a kind that occurs
    is mapped to its number of occurrences, a kind that does not occur
    has no entry, and the counts add up to the number of events, whatever
    the payloads hold. *)
Theorem parse_events_histogram_counts_kinds (events : list record)
    (assert_len : option Z) (msg : string) (self self' : ReportJSON.t)
    (h : gmap EventType nat) :
  parse_events events assert_len msg self = (self', Ok h) ->
  exists evts,
    mapM FromString events = Ok evts
    /\ (forall kind,
          h !! kind = match count_kind kind evts with
                      | O => None
                      | S n => Some (S n)
                      end)
    /\ sum_list (map (fun kind => default 0%nat (h !! kind)) all_kinds)
       = length events.
Proof.
  rewrite parse_events_eq.
  destruct (count_passes assert_len (length events)); [|discriminate].
  intros H. apply parse_loop_histogram in H as (evts & Hm & Hh).
  exists evts. split; [exact Hm|]. split.
  - intros kind. rewrite Hh, lookup_empty. by destruct (count_kind kind evts).
  - rewrite <- (mapM_result_length _ _ _ Hm), <- count_kind_total.
    f_equal. apply map_ext. intros kind. rewrite Hh, lookup_empty.
    by destruct (count_kind kind evts).
Qed.

End DecodeMore.

Lemma parse_events_histogram_counts_kinds_witness :
  exists evts,
    mapM stored [execute_event ""; compile_end_event report_text;
                 execute_event bad_utf8] = Ok evts
    /\ (forall kind,
          histogram [execute_event ""; compile_end_event report_text;
                     execute_event bad_utf8] !! kind
          = match count_kind kind evts with
            | O => None
            | S n => Some (S n)
            end)
    /\ sum_list (map (fun kind =>
                        default 0%nat
                          (histogram [execute_event "";
                                      compile_end_event report_text;
                                      execute_event bad_utf8] !! kind))
                   all_kinds)
       = length [execute_event ""; compile_end_event report_text;
                 execute_event bad_utf8].
Proof.
  refine (parse_events_histogram_counts_kinds stored sample_loads
            [execute_event ""; compile_end_event report_text;
             execute_event bad_utf8] (Some 3) "" blank
            (decoded [execute_event ""; compile_end_event report_text;
                      execute_event bad_utf8]) _ _).
  vm_compute. reflexivity.
Defined.

Lemma recorded_payloads_come_from_events_witness :
  exists e evt p w,
    In e [compile_end_event report_text; execute_event bad_json]
    /\ stored e = Ok evt
    /\ IpuTraceEvent.type evt = COMPILE_END
    /\ payload evt = Some p /\ nonempty p = true /\ sample_loads p = Ok w
    /\ (COMPILE_END <> EXECUTE -> report_value = w).
Proof.
  refine (proj1 (recorded_payloads_come_from_events stored sample_loads
                   [compile_end_event report_text; execute_event bad_json]
                   None "" blank
                   (decoded [compile_end_event report_text;
                             execute_event bad_json])
                   (Raise ValueError) _ _) COMPILE_END report_value _);
    vm_compute; reflexivity.
Defined.

Lemma execution_reports_accumulate_in_order_witness :
  ReportJSON.get_execution_reports
    (decoded [execute_event "{}"; execute_event bad_utf8; execute_event "";
              execute_event transfer_text])
  = Ok (JList [JDict []; transfer_value]).
Proof.
  refine (execution_reports_accumulate_in_order stored sample_loads
            [execute_event "{}"; execute_event bad_utf8; execute_event "";
             execute_event transfer_text] _ None "" blank _
            (histogram [execute_event "{}"; execute_event bad_utf8;
                        execute_event ""; execute_event transfer_text])
            eq_refl _).
  vm_compute. reflexivity.
Defined.

Lemma decodable_payload_is_recorded_witness :
  ReportJSON.event HOST_TO_DEVICE_TRANSFER
    (decoded [transfer_event HOST_TO_DEVICE_TRANSFER bad_utf8;
              transfer_event HOST_TO_DEVICE_TRANSFER transfer_text])
  = Ok transfer_value.
Proof.
  refine (proj1 (decodable_payload_is_recorded stored sample_loads
                   [transfer_event HOST_TO_DEVICE_TRANSFER bad_utf8;
                    transfer_event HOST_TO_DEVICE_TRANSFER transfer_text]
                   (transfer_event HOST_TO_DEVICE_TRANSFER transfer_text)
                   (transfer_event HOST_TO_DEVICE_TRANSFER transfer_text)
                   transfer_text transfer_value None "" blank _
                   (histogram
                      [transfer_event HOST_TO_DEVICE_TRANSFER bad_utf8;
                       transfer_event HOST_TO_DEVICE_TRANSFER transfer_text])
                   _ _ eq_refl eq_refl eq_refl eq_refl)).
  - vm_compute. reflexivity.
  - right. by left.
Defined.

Lemma tensor_map_agrees_with_report_witness :
  is_Some (ReportJSON.events (decoded [compile_end_event report_text])
           !! COMPILE_END)
  /\ ReportJSON.get_num_tiles_per_ipu (decoded [compile_end_event report_text])
     = Ok (TensorMap.num_tiles_per_ipu sample_tensor_map).
Proof.
  refine (proj1 (tensor_map_agrees_with_report stored sample_loads
                   [compile_end_event report_text] None "" blank
                   (decoded [compile_end_event report_text])
                   (Ok (histogram [compile_end_event report_text])) _ _)
            sample_tensor_map _);
    vm_compute; reflexivity.
Defined.

Lemma undecodable_tensor_map_keeps_report_witness :
  ReportJSON.parse_events stored sample_loads
    ([execute_event ""] ++ compile_end_with report_text bad_utf8 "{}"
       :: [execute_event "{}"]) (Some 3) "" blank
  = ReportJSON.parse_loop stored sample_loads [execute_event "{}"]
      (ReportJSON.bump COMPILE_END (histogram [execute_event ""]))
      (ReportJSON.with_events
         (<[COMPILE_END := report_value]>
            (ReportJSON.events (decoded [execute_event ""])))
         (decoded [execute_event ""])).
Proof.
  refine (proj1 (undecodable_tensor_map_keeps_report stored sample_loads
                   [execute_event ""] [execute_event "{}"]
                   (compile_end_with report_text bad_utf8 "{}")
                   (compile_end_with report_text bad_utf8 "{}")
                   report_value UnicodeDecodeError (Some 3) "" blank
                   (decoded [execute_event ""])
                   (histogram [execute_event ""]) _ _ _ _ _ _ _ _));
    vm_compute; reflexivity.
Defined.

(** ** Instruction kinds *)

Lemma increment_four (a b c d k : Z) :
  ReportJSON.increment [a; b; c; d] k
  = if bool_decide (k = 0 \/ k = -4) then Ok [a + 1; b; c; d]
    else if bool_decide (k = 1 \/ k = -3) then Ok [a; b + 1; c; d]
    else if bool_decide (k = 2 \/ k = -2) then Ok [a; b; c + 1; d]
    else if bool_decide (k = 3 \/ k = -1) then Ok [a; b; c; d + 1]
    else Raise IndexError.
Proof.
  assert (Hk : k < -4 \/ k = -4 \/ k = -3 \/ k = -2 \/ k = -1 \/ k = 0
               \/ k = 1 \/ k = 2 \/ k = 3 \/ 3 < k) by lia.
  destruct Hk as [Hk|[->|[->|[->|[->|[->|[->|[->|[->|Hk]]]]]]]]];
    try reflexivity.
  - repeat rewrite bool_decide_eq_false_2 by lia.
    unfold ReportJSON.increment, Py.index_list. cbn [length].
    destruct (k <? 0) eqn:E; [|apply Z.ltb_ge in E; lia].
    replace (k + Z.of_nat 4 <? 0) with true by (symmetry; apply Z.ltb_lt; lia).
    reflexivity.
  - repeat rewrite bool_decide_eq_false_2 by lia.
    unfold ReportJSON.increment, Py.index_list. cbn [length].
    destruct (k <? 0) eqn:E; [apply Z.ltb_lt in E; lia|].
    replace (Z.of_nat 4 <=? k) with true by (symmetry; apply Z.leb_le; lia).
    by rewrite orb_true_r.
Qed.

Lemma four_eq (a b c d a' b' c' d' : Z) :
  a = a' -> b = b' -> c = c' -> d = d' -> [a; b; c; d] = [a'; b'; c'; d'].
Proof. by intros -> -> -> ->. Qed.

Lemma ml_type_int (v : json) :
  ReportJSON.ml_type v
  = match int_value v with
    | Some n => Ok (n - 1)
    | None => Raise TypeError
    end.
Proof. by destruct v as [|[]| | | | |]. Qed.

Lemma count_value_cons (k : Z) (v : json) (vs : list json) :
  count_value k (v :: vs)
  = (if bool_decide (int_value v = Some k) then 1 else 0) + count_value k vs.
Proof.
  unfold count_value. cbn [List.filter].
  destruct (bool_decide (int_value v = Some k)); cbn [length]; lia.
Qed.

Lemma count_types_from (vs : list json) :
  forall (a b c d : Z) (res : list Z),
    foldl (fun acc i => res ← acc; k ← ReportJSON.ml_type i;
                        ReportJSON.increment res k)
          (Ok [a; b; c; d]) vs = Ok res <->
    Forall (fun v => exists n, int_value v = Some n /\ -3 <= n <= 4) vs
    /\ res = [a + count_value 1 vs + count_value (-3) vs;
              b + count_value 2 vs + count_value (-2) vs;
              c + count_value 3 vs + count_value (-1) vs;
              d + count_value 4 vs + count_value 0 vs].
Proof.
  assert (Hraise : forall (l : list json) (x : exn) (res : list Z),
             foldl (fun acc i => res ← acc; k ← ReportJSON.ml_type i;
                                 ReportJSON.increment res k)
                   (Raise x) l <> Ok res).
  { induction l as [|v l IH]; intros x res; [discriminate | apply IH]. }
  induction vs as [|v vs IH]; intros a b c d res.
  - cbn [foldl]. unfold count_value. cbn. split.
    + intros [= <-]. split; [constructor|].
      apply four_eq; lia.
    + intros [_ ->].
      f_equal; apply four_eq; lia.
  - cbn [foldl mbind result_bind]. rewrite ml_type_int, !count_value_cons.
    destruct (int_value v) as [n|] eqn:Hv; cbn [mbind result_bind].
    2: { split; [intros H; by apply Hraise in H|].
         intros [H _]. inversion H as [|? ? (n & Hn & _) _]. congruence. }
    rewrite increment_four.
    assert (Hn : n < -3 \/ n = -3 \/ n = -2 \/ n = -1 \/ n = 0
                 \/ n = 1 \/ n = 2 \/ n = 3 \/ n = 4 \/ 4 < n) by lia.
    destruct Hn as [Hn|[->|[->|[->|[->|[->|[->|[->|[->|Hn]]]]]]]]].
    1, 10: repeat rewrite (bool_decide_eq_false_2 (_ \/ _)) by lia;
      (split; [intros H; by apply Hraise in H|]);
      intros [H _]; inversion H as [|? ? (n' & Hn' & Hr) _];
      assert (n' = n) by congruence; lia.
    all: repeat first [ rewrite (bool_decide_eq_true_2 (_ \/ _)) by lia
                      | rewrite (bool_decide_eq_false_2 (_ \/ _)) by lia ];
      rewrite IH;
      repeat first [ rewrite bool_decide_eq_true_2 by reflexivity
                   | rewrite bool_decide_eq_false_2 by discriminate ];
      (split; intros [H ->];
       (split;
        [ first [ constructor; [eexists; split; [exact Hv | lia] | exact H]
                | by inversion H ]
        | apply four_eq; lia ])).
Qed.

Lemma count_value_total (vs : list json) :
  Forall (fun v => exists n, int_value v = Some n /\ -3 <= n <= 4) vs ->
  count_value 1 vs + count_value (-3) vs
  + (count_value 2 vs + count_value (-2) vs)
  + (count_value 3 vs + count_value (-1) vs)
  + (count_value 4 vs + count_value 0 vs)
  = Z.of_nat (length vs).
Proof.
  induction 1 as [|v vs (n & Hv & Hn) _ IH]; [reflexivity|].
  rewrite !count_value_cons, Hv. cbn [length].
  assert (Hc : n = -3 \/ n = -2 \/ n = -1 \/ n = 0
               \/ n = 1 \/ n = 2 \/ n = 3 \/ n = 4) by lia.
  destruct Hc as [->|[->|[->|[->|[->|[->|[->| ->]]]]]]];
    repeat first [ rewrite bool_decide_eq_true_2 by reflexivity
                 | rewrite bool_decide_eq_false_2 by discriminate ]; lia.
Qed.

(** X13: [get_ml_type_counts] returns exactly when every value of
    [ml_types] is an integer from -3 to 4.  Slot [k] of the four counts
    then holds the number of values [k + 1] plus, because a negative
    index counts from the end of the list, the number of values [k - 3]:
    a value 0 is counted in the last slot.  The four counts add up to the
    number of entries. *)
Theorem ml_type_counts_wrap_around (self : ReportJSON.t) (types : json)
    (vs : list json) (res : list Z) :
  Py.getitem (ReportJSON.instruction_info self) "ml_types" = Ok types ->
  values types = Ok vs ->
  (ReportJSON.get_ml_type_counts self = Ok res <->
   Forall (fun v => exists n, int_value v = Some n /\ -3 <= n <= 4) vs
   /\ res = [count_value 1 vs + count_value (-3) vs;
             count_value 2 vs + count_value (-2) vs;
             count_value 3 vs + count_value (-1) vs;
             count_value 4 vs + count_value 0 vs])
  /\ (ReportJSON.get_ml_type_counts self = Ok res ->
      foldr Z.add 0 res = Z.of_nat (length vs)).
Proof.
  intros Ht Hvs.
  assert (E : ReportJSON.get_ml_type_counts self = Ok res <->
              Forall (fun v => exists n, int_value v = Some n /\ -3 <= n <= 4)
                vs
              /\ res = [count_value 1 vs + count_value (-3) vs;
                        count_value 2 vs + count_value (-2) vs;
                        count_value 3 vs + count_value (-1) vs;
                        count_value 4 vs + count_value 0 vs]).
  { unfold ReportJSON.get_ml_type_counts. rewrite Ht. cbn [mbind result_bind].
    rewrite Hvs. cbn [mbind result_bind]. by rewrite count_types_from. }
  split; [exact E|].
  intros H. apply E in H as [Hall ->]. cbn [foldr].
  rewrite <- (count_value_total vs Hall). lia.
Qed.

Lemma ml_type_counts_wrap_around_witness :
  ReportJSON.get_ml_type_counts
    (ReportJSON.with_instruction_info
       (JDict [("ml_types",
                JDict [("a", JInt 1); ("b", JInt 0); ("c", JInt 4)])]) blank)
  = Ok [1; 0; 0; 2].
Proof.
  apply (proj1 (ml_type_counts_wrap_around
                  (ReportJSON.with_instruction_info
                     (JDict [("ml_types",
                              JDict [("a", JInt 1); ("b", JInt 0);
                                     ("c", JInt 4)])]) blank)
                  (JDict [("a", JInt 1); ("b", JInt 0); ("c", JInt 4)])
                  [JInt 1; JInt 0; JInt 4] [1; 0; 0; 2] eq_refl eq_refl)).
  split; [|reflexivity].
  repeat constructor; eexists; (split; [reflexivity | lia]).
Defined.

(** ** Assertions on the decoded report *)

(** X14: [assert_no_compute_set] reads the names with [dict.get] and
    defaults, so it leaves [self] alone and passes when the compile
    report, its [computeSets] or the [names] are missing, where
    [get_compute_sets] raises [KeyError]; when [get_compute_sets] returns
    the names, it passes exactly when they are empty. *)
Theorem assert_no_compute_set_defaults (self : ReportJSON.t) :
  (forall k, ReportJSON.get_compute_sets self = Raise (KeyError k) ->
             ReportJSON.assert_no_compute_set self = (self, Ok tt))
  /\ (forall names,
        ReportJSON.get_compute_sets self = Ok names ->
        ReportJSON.assert_no_compute_set self
        = (self, if Py.truth names then Raise AssertionError else Ok tt))
  /\ fst (ReportJSON.assert_no_compute_set self) = self.
Proof.
  unfold ReportJSON.assert_no_compute_set, ReportJSON.get_compute_sets,
    ReportJSON.event, ReportJSON.path, ReportJSON.bind, ReportJSON.call,
    ReportJSON.assertFalse, ReportJSON.raise, ReportJSON.lift, ReportJSON.ret.
  cbn [foldl mbind result_bind].
  destruct (ReportJSON.events self !! COMPILE_END) as [[| | | | | |d]|];
    cbn; try (split_and!; intros; simplify_eq; done).
  destruct (dict_get "computeSets" d) as [[| | | | | |d']|];
    cbn; try (split_and!; intros; simplify_eq; done).
  destruct (dict_get "names" d') as [names|];
    cbn; split_and!; intros; simplify_eq; try done;
    by destruct (Py.truth _).
Qed.

(** *** Transfer names *)

Lemma len_iterate (v : json) (xs : list json) :
  Py.iterate v = Ok xs -> Py.len v = Ok (Z.of_nat (length xs)).
Proof.
  destruct v; try discriminate; intros [= <-]; cbn [Py.len];
    by rewrite ?length_map, ?length_chars.
Qed.

Lemma recorded_tensors_length (kind : EventType) (self : ReportJSON.t)
    (v : json) (names : list json) :
  ReportJSON.events self !! kind = Some v ->
  ReportJSON.tensor_names v = Ok (JList names) ->
  ReportJSON.recorded_tensors kind self = Ok (Z.of_nat (length names)).
Proof.
  unfold ReportJSON.recorded_tensors, ReportJSON.tensor_names. intros -> H.
  cbn [default from_option id]. destruct v as [| | | | | |d]; try discriminate.
  cbn [Py.getitem get_default] in *.
  destruct (dict_get "tensors" d) as [ts|]; [|discriminate].
  cbn [default from_option id mbind result_bind] in *.
  destruct (Py.iterate ts) as [xs|x] eqn:Hx; [|discriminate].
  cbn [mbind result_bind] in H.
  destruct (mapM _ xs) as [ns|x] eqn:Hn; [|discriminate].
  injection H as <-.
  rewrite (len_iterate _ _ Hx). by rewrite (mapM_result_length _ _ _ Hn).
Qed.

Lemma select_strings (ts : list string) (pat : string) :
  select (fun s => fnmatch_value s pat) (map JStr ts)
  = Ok (map JStr (List.filter (fun s => fnmatch s pat) ts)).
Proof.
  induction ts as [|s ts IH]; [reflexivity|].
  cbn [map select fnmatch_value mbind result_bind List.filter].
  rewrite IH. cbn [mbind result_bind]. by destruct (fnmatch s pat).
Qed.

Lemma count_matches_in_strings (ts : list string) (to_match : string) :
  count_matches_in_value (JList (map JStr ts)) to_match
  = Ok (count_matches_in_list ts to_match).
Proof.
  unfold count_matches_in_value, count_matches_in_list.
  cbn [Py.iterate mbind result_bind]. rewrite select_strings.
  cbn [mbind result_bind]. by rewrite length_map.
Qed.

Section EventNames.
Variable kind : EventType.
Variable get_event_names : ReportJSON.t -> result json.
Variable self : ReportJSON.t.
Variable msg : option string.

Lemma assert_event_names_unrecorded (names : list string) :
  ReportJSON.events self !! kind = None ->
  ReportJSON.assert_event_names kind get_event_names names msg self
  = (self, match names with
           | [] => Ok tt
           | _ => Raise (TestFailure (Z.of_nat (length names)) 0
                           (default "" msg))
           end).
Proof.
  intros Hn. unfold ReportJSON.assert_event_names, ReportJSON.bind,
    ReportJSON.call, ReportJSON.recorded_tensors. rewrite Hn.
  cbn [default from_option id get_default dict_get mbind result_bind Py.len
       length].
  unfold ReportJSON.assertEqual, ReportJSON.raise, ReportJSON.lift,
    ReportJSON.ret.
  destruct names as [|n names]; [reflexivity|].
  destruct (Z.of_nat (length (n :: names)) =? Z.of_nat 0) eqn:E;
    [apply Z.eqb_eq in E; simpl in E; lia | reflexivity].
Qed.

Lemma for_each_names (ts names : list string) :
  get_event_names self = Ok (JList (map JStr ts)) ->
  Forall (fun name => literal name = true) names ->
  ReportJSON.for_each names
    (fun name =>
       ReportJSON.bind (ReportJSON.call get_event_names) (fun got =>
       ReportJSON.bind (ReportJSON.lift (count_matches_in_value got name))
         (fun n => ReportJSON.assertEqual n 1 (default "" msg)))) self
  = (self, Ok tt)
  <-> Forall (fun name => count_occ string_dec ts name = 1%nat) names.
Proof.
  intros Hg. induction 1 as [|name names Hl _ IH].
  - split; [constructor | reflexivity].
  - cbn [ReportJSON.for_each]. unfold ReportJSON.bind at 1 2 3.
    unfold ReportJSON.call at 1, ReportJSON.lift at 1. rewrite Hg.
    rewrite count_matches_in_strings.
    rewrite (count_matches_literal ts name Hl).
    unfold ReportJSON.assertEqual, ReportJSON.raise, ReportJSON.lift,
      ReportJSON.ret.
    destruct (Z.of_nat (count_occ string_dec ts name) =? 1) eqn:E.
    + apply Z.eqb_eq in E. rewrite IH. split.
      * intros H. constructor; [lia | exact H].
      * by inversion 1.
    + apply Z.eqb_neq in E. split; [discriminate|].
      inversion 1; lia.
Qed.

Lemma assert_event_names_recorded (v : json) (ts names : list string) :
  ReportJSON.events self !! kind = Some v ->
  ReportJSON.tensor_names v = Ok (JList (map JStr ts)) ->
  get_event_names self = Ok (JList (map JStr ts)) ->
  Forall (fun name => literal name = true) names ->
  ReportJSON.assert_event_names kind get_event_names names msg self
  = (self, Ok tt)
  <-> length names = length ts
      /\ Forall (fun name => count_occ string_dec ts name = 1%nat) names.
Proof.
  intros Hv Ht Hg Hl. unfold ReportJSON.assert_event_names.
  unfold ReportJSON.bind at 1 2. unfold ReportJSON.call at 1.
  rewrite (recorded_tensors_length kind self v _ Hv Ht), length_map.
  unfold ReportJSON.assertEqual at 1, ReportJSON.raise, ReportJSON.lift,
    ReportJSON.ret.
  destruct (Z.of_nat (length names) =? Z.of_nat (length ts)) eqn:E.
  - apply Z.eqb_eq in E. rewrite (for_each_names ts names Hg Hl).
    split; [intros H; split; [lia | exact H] | tauto].
  - apply Z.eqb_neq in E. split; [discriminate|]. intros [H _]. lia.
Qed.

End EventNames.

Lemma once_each_is_permutation (ts names : list string) :
  NoDup names ->
  length names = length ts /\
  Forall (fun name => count_occ string_dec ts name = 1%nat) names
  <-> names ≡ₚ ts.
Proof.
  intros Hnd. split.
  - intros [Hlen Hall]. apply submseteq_length_Permutation; [|lia].
    apply NoDup_submseteq; [exact Hnd|].
    intros x Hx. rewrite List.Forall_forall in Hall.
    apply list_elem_of_In, (count_occ_In string_dec).
    rewrite (Hall x) by (by apply list_elem_of_In). lia.
  - intros Hp. split; [by rewrite Hp|].
    apply List.Forall_forall. intros x Hx.
    assert (Hnd' : NoDup ts) by (by rewrite <- Hp).
    apply NoDup_ListNoDup in Hnd'.
    rewrite (List.NoDup_count_occ string_dec) in Hnd'.
    assert (Hin : In x ts).
    { apply list_elem_of_In. rewrite <- Hp. by apply list_elem_of_In. }
    apply (count_occ_In string_dec) in Hin. specialize (Hnd' x). lia.
Qed.

(** X15: when a transfer payload is recorded whose tensor names are the
    strings [ts], [assert_host_to_device_event_names] (and its
    device-to-host twin) with literal names passes exactly when there are
    as many names as tensors and each name occurs once among the tensor
    names; for names without repetition that is: exactly when [names] is
    a permutation of the tensor names. *)
Theorem event_names_assertion_checks_permutation (self : ReportJSON.t)
    (v : json) (ts names : list string) (msg : option string) :
  ReportJSON.tensor_names v = Ok (JList (map JStr ts)) ->
  Forall (fun name => literal name = true) names ->
  (ReportJSON.events self !! HOST_TO_DEVICE_TRANSFER = Some v ->
   (ReportJSON.assert_host_to_device_event_names names msg self
    = (self, Ok tt)
    <-> length names = length ts
        /\ Forall (fun name => count_occ string_dec ts name = 1%nat) names)
   /\ (NoDup names ->
       ReportJSON.assert_host_to_device_event_names names msg self
       = (self, Ok tt) <-> names ≡ₚ ts))
  /\ (ReportJSON.events self !! DEVICE_TO_HOST_TRANSFER = Some v ->
      (ReportJSON.assert_device_to_host_event_names names msg self
       = (self, Ok tt)
       <-> length names = length ts
           /\ Forall (fun name => count_occ string_dec ts name = 1%nat) names)
      /\ (NoDup names ->
          ReportJSON.assert_device_to_host_event_names names msg self
          = (self, Ok tt) <-> names ≡ₚ ts)).
Proof.
  intros Ht Hl. split; intros Hv.
  - assert (E : ReportJSON.assert_host_to_device_event_names names msg self
                = (self, Ok tt)
                <-> length names = length ts
                    /\ Forall (fun name =>
                                 count_occ string_dec ts name = 1%nat) names).
    { apply (assert_event_names_recorded _ _ _ _ v); try assumption.
      unfold ReportJSON.get_host_to_device_event_names, ReportJSON.event.
      by rewrite Hv. }
    split; [exact E|]. intros Hnd.
    by rewrite E, (once_each_is_permutation ts names Hnd).
  - assert (E : ReportJSON.assert_device_to_host_event_names names msg self
                = (self, Ok tt)
                <-> length names = length ts
                    /\ Forall (fun name =>
                                 count_occ string_dec ts name = 1%nat) names).
    { apply (assert_event_names_recorded _ _ _ _ v); try assumption.
      unfold ReportJSON.get_device_to_host_event_names, ReportJSON.event.
      by rewrite Hv. }
    split; [exact E|]. intros Hnd.
    by rewrite E, (once_each_is_permutation ts names Hnd).
Qed.

(** X16: with no transfer payload recorded, the assertions on the
    transfer names compare [len(names)] with 0 before any name is looked
    up: they pass for an empty [names], fail with the two lengths
    otherwise, and never raise the [KeyError] of the name queries. *)
Theorem event_names_assertion_without_transfer (self : ReportJSON.t)
    (names : list string) (msg : option string) :
  (ReportJSON.events self !! HOST_TO_DEVICE_TRANSFER = None ->
   ReportJSON.assert_host_to_device_event_names names msg self
   = (self, match names with
            | [] => Ok tt
            | _ => Raise (TestFailure (Z.of_nat (length names)) 0
                            (default "" msg))
            end)
   /\ ReportJSON.get_host_to_device_event_names self
      = Raise (KeyError (KEvent HOST_TO_DEVICE_TRANSFER)))
  /\ (ReportJSON.events self !! DEVICE_TO_HOST_TRANSFER = None ->
      ReportJSON.assert_device_to_host_event_names names msg self
      = (self, match names with
               | [] => Ok tt
               | _ => Raise (TestFailure (Z.of_nat (length names)) 0
                               (default "" msg))
               end)
      /\ ReportJSON.get_device_to_host_event_names self
         = Raise (KeyError (KEvent DEVICE_TO_HOST_TRANSFER))).
Proof.
  split; intros Hn; (split; [by apply assert_event_names_unrecorded|]).
  - unfold ReportJSON.get_host_to_device_event_names, ReportJSON.event.
    by rewrite Hn.
  - unfold ReportJSON.get_device_to_host_event_names, ReportJSON.event.
    by rewrite Hn.
Qed.

Lemma event_names_assertion_checks_permutation_witness :
  ReportJSON.assert_host_to_device_event_names ["b"; "a"] None
    (recorded HOST_TO_DEVICE_TRANSFER named_transfer)
  = (recorded HOST_TO_DEVICE_TRANSFER named_transfer, Ok tt)
  <-> ["b"; "a"] ≡ₚ ["a"; "b"].
Proof.
  refine (proj2 (proj1 (event_names_assertion_checks_permutation
                          (recorded HOST_TO_DEVICE_TRANSFER named_transfer)
                          named_transfer ["a"; "b"] ["b"; "a"] None
                          eq_refl _) eq_refl) _).
  - repeat constructor.
  - apply (bool_decide_unpack (NoDup ["b"; "a"])). vm_compute. exact I.
Defined.

(** ** Filtering serialised events *)

Section ExtractProperties.
Context {record : Type}.
Variable FromString : record -> result IpuTraceEvent.t.
Variable loads : string -> result json.

Lemma extract_loop_filter (keep : IpuTraceEvent.t -> bool)
    (events : list record) :
  forall found : list IpuTraceEvent.t,
    extract_loop FromString keep events found
    = (evts ← mapM FromString events; Ok (found ++ List.filter keep evts)).
Proof.
  induction events as [|e rest IH]; intros found.
  - cbn. by rewrite app_nil_r.
  - cbn [extract_loop mapM]. destruct (FromString e) as [evt|x]; [|reflexivity].
    cbn [mbind result_bind]. rewrite IH.
    destruct (mapM FromString rest) as [evts|x]; [|reflexivity].
    cbn [mbind result_bind mret result_ret List.filter].
    destruct (keep evt); [by rewrite <- app_assoc | reflexivity].
Qed.

(** X17: the two extraction functions deserialise every record, so
    they fail as soon as one record of any kind cannot be read, and
    otherwise return, in the order of the list, the [EXECUTE] events,
    respectively the [COMPILE_END] events with a non-empty report. *)
Theorem extract_events_is_filter (events : list record) :
  extract_all_execute_events FromString events
  = (evts ← mapM FromString events;
     Ok (List.filter
           (fun evt => bool_decide (IpuTraceEvent.type evt = EXECUTE)) evts))
  /\ extract_all_compile_end_events FromString events
     = (evts ← mapM FromString events;
        Ok (List.filter
              (fun evt =>
                 bool_decide (IpuTraceEvent.type evt = COMPILE_END)
                 && nonempty (IpuTraceEvent.compilation_report
                                (IpuTraceEvent.compile_end evt))) evts)).
Proof.
  unfold extract_all_execute_events, extract_all_compile_end_events.
  by rewrite !extract_loop_filter.
Qed.

Lemma filter_and_length {A} (f g : A -> bool) (l : list A) :
  (length (List.filter (fun x => f x && g x) l)
   <= length (List.filter f l))%nat.
Proof.
  induction l as [|x l IH]; [reflexivity|]. cbn [List.filter].
  destruct (f x), (g x); cbn [andb length]; lia.
Qed.

(** X18: when [parse_events] returns for a list of records, the two
    extraction functions return for it too: there are as many extracted
    [EXECUTE] events as the histogram counts, at most as many extracted
    compile-end events as it counts [COMPILE_END] events, and at least
    one whenever a compile report was recorded. *)
Theorem extracted_events_agree_with_histogram (events : list record)
    (assert_len : option Z) (msg : string) (self self' : ReportJSON.t)
    (h : gmap EventType nat) :
  ReportJSON.parse_events FromString loads events assert_len msg self
  = (self', Ok h) ->
  exists executes compile_ends,
    extract_all_execute_events FromString events = Ok executes
    /\ extract_all_compile_end_events FromString events = Ok compile_ends
    /\ length executes = default 0%nat (h !! EXECUTE)
    /\ (length compile_ends <= default 0%nat (h !! COMPILE_END))%nat
    /\ (is_Some (ReportJSON.events self' !! COMPILE_END) ->
        compile_ends <> []).
Proof.
  intros Hp.
  assert (Hpass : count_passes assert_len (length events) = true).
  { rewrite parse_events_eq in Hp.
    by destruct (count_passes assert_len (length events)). }
  pose proof Hp as Hloop. rewrite parse_events_eq, Hpass in Hloop.
  destruct (parse_loop_histogram FromString loads _ _ _ _ _ Hloop)
    as (evts & Hm & Hh).
  unfold extract_all_execute_events, extract_all_compile_end_events.
  rewrite !extract_loop_filter, Hm. cbn [mbind result_bind app].
  eexists _, _. split; [reflexivity|]. split; [reflexivity|].
  assert (Hc : forall kind, default 0%nat (h !! kind) = count_kind kind evts).
  { intros kind. rewrite Hh, lookup_empty.
    by destruct (count_kind kind evts). }
  split; [by rewrite Hc|]. split; [rewrite Hc; apply filter_and_length|].
  intros [v Hv] Hnil.
  destruct (recorded_from_events FromString loads _ _ _ _ _ _ Hpass Hp _ _ Hv)
    as (e & evt & p & w & Hin & He & Ht & Hpl & Hne & _).
  assert (Hevt : In evt evts).
  { apply (mapM_result_elem _ _ _ Hm). by exists e. }
  unfold payload, singleton_payload in Hpl. rewrite Ht in Hpl.
  injection Hpl as <-.
  assert (Hf : In evt (List.filter
                         (fun evt =>
                            bool_decide (IpuTraceEvent.type evt = COMPILE_END)
                            && nonempty (IpuTraceEvent.compilation_report
                                           (IpuTraceEvent.compile_end evt)))
                         evts)).
  { apply filter_In. split; [exact Hevt|].
    by rewrite Hne, bool_decide_eq_true_2. }
  by rewrite Hnil in Hf.
Qed.

End ExtractProperties.

Lemma extracted_events_agree_with_histogram_witness :
  exists executes compile_ends,
    extract_all_execute_events stored
      [execute_event ""; compile_end_event report_text; execute_event "{}"]
    = Ok executes
    /\ extract_all_compile_end_events stored
         [execute_event ""; compile_end_event report_text; execute_event "{}"]
       = Ok compile_ends
    /\ length executes
       = default 0%nat
           (histogram [execute_event ""; compile_end_event report_text;
                       execute_event "{}"] !! EXECUTE)
    /\ (length compile_ends
        <= default 0%nat
             (histogram [execute_event ""; compile_end_event report_text;
                         execute_event "{}"] !! COMPILE_END))%nat
    /\ (is_Some (ReportJSON.events
                   (decoded [execute_event ""; compile_end_event report_text;
                             execute_event "{}"]) !! COMPILE_END) ->
        compile_ends <> []).
Proof.
  refine (extracted_events_agree_with_histogram stored sample_loads
            [execute_event ""; compile_end_event report_text;
             execute_event "{}"] None "" blank _ _ _).
  vm_compute. reflexivity.
Defined.

(** ** Tiles of a tensor map *)

Lemma tensor_tile_ids_elem (tensor : TensorMap.Tensor.t) (ids : gset Z) :
  TensorMap.Tensor.tile_ids tensor = Ok ids ->
  forall t : Z,
    t ∈ ids <->
    exists tile,
      In tile (TensorMap.Tensor.tiles tensor)
      /\ TensorMap.Tile.tile tile = JInt t.
Proof.
  unfold TensorMap.Tensor.tile_ids.
  destruct (mapM _ (TensorMap.Tensor.tiles tensor)) as [l|x] eqn:E;
    [|discriminate].
  intros [= <-] t.
  rewrite elem_of_list_to_set, list_elem_of_In, (mapM_result_elem _ _ _ E).
  split; intros (tile & Hin & H); exists tile; (split; [exact Hin|]).
  - by destruct (TensorMap.Tile.tile tile); simplify_eq.
  - by rewrite H.
Qed.

Lemma update_all_elem (tensors : list TensorMap.Tensor.t) :
  forall ids0 ids : gset Z,
    TensorMap.update_all tensors ids0 = Ok ids ->
    forall t : Z,
      t ∈ ids <->
      t ∈ ids0
      \/ exists tensor tile,
           In tensor tensors /\ In tile (TensorMap.Tensor.tiles tensor)
           /\ TensorMap.Tile.tile tile = JInt t.
Proof.
  induction tensors as [|tensor rest IH]; intros ids0 ids.
  - intros [= <-] t. split; [by left | intros [H|(? & ? & [] & _)]; exact H].
  - cbn [TensorMap.update_all].
    destruct (TensorMap.Tensor.tile_ids tensor) as [new|x] eqn:E;
      [|discriminate].
    cbn [mbind result_bind]. intros H t.
    rewrite (IH _ _ H t), elem_of_union, (tensor_tile_ids_elem _ _ E t).
    split.
    + intros [[H0|(tile & Hin & Ht)]|(tn & tile & Hin & Hin' & Ht)];
        [by left | right | right].
      * exists tensor, tile. split; [by left | by split].
      * exists tn, tile. split; [by right | by split].
    + intros [H0|(tn & tile & [<-|Hin] & Hin' & Ht)].
      * left. by left.
      * left. right. by exists tile.
      * right. by exists tn, tile.
Qed.

Lemma collect_elem (self : TensorMap.t) (computations : list string) :
  forall ids0 ids : gset Z,
    TensorMap.collect self computations ids0 = Ok ids ->
    forall t : Z,
      t ∈ ids <->
      t ∈ ids0
      \/ exists c tensors tensor tile,
           In c computations
           /\ dict_get c (TensorMap.mappings self) = Some tensors
           /\ In tensor tensors /\ In tile (TensorMap.Tensor.tiles tensor)
           /\ TensorMap.Tile.tile tile = JInt t.
Proof.
  induction computations as [|c rest IH]; intros ids0 ids.
  - intros [= <-] t.
    split; [by left | intros [H|(? & ? & ? & ? & [] & _)]; exact H].
  - cbn [TensorMap.collect].
    destruct (dict_get c (TensorMap.mappings self)) as [tensors|] eqn:Ec;
      [|discriminate].
    destruct (TensorMap.update_all tensors ids0) as [ids1|x] eqn:E;
      [|discriminate].
    cbn [mbind result_bind]. intros H t.
    rewrite (IH _ _ H t), (update_all_elem _ _ _ E t). split.
    + intros [[H0|(tn & tile & Hin & Hin' & Ht)]
             |(c' & ts & tn & tile & Hc & Hd & Hin & Hin' & Ht)];
        [by left | right | right].
      * exists c, tensors, tn, tile. split; [by left | by repeat split].
      * exists c', ts, tn, tile. split; [by right | by repeat split].
    + intros [H0|(c' & ts & tn & tile & [<-|Hc] & Hd & Hin & Hin' & Ht)].
      * left. by left.
      * left. right. rewrite Ec in Hd. injection Hd as <-.
        by exists tn, tile.
      * right. by exists c', ts, tn, tile.
Qed.

Lemma dict_get_In {V} (k : string) (d : list (string * V)) (v : V) :
  dict_get k d = Some v -> In (k, v) d.
Proof.
  induction d as [|[k' v'] d IH]; [discriminate|]. cbn [dict_get].
  destruct (String.eqb k k') eqn:E.
  - apply String.eqb_eq in E as <-. intros [= <-]. by left.
  - intros H. right. by apply IH.
Qed.

Lemma dict_get_NoDup {V} (k : string) (d : list (string * V)) (v : V) :
  NoDup (map fst d) -> In (k, v) d -> dict_get k d = Some v.
Proof.
  induction d as [|[k' v'] d IH]; [intros _ []|].
  cbn [map fst dict_get]. intros Hnd [[= -> ->]|Hin].
  - by rewrite String.eqb_refl.
  - apply NoDup_cons in Hnd as [Hk Hnd].
    destruct (String.eqb k k') eqn:E; [|by apply IH].
    apply String.eqb_eq in E as <-. exfalso. apply Hk.
    apply list_elem_of_In, in_map_iff. by exists (k, v).
Qed.

(** X19: when [tile_ids] returns for a list of computations, it
    returns exactly the tile ids of the tiles of the tensors of the
    listed computations; called without a computation, on a map whose
    computation names are distinct, it returns exactly the tile ids of
    the tensors of [all_tensors()]. *)
Theorem tile_ids_are_the_tiles_of_the_selection (self : TensorMap.t) :
  (forall names ids,
      TensorMap.tile_ids self (CList names) = Ok ids ->
      forall t : Z,
        t ∈ ids <->
        exists c tensors tensor tile,
          In c names
          /\ dict_get c (TensorMap.mappings self) = Some tensors
          /\ In tensor tensors /\ In tile (TensorMap.Tensor.tiles tensor)
          /\ TensorMap.Tile.tile tile = JInt t)
  /\ (forall ids,
        NoDup (TensorMap.computation_names self) ->
        TensorMap.tile_ids self CNone = Ok ids ->
        forall t : Z,
          t ∈ ids <->
          exists tensor tile,
            In tensor (TensorMap.all_tensors self)
            /\ In tile (TensorMap.Tensor.tiles tensor)
            /\ TensorMap.Tile.tile tile = JInt t).
Proof.
  split.
  - intros names ids H t. unfold TensorMap.tile_ids in H.
    rewrite (collect_elem _ _ _ _ H t). split; [|by right].
    intros [H0|H']; [by apply not_elem_of_empty in H0 | exact H'].
  - intros ids Hnd H t. unfold TensorMap.tile_ids in H.
    rewrite (collect_elem _ _ _ _ H t).
    unfold TensorMap.all_tensors, TensorMap.computation_names in *. split.
    + intros [H0|(c & ts & tn & tile & Hc & Hd & Hin & Hin' & Ht)];
        [by apply not_elem_of_empty in H0|].
      exists tn, tile. split; [|by split].
      apply in_concat. exists ts. split; [|exact Hin].
      apply in_map_iff. exists (c, ts). split; [reflexivity|].
      by apply dict_get_In.
    + intros (tn & tile & Hin & Hin' & Ht). right.
      apply in_concat in Hin as (ts & Hts & Hin).
      apply in_map_iff in Hts as ([c ts'] & <- & Hcts). cbn [snd] in Hin.
      exists c, ts', tn, tile. split.
      * apply in_map_iff. by exists (c, ts').
      * split; [by apply dict_get_NoDup | by repeat split].
Qed.

Lemma update_all_acc (tensors : list TensorMap.Tensor.t) :
  forall ids0 : gset Z,
    TensorMap.update_all tensors ids0
    = (ids ← TensorMap.update_all tensors ∅; Ok (ids0 ∪ ids)).
Proof.
  induction tensors as [|tensor rest IH]; intros ids0.
  - cbn. f_equal. by rewrite union_empty_r_L.
  - cbn [TensorMap.update_all].
    destruct (TensorMap.Tensor.tile_ids tensor) as [new|x]; [|reflexivity].
    cbn [mbind result_bind]. rewrite (IH (ids0 ∪ new)), (IH (∅ ∪ new)).
    destruct (TensorMap.update_all rest ∅) as [ids|x]; [|reflexivity].
    cbn [mbind result_bind]. f_equal.
    by rewrite union_empty_l_L, union_assoc_L.
Qed.

Lemma collect_acc (self : TensorMap.t) (computations : list string) :
  forall ids0 : gset Z,
    TensorMap.collect self computations ids0
    = (ids ← TensorMap.collect self computations ∅; Ok (ids0 ∪ ids)).
Proof.
  induction computations as [|c rest IH]; intros ids0.
  - cbn. f_equal. by rewrite union_empty_r_L.
  - cbn [TensorMap.collect].
    destruct (dict_get c (TensorMap.mappings self)) as [tensors|];
      [|reflexivity].
    rewrite (update_all_acc tensors ids0).
    destruct (TensorMap.update_all tensors ∅) as [ids1|x]; [|reflexivity].
    cbn [mbind result_bind]. rewrite (IH (ids0 ∪ ids1)), (IH ids1).
    destruct (TensorMap.collect self rest ∅) as [ids|x]; [|reflexivity].
    cbn [mbind result_bind]. f_equal. by rewrite union_assoc_L.
Qed.

Lemma collect_app (self : TensorMap.t) (a b : list string) :
  forall ids0 : gset Z,
    TensorMap.collect self (a ++ b) ids0
    = (ids ← TensorMap.collect self a ids0; TensorMap.collect self b ids).
Proof.
  induction a as [|c a IH]; intros ids0; [reflexivity|].
  cbn [app TensorMap.collect].
  destruct (dict_get c (TensorMap.mappings self)) as [tensors|];
    [|reflexivity].
  destruct (TensorMap.update_all tensors ids0) as [ids1|x]; [|reflexivity].
  cbn [mbind result_bind]. apply IH.
Qed.

Lemma mapM_result_all {A B} (f : A -> result B) (l : list A) :
  (forall x, In x l -> exists y, f x = Ok y) -> exists ys, mapM f l = Ok ys.
Proof.
  induction l as [|x l IH]; intros H; [by exists []|].
  destruct (H x (or_introl eq_refl)) as [y Hy].
  destruct IH as [ys Hys]; [intros z Hz; apply H; by right|].
  exists (y :: ys). cbn [mapM]. rewrite Hy. cbn [mbind result_bind].
  by rewrite Hys.
Qed.

Lemma mapM_result_each {A B} (f : A -> result B) (l : list A)
    (ys : list B) :
  mapM f l = Ok ys -> forall x, In x l -> exists y, f x = Ok y.
Proof.
  revert ys. induction l as [|x l IH]; intros ys; cbn [mapM]; [by intros _ ? []|].
  destruct (f x) as [b|e] eqn:Ef; [|discriminate]. cbn [mbind result_bind].
  destruct (mapM f l) as [k|e]; [|discriminate].
  intros _ z [<-|Hz]; [by exists b | by apply (IH k)].
Qed.

(** X20: the tile ids of a concatenated list of computations are the
    union of the tile ids of the two lists, failing where the first of
    the two calls fails; and when [ipu_ids] returns for both lists it
    returns their union for the concatenation.  An empty list gives the
    empty set, and a name that is not a computation of the map raises
    [KeyError] with that name. *)
Theorem tile_ids_of_concatenation_is_union (self : TensorMap.t)
    (a b : list string) :
  TensorMap.tile_ids self (CList (a ++ b))
  = (ids_a ← TensorMap.tile_ids self (CList a);
     ids_b ← TensorMap.tile_ids self (CList b);
     Ok (ids_a ∪ ids_b))
  /\ (forall ipus_a ipus_b,
        TensorMap.ipu_ids self (CList a) = Ok ipus_a ->
        TensorMap.ipu_ids self (CList b) = Ok ipus_b ->
        TensorMap.ipu_ids self (CList (a ++ b)) = Ok (ipus_a ∪ ipus_b))
  /\ TensorMap.tile_ids self (CList []) = Ok ∅
  /\ TensorMap.ipu_ids self (CList []) = Ok ∅
  /\ (forall c,
        dict_get c (TensorMap.mappings self) = None ->
        TensorMap.tile_ids self (CList [c]) = Raise (KeyError (KStr c))
        /\ TensorMap.ipu_ids self (CList [c]) = Raise (KeyError (KStr c))).
Proof.
  assert (Happ : TensorMap.tile_ids self (CList (a ++ b))
                 = (ids_a ← TensorMap.tile_ids self (CList a);
                    ids_b ← TensorMap.tile_ids self (CList b);
                    Ok (ids_a ∪ ids_b))).
  { unfold TensorMap.tile_ids. rewrite collect_app.
    destruct (TensorMap.collect self a ∅) as [ids_a|x]; [|reflexivity].
    cbn [mbind result_bind]. apply collect_acc. }
  split; [exact Happ|]. split; [|split; [reflexivity|]]; [|split].
  - intros ipus_a ipus_b Ha Hb. unfold TensorMap.ipu_ids in *.
    rewrite Happ.
    destruct (TensorMap.tile_ids self (CList a)) as [ids_a|x];
      [|discriminate].
    destruct (TensorMap.tile_ids self (CList b)) as [ids_b|x];
      [|discriminate].
    cbn [mbind result_bind] in *.
    destruct (mapM _ (elements ids_a)) as [la|x] eqn:Ea; [|discriminate].
    destruct (mapM _ (elements ids_b)) as [lb|x] eqn:Eb; [|discriminate].
    injection Ha as <-. injection Hb as <-.
    destruct (mapM_result_all (TensorMap.ipu_of_tile self)
                (elements (ids_a ∪ ids_b))) as [l El].
    { intros t Ht. apply list_elem_of_In, elem_of_elements in Ht.
      apply elem_of_union in Ht as [Ht|Ht].
      - apply (mapM_result_each _ _ _ Ea).
        by apply list_elem_of_In, elem_of_elements.
      - apply (mapM_result_each _ _ _ Eb).
        by apply list_elem_of_In, elem_of_elements. }
    rewrite El. cbn [mbind result_bind]. f_equal.
    apply set_eq. intros i.
    rewrite elem_of_union, !elem_of_list_to_set, !list_elem_of_In.
    rewrite (mapM_result_elem _ _ _ El), (mapM_result_elem _ _ _ Ea),
      (mapM_result_elem _ _ _ Eb).
    setoid_rewrite <- list_elem_of_In. setoid_rewrite elem_of_elements.
    setoid_rewrite elem_of_union. split.
    + intros (t & [Ht|Ht] & Hf); [left | right]; by exists t.
    + intros [(t & Ht & Hf)|(t & Ht & Hf)]; exists t; split; auto.
  - reflexivity.
  - intros c Hc. unfold TensorMap.ipu_ids, TensorMap.tile_ids.
    cbn [TensorMap.collect]. by rewrite Hc.
Qed.

(** ** Building a tensor map *)

Lemma dict_get_set {V} (k k' : string) (v : V) (d : list (string * V)) :
  dict_get k' (dict_set k v d)
  = if String.eqb k' k then Some v else dict_get k' d.
Proof.
  induction d as [|[k0 v0] d IH]; cbn [dict_set dict_get].
  - by destruct (String.eqb k' k).
  - destruct (String.eqb k k0) eqn:E; cbn [dict_get].
    + apply String.eqb_eq in E as <-. by destruct (String.eqb k' k).
    + rewrite IH. destruct (String.eqb k' k0) eqn:E'; [|reflexivity].
      apply String.eqb_eq in E' as ->.
      by rewrite String.eqb_sym, E.
Qed.

Lemma dict_set_fresh {V} (k : string) (v : V) (d : list (string * V)) :
  ~ In k (map fst d) -> dict_set k v d = d ++ [(k, v)].
Proof.
  induction d as [|[k0 v0] d IH]; [reflexivity|].
  cbn [map fst dict_set app]. intros Hk.
  destruct (String.eqb k k0) eqn:E.
  - apply String.eqb_eq in E as <-. exfalso. apply Hk. by left.
  - rewrite IH; [reflexivity|]. intros Hin. apply Hk. by right.
Qed.

Lemma fill_mappings_keeps (c : string) (tensors : list TensorMap.Tensor.t)
    (its : list (string * json)) :
  forall (acc mappings : list (string * list TensorMap.Tensor.t)),
    ~ In c (map fst its) ->
    dict_get c acc = Some tensors ->
    TensorMap.fill_mappings its acc = Ok mappings ->
    dict_get c mappings = Some tensors.
Proof.
  induction its as [|[c0 js0] its IH]; intros acc mappings Hn Hg.
  - by intros [= <-].
  - cbn [TensorMap.fill_mappings].
    destruct (Py.iterate js0) as [xs0|x]; [|discriminate].
    cbn [mbind result_bind].
    destruct (mapM TensorMap.make_tensor xs0) as [ts0|x]; [|discriminate].
    cbn [mbind result_bind]. apply IH.
    + intros Hin. apply Hn. by right.
    + rewrite dict_get_set. destruct (String.eqb c c0) eqn:E; [|exact Hg].
      apply String.eqb_eq in E as <-. exfalso. apply Hn. by left.
Qed.

Lemma fill_mappings_fresh (its : list (string * json)) :
  forall (acc mappings : list (string * list TensorMap.Tensor.t)),
    NoDup (map fst acc ++ map fst its) ->
    TensorMap.fill_mappings its acc = Ok mappings ->
    map fst mappings = map fst acc ++ map fst its
    /\ forall c js,
         In (c, js) its ->
         exists xs tensors,
           Py.iterate js = Ok xs /\ mapM TensorMap.make_tensor xs = Ok tensors
           /\ dict_get c mappings = Some tensors.
Proof.
  induction its as [|[c js] its IH]; intros acc mappings Hnd.
  - intros [= <-]. cbn [map]. rewrite app_nil_r. split; [reflexivity|].
    by intros ? ? [].
  - cbn [TensorMap.fill_mappings].
    destruct (Py.iterate js) as [xs|x] eqn:Ex; [|discriminate].
    cbn [mbind result_bind].
    destruct (mapM TensorMap.make_tensor xs) as [tensors|x] eqn:Et;
      [|discriminate].
    cbn [mbind result_bind]. cbn [map fst] in Hnd.
    apply NoDup_app in Hnd as (Hacc & Hd & Hits).
    apply NoDup_cons in Hits as [Hc Hits].
    assert (Hfresh : ~ In c (map fst acc)).
    { intros Hin. apply (Hd c); [by apply list_elem_of_In | by left]. }
    intros H.
    assert (Hkept : dict_get c mappings = Some tensors).
    { eapply fill_mappings_keeps; [| |exact H].
      - intros Hin. by apply Hc, list_elem_of_In.
      - rewrite dict_get_set. by rewrite String.eqb_refl. }
    rewrite (dict_set_fresh c tensors acc Hfresh) in H.
    apply IH in H as [Hk Hall].
    2: { rewrite map_app. cbn [map fst]. rewrite <- app_assoc.
         apply NoDup_app. split; [exact Hacc|]. split.
         - exact Hd.
         - by apply NoDup_cons. }
    split.
    + rewrite Hk, map_app. cbn [map fst]. by rewrite <- app_assoc.
    + intros c' js' [[= <- <-]|Hin]; [|by apply Hall].
      by exists xs, tensors.
Qed.

(** X21: a tensor map built from a payload whose [mappings] object has
    distinct keys has these keys, in their order, as its computation
    names, keeps the number of tiles per IPU it was given, and maps each
    computation to the tensors made from the entries of its list, in
    their order. *)
Theorem init_keeps_the_computations (tensor_map per_ipu : json)
    (its : list (string * json)) (self : TensorMap.t) :
  Py.getitem tensor_map "mappings" = Ok (JDict its) ->
  NoDup (map fst its) ->
  TensorMap.init tensor_map per_ipu = Ok self ->
  TensorMap.computation_names self = map fst its
  /\ TensorMap.num_tiles_per_ipu self = per_ipu
  /\ forall c js,
       In (c, js) its ->
       exists xs tensors,
         Py.iterate js = Ok xs /\ mapM TensorMap.make_tensor xs = Ok tensors
         /\ dict_get c (TensorMap.mappings self) = Some tensors.
Proof.
  intros Hm Hnd. unfold TensorMap.init. rewrite Hm.
  cbn [mbind result_bind Py.items].
  destruct (TensorMap.fill_mappings its []) as [ms|x] eqn:E; [|discriminate].
  intros [= <-]. cbn [TensorMap.num_tiles_per_ipu TensorMap.mappings].
  destruct (fill_mappings_fresh its [] ms Hnd E) as [Hk Hall].
  split; [exact Hk|]. split; [reflexivity | exact Hall].
Qed.

Lemma init_keeps_the_computations_witness :
  TensorMap.computation_names sample_tensor_map = ["cluster_0"]
  /\ TensorMap.num_tiles_per_ipu sample_tensor_map
     = JFloat (S754_finite false 4503599627370496 (-51))
  /\ forall c js,
       In (c, js)
          [("cluster_0",
            JList [JList [JStr "add"; JInt 0; JList [JInt 2]; JStr "float";
                          JInt 0; JInt 0; JInt 2;
                          JList [JList [JInt 0; JInt 1];
                                 JList [JInt 3; JInt 1]]]])] ->
       exists xs tensors,
         Py.iterate js = Ok xs /\ mapM TensorMap.make_tensor xs = Ok tensors
         /\ dict_get c (TensorMap.mappings sample_tensor_map) = Some tensors.
Proof.
  refine (init_keeps_the_computations tensor_map_value
            (JFloat (S754_finite false 4503599627370496 (-51))) _
            sample_tensor_map eq_refl _ eq_refl).
  apply (bool_decide_unpack (NoDup ["cluster_0"])). vm_compute. exact I.
Defined.

(** ** Moving the initialisation of variables *)

Lemma pop_snoc {A} (l : list A) (x : A) : pop (l ++ [x]) = Some (x, l).
Proof. unfold pop. by rewrite rev_unit, rev_involutive. Qed.

Lemma pop_Some {A} (l rest : list A) (x : A) :
  pop l = Some (x, rest) -> l = rest ++ [x].
Proof.
  unfold pop. destruct (rev l) as [|y r] eqn:E; [discriminate|].
  intros [= <- <-]. rewrite <- (rev_involutive l), E. reflexivity.
Qed.

Lemma pop_None {A} (l : list A) : pop l = None -> l = [].
Proof.
  unfold pop. destruct (rev l) as [|y r] eqn:E; [|discriminate].
  intros _. rewrite <- (rev_involutive l), E. reflexivity.
Qed.

Section MoveProperties.
Context {Operation : Type} `{Countable Operation}.
Variable input_ops : Operation -> list Operation.

Lemma visit_spec (fuel : nat) :
  forall (dep_ops : list Operation) (visited : gset Operation)
         (init_ops r : list Operation),
    visit input_ops fuel dep_ops visited init_ops = Some r ->
    (forall op, op ∈ visited <-> In op init_ops) ->
    NoDup init_ops ->
    NoDup r
    /\ (exists more, r = init_ops ++ more)
    /\ (forall op, In op r ->
                   In op init_ops
                   \/ exists start, In start dep_ops /\ reached input_ops start op)
    /\ (forall op, In op r -> ~ In op init_ops ->
                   forall i, In i (input_ops op) -> In i r)
    /\ (forall op, In op dep_ops -> In op r).
Proof.
  induction fuel as [|fuel IH]; intros dep_ops visited init_ops r;
    [discriminate|].
  cbn [visit].
  destruct (pop dep_ops) as [[op rest]|] eqn:Ep.
  - apply pop_Some in Ep as ->.
    destruct (decide (op ∈ visited)) as [Hv|Hv]; intros Hr Hvis Hnd.
    + destruct (IH _ _ _ _ Hr Hvis Hnd) as (H1 & [more H2] & H3 & H4 & H5).
      split; [exact H1|]. split; [by exists more|]. split; [|split].
      * intros o Ho. destruct (H3 o Ho) as [?|(s & Hs & Hreach)]; [by left|].
        right. exists s. split; [apply in_or_app; by left | exact Hreach].
      * exact H4.
      * intros o Ho. apply in_app_or in Ho as [Ho|[<-|[]]]; [by apply H5|].
        rewrite H2. apply in_or_app. left. by apply Hvis.
    + assert (Hvis' : forall o, o ∈ visited ∪ {[op]} <-> In o (init_ops ++ [op])).
      { intros o. rewrite elem_of_union, elem_of_singleton, in_app_iff, Hvis.
        cbn [In]. intuition. }
      assert (Hnd' : NoDup (init_ops ++ [op])).
      { apply NoDup_app. split; [exact Hnd|]. split; [|apply NoDup_singleton].
        intros o Ho Ho'. apply list_elem_of_In in Ho.
        apply list_elem_of_singleton in Ho' as ->. by apply Hv, Hvis. }
      destruct (IH _ _ _ _ Hr Hvis' Hnd') as (H1 & [more H2] & H3 & H4 & H5).
      assert (Hop : In op r).
      { rewrite H2. apply in_or_app. left. apply in_or_app. right. by left. }
      split; [exact H1|]. split; [|split; [|split]].
      * exists (op :: more). rewrite H2, <- app_assoc. reflexivity.
      * intros o Ho. destruct (H3 o Ho) as [Hi|(s & Hs & Hreach)].
        -- apply in_app_or in Hi as [Hi|[<-|[]]]; [by left|].
           right. exists op. split; [apply in_or_app; right; by left|].
           apply rtc_refl.
        -- right. apply in_app_or in Hs as [Hs|Hs].
           ++ exists s. split; [apply in_or_app; by left | exact Hreach].
           ++ exists op. split; [apply in_or_app; right; by left|].
              eapply rtc_l; [exact Hs | exact Hreach].
      * intros o Ho Hni i Hi. destruct (decide (o = op)) as [->|Hne].
        -- apply H5, in_or_app. by right.
        -- apply (H4 o Ho); [|exact Hi]. intros Hin.
           apply in_app_or in Hin as [Hin|[Heq|[]]]; [by apply Hni|].
           by apply Hne.
      * intros o Ho. apply in_app_or in Ho as [Ho|[<-|[]]]; [|exact Hop].
        apply H5, in_or_app. by left.
  - apply pop_None in Ep as ->. intros [= <-] Hvis Hnd.
    split; [exact Hnd|]. split; [exists []; by rewrite app_nil_r|].
    split; [by left|]. split; [by intros|]. by intros ? [].
Qed.

Lemma total_inputs_remove (ops : gset Operation) (op : Operation) :
  op ∈ ops ->
  total_inputs input_ops ops
  = (length (input_ops op) + total_inputs input_ops (ops ∖ {[op]}))%nat.
Proof.
  intros Hin. unfold total_inputs.
  assert (E : elements ops ≡ₚ op :: elements (ops ∖ {[op]})).
  { rewrite <- elements_union_singleton
      by (rewrite elem_of_difference, elem_of_singleton; tauto).
    apply elements_proper. apply set_equiv. intros x.
    rewrite elem_of_union, elem_of_singleton, elem_of_difference,
      elem_of_singleton.
    destruct (decide (x = op)) as [->|]; intuition. }
  by rewrite E.
Qed.

Lemma visit_terminates (ops : gset Operation) :
  (forall op, op ∈ ops -> forall i, In i (input_ops op) -> i ∈ ops) ->
  forall (fuel : nat) (dep_ops : list Operation) (visited : gset Operation)
         (init_ops : list Operation),
    (forall op, In op dep_ops -> op ∈ ops) ->
    (length dep_ops + total_inputs input_ops (ops ∖ visited) < fuel)%nat ->
    exists r, visit input_ops fuel dep_ops visited init_ops = Some r.
Proof.
  intros Hclosed. induction fuel as [|fuel IH];
    intros dep_ops visited init_ops Hin Hlt; [lia|].
  cbn [visit].
  destruct (pop dep_ops) as [[op rest]|] eqn:Ep; [|by eexists].
  apply pop_Some in Ep as ->. rewrite length_app in Hlt. cbn [length] in Hlt.
  destruct (decide (op ∈ visited)) as [Hv|Hv].
  - apply IH; [|lia]. intros o Ho. apply Hin, in_or_app. by left.
  - assert (Hop : op ∈ ops) by (apply Hin, in_or_app; right; by left).
    apply IH.
    + intros o Ho. apply in_app_or in Ho as [Ho|Ho].
      * apply Hin, in_or_app. by left.
      * by apply (Hclosed op).
    + rewrite length_app.
      rewrite (total_inputs_remove (ops ∖ visited) op) in Hlt
        by (by apply elem_of_difference).
      replace (ops ∖ (visited ∪ {[op]})) with (ops ∖ visited ∖ {[op]});
        [lia|].
      apply leibniz_equiv, set_equiv. intros x.
      rewrite !elem_of_difference, elem_of_union. intuition.
Qed.

Lemma visit_more_fuel (fuel : nat) :
  forall (fuel' : nat) (dep_ops : list Operation) (visited : gset Operation)
         (init_ops r : list Operation),
    (fuel <= fuel')%nat ->
    visit input_ops fuel dep_ops visited init_ops = Some r ->
    visit input_ops fuel' dep_ops visited init_ops = Some r.
Proof.
  induction fuel as [|fuel IH]; intros fuel' dep_ops visited init_ops r Hle;
    [discriminate|].
  destruct fuel' as [|fuel']; [lia|]. cbn [visit].
  destruct (pop dep_ops) as [[op rest]|]; [|by intros].
  destruct (decide (op ∈ visited)); apply IH; lia.
Qed.

(** X22: on a graph whose operations form a finite set closed under
    inputs, the loop of [move_variable_initialization_to_cpu] ends, within
    a number of iterations bounded by the number of start operations plus
    the number of inputs in the graph, and the operations it then moves
    to the CPU are, each once, exactly the operations reached along
    inputs from the operations that produce the initial values of the
    variables. *)
Theorem initialization_ops_are_the_reachable_ones (ops : gset Operation)
    (variables : list (list Operation)) (dep_ops : list Operation) :
  (forall op, op ∈ ops -> forall i, In i (input_ops op) -> i ∈ ops) ->
  mapM (fun initializer_inputs => Py.index_list initializer_inputs 1)
       variables = Ok dep_ops ->
  (forall op, In op dep_ops -> op ∈ ops) ->
  exists init_ops,
    (forall fuel,
        (length dep_ops + total_inputs input_ops ops < fuel)%nat ->
        move_variable_initialization_to_cpu input_ops fuel variables
        = Ok (Some init_ops))
    /\ NoDup init_ops
    /\ forall op,
         In op init_ops <->
         exists start, In start dep_ops /\ reached input_ops start op.
Proof.
  intros Hclosed Hvars Hin.
  set (bound := S (length dep_ops + total_inputs input_ops ops)).
  destruct (visit_terminates ops Hclosed bound dep_ops ∅ [] Hin)
    as [r Hr].
  { replace (ops ∖ ∅) with ops; [unfold bound; lia|].
    apply leibniz_equiv, set_equiv. intros x.
    rewrite elem_of_difference. split; [|tauto].
    intros Hx. split; [exact Hx | apply not_elem_of_empty]. }
  exists r. split; [|].
  - intros fuel Hf. unfold move_variable_initialization_to_cpu.
    rewrite Hvars. cbn [mbind result_bind]. f_equal.
    apply (visit_more_fuel bound); [unfold bound; lia | exact Hr].
  - destruct (visit_spec _ _ _ _ _ Hr) as (H1 & _ & H3 & H4 & H5).
    { intros o. split; [intros Ho; by apply not_elem_of_empty in Ho | intros []]. }
    { apply NoDup_nil_2. }
    split; [exact H1|]. intros o. split.
    + intros Ho. destruct (H3 o Ho) as [[]|Hs]. exact Hs.
    + intros (s & Hs & Hreach). apply H5 in Hs.
      induction Hreach as [|a b c Hab _ IHr]; [exact Hs|].
      apply IHr. apply (H4 a Hs); [intros [] | exact Hab].
Qed.

End MoveProperties.

Lemma initialization_ops_are_the_reachable_ones_witness :
  exists init_ops,
    (forall fuel,
        (length [3%nat] + total_inputs sample_inputs {[0; 1; 2; 3; 4]}
         < fuel)%nat ->
        move_variable_initialization_to_cpu sample_inputs fuel [[0; 3]]%nat
        = Ok (Some init_ops))
    /\ NoDup init_ops
    /\ forall op,
         In op init_ops <->
         exists start, In start [3%nat] /\ reached sample_inputs start op.
Proof.
  refine (initialization_ops_are_the_reachable_ones sample_inputs
            {[0; 1; 2; 3; 4]}%nat [[0; 3]]%nat [3%nat] _ eq_refl _).
  - intros op Hop i Hi.
    assert (Hc : (op = 0 \/ op = 1 \/ op = 2 \/ op = 3 \/ op = 4)%nat).
    { rewrite !elem_of_union, !elem_of_singleton in Hop. tauto. }
    rewrite !elem_of_union, !elem_of_singleton.
    destruct Hc as [->|[->|[->|[->| ->]]]]; simpl in Hi; intuition.
  - intros op [<-|[]]. rewrite !elem_of_union, !elem_of_singleton. tauto.
Defined.

(** On the sample graph the operations are visited from the last input
    back: 3, then 2, 4 and 1. *)
Example sample_initialization_ops :
  move_variable_initialization_to_cpu sample_inputs 10 [[0; 3]]%nat
  = Ok (Some [3; 2; 4; 1]%nat).
Proof. vm_compute. reflexivity. Qed.

(** ** Assertions on names *)

Lemma nonnil_map {A B} (f : A -> B) (l : list A) :
  nonnil (map f l) = nonnil l.
Proof. by destruct l. Qed.

Lemma select_ext {A} (f g : A -> result bool) (l : list A) :
  (forall x, f x = g x) -> select f l = select g l.
Proof.
  intros E. induction l as [|x l IH]; [reflexivity|].
  cbn [select]. by rewrite E, IH.
Qed.

Lemma select_total {A} (b : A -> bool) (l : list A) :
  select (fun x => Ok (b x)) l = Ok (List.filter b l).
Proof.
  induction l as [|x l IH]; [reflexivity|].
  cbn [select List.filter mbind result_bind]. rewrite IH.
  cbn [mbind result_bind]. by destruct (b x).
Qed.

Lemma select_patterns (name : string) (wl : list string) :
  select (fun x => fnmatch_value (JStr name) x) wl
  = Ok (List.filter (fun x => fnmatch name x) wl).
Proof. apply (select_total (fun x => fnmatch name x)). Qed.

Lemma select_map {A B} (f : A -> B) (test : B -> result bool) (l : list A) :
  select test (map f l) = (kept ← select (fun x => test (f x)) l;
                           Ok (map f kept)).
Proof.
  induction l as [|x l IH]; [reflexivity|].
  cbn [map select]. destruct (test (f x)) as [b|e]; [|reflexivity].
  cbn [mbind result_bind]. rewrite IH.
  destruct (select _ l) as [kept|e]; [|reflexivity].
  cbn [mbind result_bind]. by destruct b.
Qed.

Lemma missing_whitelist_entries_of_strings (names whitelist : list string) :
  missing_whitelist_entries_in_values (JList (map JStr names)) whitelist
  = Ok (missing_whitelist_entries_in_names names whitelist).
Proof.
  unfold missing_whitelist_entries_in_values,
    missing_whitelist_entries_in_names.
  rewrite <- select_total. apply select_ext. intros x.
  cbn [Py.iterate mbind result_bind]. rewrite select_strings.
  cbn [mbind result_bind]. by rewrite nonnil_map.
Qed.

Lemma missing_names_of_strings (names whitelist : list string) :
  missing_names_in_whitelist_entries_values (JList (map JStr names)) whitelist
  = Ok (map JStr (missing_names_in_whitelist_entries names whitelist)).
Proof.
  unfold missing_names_in_whitelist_entries_values,
    missing_names_in_whitelist_entries.
  cbn [Py.iterate mbind result_bind]. rewrite select_map.
  rewrite (select_ext _
             (fun name =>
                Ok (nonempty name
                    && negb (nonnil (List.filter
                                       (fun x => fnmatch name x)
                                       (map (fun x => x +:+ "*") whitelist)))))).
  - by rewrite select_total.
  - intros name. cbn [Py.truth]. rewrite select_patterns.
    by destruct (nonempty name).
Qed.

Lemma names_in_blacklist_of_strings (names blacklist : list string) :
  names_in_blacklist_values (JList (map JStr names)) blacklist
  = Ok (map JStr (names_in_blacklist names blacklist)).
Proof.
  unfold names_in_blacklist_values, names_in_blacklist,
    items_matching_at_least_one_pattern.
  cbn [Py.iterate mbind result_bind]. rewrite select_map.
  rewrite (select_ext _
             (fun item =>
                Ok (nonnil (List.filter
                              (fun p => fnmatch item p)
                              (map (fun x => x +:+ "*") blacklist))))).
  - by rewrite select_total.
  - intros name. by rewrite select_patterns.
Qed.

Lemma join_strings (sep : string) (names : list string) :
  join sep (JList (map JStr names)) = Ok (String.concat sep names).
Proof.
  unfold join. cbn [Py.iterate mbind result_bind].
  assert (E : mapM (fun x => match x with
                             | JStr s => Ok s
                             | _ => Raise TypeError
                             end) (map JStr names) = Ok names).
  { induction names as [|n names IH]; [reflexivity|].
    cbn [map mapM mbind result_bind]. by rewrite IH. }
  by rewrite E.
Qed.

Lemma no_missing_entries (names whitelist : list string) :
  nonnil (missing_whitelist_entries_in_names names whitelist) = false <->
  forall p, In p whitelist ->
            exists name, In name names /\ fnmatch name (p +:+ "*") = true.
Proof.
  split.
  - intros Hn p Hp.
    destruct (existsb (fun name => fnmatch name (p +:+ "*")) names) eqn:E.
    + apply existsb_exists in E as (name & Hin & Hm). by exists name.
    + assert (Hin : In (p +:+ "*")
                      (missing_whitelist_entries_in_names names whitelist)).
      { apply missing_whitelist_entries_spec. split.
        - apply in_map_iff. by exists p.
        - apply List.Forall_forall. intros name Hname.
          destruct (fnmatch name (p +:+ "*")) eqn:Hm; [|reflexivity].
          assert (existsb (fun name => fnmatch name (p +:+ "*")) names = true)
            by (apply existsb_exists; by exists name).
          congruence. }
      by destruct (missing_whitelist_entries_in_names names whitelist).
  - intros Hall.
    destruct (missing_whitelist_entries_in_names names whitelist)
      as [|x l] eqn:E; [reflexivity|].
    assert (Hin : In x (missing_whitelist_entries_in_names names whitelist))
      by (rewrite E; by left).
    apply missing_whitelist_entries_spec in Hin as [Hx Hno].
    apply in_map_iff in Hx as (p & <- & Hp).
    destruct (Hall p Hp) as (name & Hname & Hm).
    rewrite List.Forall_forall in Hno. rewrite (Hno name Hname) in Hm.
    discriminate.
Qed.

Lemma no_missing_names (names whitelist : list string) :
  nonnil (missing_names_in_whitelist_entries names whitelist) = false <->
  forall name, In name names -> nonempty name = true ->
               exists p, In p whitelist /\ fnmatch name (p +:+ "*") = true.
Proof.
  split.
  - intros Hn name Hname Hne.
    destruct (existsb (fun p => fnmatch name (p +:+ "*")) whitelist) eqn:E.
    + apply existsb_exists in E as (p & Hin & Hm). by exists p.
    + assert (Hin : In name
                      (missing_names_in_whitelist_entries names whitelist)).
      { apply missing_names_spec. split; [exact Hname|].
        split; [exact Hne|].
        apply List.Forall_forall. intros p Hp.
        destruct (fnmatch name (p +:+ "*")) eqn:Hm; [|reflexivity].
        assert (existsb (fun p => fnmatch name (p +:+ "*")) whitelist = true)
          by (apply existsb_exists; by exists p).
        congruence. }
      by destruct (missing_names_in_whitelist_entries names whitelist).
  - intros Hall.
    destruct (missing_names_in_whitelist_entries names whitelist)
      as [|x l] eqn:E; [reflexivity|].
    assert (Hin : In x (missing_names_in_whitelist_entries names whitelist))
      by (rewrite E; by left).
    apply missing_names_spec in Hin as (Hx & Hne & Hno).
    destruct (Hall x Hx Hne) as (p & Hp & Hm).
    rewrite List.Forall_forall in Hno. rewrite (Hno p Hp) in Hm.
    discriminate.
Qed.

Lemma no_blacklisted_names (names blacklist : list string) :
  nonnil (names_in_blacklist names blacklist) = false <->
  forall name p, In name names -> In p blacklist ->
                 fnmatch name (p +:+ "*") = false.
Proof.
  unfold names_in_blacklist, items_matching_at_least_one_pattern.
  rewrite nonnil_filter. split.
  - intros Hn name p Hname Hp.
    destruct (fnmatch name (p +:+ "*")) eqn:Hm; [|reflexivity].
    assert (E : existsb
                  (fun item =>
                     nonnil (List.filter (fun p => fnmatch item p)
                               (map (fun x => x +:+ "*") blacklist)))
                  names = true).
    { apply existsb_exists. exists name. split; [exact Hname|].
      rewrite nonnil_filter. apply existsb_exists. exists (p +:+ "*").
      split; [apply in_map_iff; by exists p | exact Hm]. }
    congruence.
  - intros Hall. apply not_true_is_false. intros E.
    apply existsb_exists in E as (name & Hname & Hm).
    rewrite nonnil_filter in Hm.
    apply existsb_exists in Hm as (x & Hx & Hm).
    apply in_map_iff in Hx as (p & <- & Hp).
    rewrite (Hall name p Hname Hp) in Hm. discriminate.
Qed.

Ltac run_assert :=
cbv beta iota delta
  [ReportJSON.bind ReportJSON.call ReportJSON.assertFalse ReportJSON.assertTrue
   ReportJSON.assertEqual ReportJSON.raise ReportJSON.lift ReportJSON.ret].

(** X23: on a report whose compute sets are the strings [names],
    [assert_all_compute_sets_and_list] passes exactly when every
    whitelist entry matches a prefix-wise compute set and every non-empty
    compute set is matched by a whitelist entry; otherwise it fails with
    the assertion error of [assertFalse], and it leaves [self] as it
    is. *)
Theorem compute_sets_whitelist_assertion (self : ReportJSON.t)
    (names ok : list string) :
  ReportJSON.get_compute_sets self = Ok (JList (map JStr names)) ->
  (ReportJSON.assert_all_compute_sets_and_list ok self = (self, Ok tt)
   \/ ReportJSON.assert_all_compute_sets_and_list ok self
      = (self, Raise AssertionError))
  /\ (ReportJSON.assert_all_compute_sets_and_list ok self = (self, Ok tt)
      <-> (forall p, In p ok ->
                     exists name,
                       In name names /\ fnmatch name (p +:+ "*") = true)
          /\ (forall name,
                In name names -> nonempty name = true ->
                exists p, In p ok /\ fnmatch name (p +:+ "*") = true)).
Proof.
  intros Hg. rewrite <- no_missing_entries, <- no_missing_names.
  unfold ReportJSON.assert_all_compute_sets_and_list. run_assert.
  rewrite Hg. cbn [mbind result_bind].
  rewrite missing_whitelist_entries_of_strings, join_strings.
  cbn [mbind result_bind].
  destruct (nonnil (missing_whitelist_entries_in_names names ok));
    [split; [by right | split; [discriminate | by intros [? _]]]|].
  rewrite Hg. cbn [mbind result_bind].
  rewrite missing_names_of_strings, nonnil_map.
  destruct (nonnil (missing_names_in_whitelist_entries names ok)).
  - split; [by right | split; [discriminate | by intros [_ ?]]].
  - split; [by left | by split].
Qed.

Lemma compute_sets_whitelist_assertion_witness :
  ReportJSON.assert_all_compute_sets_and_list ["conv"; "pool"]
    (recorded COMPILE_END named_report)
  = (recorded COMPILE_END named_report, Ok tt)
  <-> (forall p, In p ["conv"; "pool"] ->
                 exists name,
                   In name ["conv/a"; "pool"]
                   /\ fnmatch name (p +:+ "*") = true)
      /\ (forall name,
            In name ["conv/a"; "pool"] -> nonempty name = true ->
            exists p, In p ["conv"; "pool"] /\ fnmatch name (p +:+ "*") = true).
Proof.
  exact (proj2 (compute_sets_whitelist_assertion
                  (recorded COMPILE_END named_report) ["conv/a"; "pool"]
                  ["conv"; "pool"] eq_refl)).
Defined.

(** X24: on a report whose compute sets are the strings [names]:
    [assert_compute_sets_contain_list] passes exactly when every
    whitelist entry matches a compute set prefix-wise,
    [assert_compute_sets_not_in_blacklist] exactly when no blacklist
    entry does, and [assert_compute_sets_matches] exactly when the number
    of compute sets that the whole pattern matches is the expected one;
    [assert_vertices_contain_list] is the first check on the vertex
    names. *)
Theorem compute_set_assertions (self : ReportJSON.t) (names : list string) :
  ReportJSON.get_compute_sets self = Ok (JList (map JStr names)) ->
  (forall ok,
      ReportJSON.assert_compute_sets_contain_list ok self = (self, Ok tt)
      <-> forall p, In p ok ->
                    exists name,
                      In name names /\ fnmatch name (p +:+ "*") = true)
  /\ (forall blacklist,
        ReportJSON.assert_compute_sets_not_in_blacklist blacklist self
        = (self, Ok tt)
        <-> forall name p, In name names -> In p blacklist ->
                           fnmatch name (p +:+ "*") = false)
  /\ (forall expr num_matches msg,
        ReportJSON.assert_compute_sets_matches expr num_matches msg self
        = (self, Ok tt)
        <-> count_matches_in_list names expr = num_matches)
  /\ (forall vertices ok,
        ReportJSON.get_vertices self = Ok (JList (map JStr vertices)) ->
        ReportJSON.assert_vertices_contain_list ok self = (self, Ok tt)
        <-> forall p, In p ok ->
                      exists name,
                        In name vertices /\ fnmatch name (p +:+ "*") = true).
Proof.
  intros Hg. split; [|split; [|split]].
  - intros ok. rewrite <- no_missing_entries.
    unfold ReportJSON.assert_compute_sets_contain_list. run_assert.
    rewrite Hg. cbn [mbind result_bind].
    rewrite missing_whitelist_entries_of_strings, join_strings.
    cbn [mbind result_bind].
    by destruct (nonnil (missing_whitelist_entries_in_names names ok)).
  - intros blacklist. rewrite <- no_blacklisted_names.
    unfold ReportJSON.assert_compute_sets_not_in_blacklist. run_assert.
    rewrite Hg. cbn [mbind result_bind].
    rewrite names_in_blacklist_of_strings, nonnil_map.
    by destruct (nonnil (names_in_blacklist names blacklist)).
  - intros expr num_matches msg.
    unfold ReportJSON.assert_compute_sets_matches. run_assert.
    rewrite Hg. cbn [mbind result_bind]. rewrite count_matches_in_strings.
    destruct (count_matches_in_list names expr =? num_matches) eqn:E.
    + apply Z.eqb_eq in E. by split.
    + apply Z.eqb_neq in E. by split.
  - intros vertices ok Hv. rewrite <- no_missing_entries.
    unfold ReportJSON.assert_vertices_contain_list. run_assert.
    rewrite Hv. cbn [mbind result_bind].
    rewrite missing_whitelist_entries_of_strings, join_strings.
    cbn [mbind result_bind].
    by destruct (nonnil (missing_whitelist_entries_in_names vertices ok)).
Qed.

Lemma compute_set_assertions_witness :
  ReportJSON.assert_compute_sets_not_in_blacklist ["relu"]
    (recorded COMPILE_END named_report)
  = (recorded COMPILE_END named_report, Ok tt)
  <-> forall name p, In name ["conv/a"; "pool"] -> In p ["relu"] ->
                     fnmatch name (p +:+ "*") = false.
Proof.
  exact (proj1 (proj2 (compute_set_assertions
                         (recorded COMPILE_END named_report)
                         ["conv/a"; "pool"] eq_refl)) ["relu"]).
Defined.

(** X25: [assert_all_global_exchanges_and_list] checks the names of the
    [GlobalExchange] programs against the whitelist, both ways, but
    builds its first message from the compute sets: when
    [get_compute_sets] raises, so does the assertion, whatever the
    programs are; when the compute sets are strings, it passes exactly
    when every whitelist entry matches an exchange prefix-wise and every
    non-empty exchange name is matched by an entry. *)
Theorem global_exchanges_assertion_reads_compute_sets (self : ReportJSON.t)
    (names ok : list string) :
  ReportJSON.get_program_names_of_type "GlobalExchange" self
  = Ok (JList (map JStr names)) ->
  (forall x,
      ReportJSON.get_compute_sets self = Raise x ->
      ReportJSON.assert_all_global_exchanges_and_list ok self
      = (self, Raise x))
  /\ (forall sets,
        ReportJSON.get_compute_sets self = Ok (JList (map JStr sets)) ->
        ReportJSON.assert_all_global_exchanges_and_list ok self
        = (self, Ok tt)
        <-> (forall p, In p ok ->
                       exists name,
                         In name names /\ fnmatch name (p +:+ "*") = true)
            /\ (forall name,
                  In name names -> nonempty name = true ->
                  exists p, In p ok /\ fnmatch name (p +:+ "*") = true)).
Proof.
  intros Hp. split.
  - intros x Hx.
    unfold ReportJSON.assert_all_global_exchanges_and_list. run_assert.
    rewrite Hp. cbn [mbind result_bind].
    rewrite missing_whitelist_entries_of_strings. cbn [mbind result_bind].
    by rewrite Hx.
  - intros sets Hs. rewrite <- no_missing_entries, <- no_missing_names.
    unfold ReportJSON.assert_all_global_exchanges_and_list. run_assert.
    rewrite Hp. cbn [mbind result_bind].
    rewrite missing_whitelist_entries_of_strings. cbn [mbind result_bind].
    rewrite Hs. cbn [mbind result_bind]. rewrite join_strings.
    cbn [mbind result_bind].
    destruct (nonnil (missing_whitelist_entries_in_names names ok));
      [split; [discriminate | by intros [? _]]|].
    rewrite Hp. cbn [mbind result_bind].
    rewrite missing_names_of_strings, nonnil_map.
    destruct (nonnil (missing_names_in_whitelist_entries names ok)).
    + split; [discriminate | by intros [_ ?]].
    + by split.
Qed.

Lemma global_exchanges_assertion_reads_compute_sets_witness :
  ReportJSON.assert_all_global_exchanges_and_list ["exchange"]
    (recorded COMPILE_END
       (JDict [("programs",
                JList [JDict [("type", JStr "GlobalExchange");
                              ("name", JStr "exchange/0")]])]))
  = (recorded COMPILE_END
       (JDict [("programs",
                JList [JDict [("type", JStr "GlobalExchange");
                              ("name", JStr "exchange/0")]])]),
     Raise (KeyError (KStr "computeSets"))).
Proof.
  exact (proj1 (global_exchanges_assertion_reads_compute_sets
                  (recorded COMPILE_END
                     (JDict [("programs",
                              JList [JDict [("type", JStr "GlobalExchange");
                                            ("name", JStr "exchange/0")]])]))
                  ["exchange/0"] ["exchange"] eq_refl)
           (KeyError (KStr "computeSets")) eq_refl).
Defined.

(** *** Names that are not strings *)

Lemma select_fnmatch_raises (pat : string) (items : list json) :
  (exists kept, select (fun name => fnmatch_value name pat) items = Ok kept)
  \/ select (fun name => fnmatch_value name pat) items = Raise TypeError.
Proof.
  induction items as [|x items IH]; [left; by eexists|].
  cbn [select]. destruct x; cbn [fnmatch_value mbind result_bind];
    try (by right).
  destruct IH as [[kept ->]| ->]; [left | by right].
  cbn [mbind result_bind]. by eexists.
Qed.

Lemma missing_whitelist_entries_raises (names : json) (whitelist : list string) :
  (exists missing,
      missing_whitelist_entries_in_values names whitelist = Ok missing)
  \/ missing_whitelist_entries_in_values names whitelist = Raise TypeError.
Proof.
  unfold missing_whitelist_entries_in_values.
  induction (map (fun x => x +:+ "*") whitelist) as [|x wl IH];
    [left; by eexists|].
  cbn [select].
  destruct (Py.iterate names) as [items|e] eqn:Ei.
  2: { right. destruct names; try discriminate; by injection Ei as <-. }
  cbn [mbind result_bind] in *.
  destruct (select_fnmatch_raises x items) as [[kept ->]| ->]; [|by right].
  cbn [mbind result_bind].
  destruct IH as [[missing ->]| ->]; [left | by right].
  cbn [mbind result_bind]. by eexists.
Qed.

Lemma join_not_strings (sep : string) (l : list json) :
  all_strings l = false -> join sep (JList l) = Raise TypeError.
Proof.
  unfold join, all_strings. cbn [Py.iterate mbind result_bind]. intros Hl.
  assert (E : mapM (fun x => match x with
                             | JStr s => Ok s
                             | _ => Raise TypeError
                             end) l = Raise TypeError).
  { induction l as [|x l IH]; [discriminate|]. cbn [forallb] in Hl.
    cbn [mapM]. destruct x; try reflexivity.
    cbn [andb mbind result_bind] in *. by rewrite (IH Hl). }
  by rewrite E.
Qed.

(** X26: names that are not all strings are a [TypeError], not a
    failed assertion: when the list of compute sets (of vertex names)
    holds an item that is not a [str], the whitelist assertions raise
    [TypeError] whatever the whitelist is, also when it is empty and no
    name is matched at all, because the message joins the names. *)
Theorem whitelist_assertions_need_strings (self : ReportJSON.t)
    (l : list json) (ok : list string) :
  all_strings l = false ->
  (ReportJSON.get_compute_sets self = Ok (JList l) ->
   ReportJSON.assert_all_compute_sets_and_list ok self
   = (self, Raise TypeError)
   /\ ReportJSON.assert_compute_sets_contain_list ok self
      = (self, Raise TypeError))
  /\ (ReportJSON.get_vertices self = Ok (JList l) ->
      ReportJSON.assert_vertices_contain_list ok self
      = (self, Raise TypeError)).
Proof.
  intros Hl. split; [intros Hg; split | intros Hg].
  - unfold ReportJSON.assert_all_compute_sets_and_list. run_assert.
    rewrite Hg. cbn [mbind result_bind].
    destruct (missing_whitelist_entries_raises (JList l) ok)
      as [[missing ->]| ->]; [|reflexivity].
    cbn [mbind result_bind]. by rewrite (join_not_strings _ l Hl).
  - unfold ReportJSON.assert_compute_sets_contain_list. run_assert.
    rewrite Hg. cbn [mbind result_bind].
    destruct (missing_whitelist_entries_raises (JList l) ok)
      as [[missing ->]| ->]; [|reflexivity].
    cbn [mbind result_bind]. by rewrite (join_not_strings _ l Hl).
  - unfold ReportJSON.assert_vertices_contain_list. run_assert.
    rewrite Hg. cbn [mbind result_bind].
    destruct (missing_whitelist_entries_raises (JList l) ok)
      as [[missing ->]| ->]; [|reflexivity].
    cbn [mbind result_bind]. by rewrite (join_not_strings _ l Hl).
Qed.

Lemma whitelist_assertions_need_strings_witness :
  ReportJSON.assert_vertices_contain_list []
    (recorded COMPILE_END
       (JDict [("vertexTypes", JDict [("names", JList [JInt 3])])]))
  = (recorded COMPILE_END
       (JDict [("vertexTypes", JDict [("names", JList [JInt 3])])]),
     Raise TypeError).
Proof.
  exact (proj2 (whitelist_assertions_need_strings
                  (recorded COMPILE_END
                     (JDict [("vertexTypes",
                              JDict [("names", JList [JInt 3])])]))
                  [JInt 3] [] eq_refl) eq_refl).
Defined.

(** ** Memory and programs *)

Lemma sum_of_ints (l : list Z) :
  forall a : Z,
    foldl (fun acc x => a ← acc; Py.add a x) (Ok (JInt a)) (map JInt l)
    = Ok (JInt (a + foldr Z.add 0 l)).
Proof.
  induction l as [|x l IH]; intros a; cbn [map foldl foldr].
  - by rewrite Z.add_0_r.
  - cbn [mbind result_bind Py.add Py.as_number]. rewrite IH.
    by rewrite Z.add_assoc.
Qed.

Lemma max_of_ints (l : list Z) :
  forall a : Z,
    exists m,
      foldl (fun acc y => best ← acc; b ← Py.gt y best;
                          Ok (if b : bool then y else best))
            (Ok (JInt a)) (map JInt l) = Ok (JInt m)
      /\ In m (a :: l) /\ Forall (fun x => x <= m) (a :: l).
Proof.
  induction l as [|x l IH]; intros a; cbn [map foldl].
  - exists a. split; [reflexivity|]. split; [by left|].
    constructor; [lia | constructor].
  - cbn [mbind result_bind Py.gt].
    destruct (a <? x) eqn:E.
    + apply Z.ltb_lt in E. destruct (IH x) as (m & -> & Hin & Hall).
      exists m. split; [reflexivity|]. split; [by right|].
      inversion Hall as [|? ? Hx Hl]; subst.
      constructor; [lia|]. by constructor.
    + apply Z.ltb_ge in E. destruct (IH a) as (m & -> & Hin & Hall).
      exists m. split; [reflexivity|]. split.
      * destruct Hin as [<-|Hin]; [by left | right; by right].
      * inversion Hall as [|? ? Ha Hl]; subst.
        constructor; [exact Ha|]. constructor; [lia | exact Hl].
Qed.

(** X27: on a report whose per-tile memory is a list of integers,
    [get_total_tile_memory] is their sum, 0 for an empty list, and
    [get_max_tile_memory] is an item of the list that no item exceeds;
    on an empty list it raises [ValueError]. *)
Theorem tile_memory_total_and_maximum (self : ReportJSON.t) (l : list Z) :
  ReportJSON.get_each_tile_memory self = Ok (JList (map JInt l)) ->
  ReportJSON.get_total_tile_memory self = Ok (JInt (foldr Z.add 0 l))
  /\ (l = [] -> ReportJSON.get_max_tile_memory self = Raise ValueError)
  /\ (l <> [] ->
      exists m,
        ReportJSON.get_max_tile_memory self = Ok (JInt m)
        /\ In m l /\ Forall (fun x => x <= m) l).
Proof.
  intros Hg.
  unfold ReportJSON.get_total_tile_memory, ReportJSON.get_max_tile_memory.
  rewrite Hg. cbn [mbind result_bind]. unfold Py.sum, Py.max.
  cbn [Py.iterate mbind result_bind]. split; [|split].
  - by rewrite sum_of_ints.
  - by intros ->.
  - intros Hne. destruct l as [|a l]; [done|]. cbn [map].
    apply max_of_ints.
Qed.

Lemma tile_memory_total_and_maximum_witness :
  ReportJSON.get_total_tile_memory (decoded [compile_end_event report_text])
  = Ok (JInt (foldr Z.add 0 [10; 20; 30; 40])).
Proof.
  exact (proj1 (tile_memory_total_and_maximum
                  (decoded [compile_end_event report_text])
                  [10; 20; 30; 40] eq_refl)).
Defined.

Lemma first_and_names_of_type (program_type : string) (programs : list json) :
  forall names,
    ReportJSON.names_of_type program_type programs = Ok names ->
    exists p,
      ReportJSON.first_of_type program_type programs = Ok p
      /\ (names = [] <-> p = JNull)
      /\ (forall n rest, names = n :: rest -> Py.getitem p "name" = Ok n).
Proof.
  induction programs as [|q rest IH]; intros names.
  - intros [= <-]. exists JNull. split; [reflexivity|].
    split; [done | discriminate].
  - cbn [ReportJSON.names_of_type ReportJSON.first_of_type].
    destruct (Py.getitem q "type") as [ty|x] eqn:Et; [|discriminate].
    cbn [mbind result_bind].
    destruct (Py.str_eq program_type ty); [|apply IH].
    destruct (Py.getitem q "name") as [n|x] eqn:En; [|discriminate].
    cbn [mbind result_bind].
    destruct (ReportJSON.names_of_type program_type rest) as [ns|x];
      [|discriminate].
    intros [= <-]. exists q. split; [reflexivity|]. split.
    + split; [discriminate|]. intros ->. discriminate.
    + by intros ? ? [= <- <-].
Qed.

(** X28: the two program queries agree: when
    [get_program_names_of_type] returns the names of the programs of a
    type, [get_first_program_of_type] returns [None] exactly when there
    is no such name, and otherwise a program whose name is the first of
    the names. *)
Theorem first_program_has_the_first_name (self : ReportJSON.t)
    (program_type : string) (names : list json) :
  ReportJSON.get_program_names_of_type program_type self = Ok (JList names) ->
  exists p,
    ReportJSON.get_first_program_of_type program_type self = Ok p
    /\ (names = [] <-> p = JNull)
    /\ (forall n rest, names = n :: rest -> Py.getitem p "name" = Ok n).
Proof.
  unfold ReportJSON.get_program_names_of_type,
    ReportJSON.get_first_program_of_type.
  destruct (ReportJSON.event COMPILE_END self) as [ce|x]; [|discriminate].
  cbn [mbind result_bind].
  destruct (Py.getitem ce "programs") as [ps|x]; [|discriminate].
  cbn [mbind result_bind].
  destruct (Py.iterate ps) as [programs|x]; [|discriminate].
  cbn [mbind result_bind].
  destruct (ReportJSON.names_of_type program_type programs) as [ns|x] eqn:E;
    [|discriminate].
  intros [= <-]. by apply first_and_names_of_type.
Qed.

Lemma first_program_has_the_first_name_witness :
  exists p,
    ReportJSON.get_first_program_of_type "GlobalExchange"
      (recorded COMPILE_END named_report) = Ok p
    /\ ([JStr "exchange/0"] = [] <-> p = JNull)
    /\ (forall n rest,
          [JStr "exchange/0"] = n :: rest -> Py.getitem p "name" = Ok n).
Proof.
  exact (first_program_has_the_first_name
           (recorded COMPILE_END named_report) "GlobalExchange"
           [JStr "exchange/0"] eq_refl).
Defined.

(** ** Pipeline stages *)

Lemma set_pop_singleton (ipus : gset Z) (ipu : Z) :
  size ipus = 1%nat /\ ReportJSON.set_pop ipus = Ok ipu <-> ipus = {[ipu]}.
Proof.
  unfold ReportJSON.set_pop. split.
  - intros [Hs Hp]. apply size_1_elem_of in Hs as [x Hx].
    apply leibniz_equiv in Hx. subst ipus.
    rewrite elements_singleton in Hp. by injection Hp as <-.
  - intros ->. by rewrite size_singleton, elements_singleton.
Qed.

Lemma Ok_inj {A} (a b : A) : Ok a = Ok b -> a = b.
Proof.
  intros E.
  exact (f_equal (fun r => match r with Ok x => x | Raise _ => a end) E).
Qed.

Section PipelineProperties.
Variable str_of_set : gset Z -> string.

Lemma check_stages_spec (tm : TensorMap.t) (self : ReportJSON.t)
    (expected_ipus : list Z) :
  forall i : Z,
    ReportJSON.check_stages str_of_set tm i expected_ipus self = (self, Ok tt)
    <-> forall (j : nat) (expected_ipu : Z),
          expected_ipus !! j = Some expected_ipu ->
          let stage :=
            items_matching_at_least_one_pattern
              (TensorMap.computation_names tm)
              [ReportJSON.stage_pattern (i + Z.of_nat j)] in
          stage <> []
          /\ TensorMap.ipu_ids tm (CList stage) = Ok {[expected_ipu]}.
Proof.
  induction expected_ipus as [|e rest IH]; intros i.
  - split; [by intros _ j ? | reflexivity].
  - cbn [ReportJSON.check_stages]. cbv zeta.
    set (stage := items_matching_at_least_one_pattern
                    (TensorMap.computation_names tm)
                    [ReportJSON.stage_pattern i]).
    assert (Hhead :
              (forall (j : nat) (expected_ipu : Z),
                  (e :: rest) !! j = Some expected_ipu ->
                  items_matching_at_least_one_pattern
                    (TensorMap.computation_names tm)
                    [ReportJSON.stage_pattern (i + Z.of_nat j)] <> []
                  /\ TensorMap.ipu_ids tm
                       (CList (items_matching_at_least_one_pattern
                                 (TensorMap.computation_names tm)
                                 [ReportJSON.stage_pattern (i + Z.of_nat j)]))
                     = Ok {[expected_ipu]})
              <-> (stage <> []
                   /\ TensorMap.ipu_ids tm (CList stage) = Ok {[e]})
                  /\ forall (j : nat) (expected_ipu : Z),
                       rest !! j = Some expected_ipu ->
                       items_matching_at_least_one_pattern
                         (TensorMap.computation_names tm)
                         [ReportJSON.stage_pattern (i + 1 + Z.of_nat j)] <> []
                       /\ TensorMap.ipu_ids tm
                            (CList (items_matching_at_least_one_pattern
                                      (TensorMap.computation_names tm)
                                      [ReportJSON.stage_pattern
                                         (i + 1 + Z.of_nat j)]))
                          = Ok {[expected_ipu]}).
    { split.
      - intros Hall. split.
        + specialize (Hall O e eq_refl). cbn in Hall.
          by rewrite Z.add_0_r in Hall.
        + intros j x Hj. specialize (Hall (S j) x Hj).
          by replace (i + Z.of_nat (S j)) with (i + 1 + Z.of_nat j) in Hall
            by lia.
      - intros [H0 Hrest] [|j] x Hj.
        + injection Hj as <-. cbn. by rewrite Z.add_0_r.
        + replace (i + Z.of_nat (S j)) with (i + 1 + Z.of_nat j) by lia.
          by apply Hrest. }
    cbv zeta. rewrite Hhead, <- (IH (i + 1)). clear Hhead IH.
    unfold ReportJSON.bind at 1, ReportJSON.assertTrue, ReportJSON.ret,
      ReportJSON.raise, ReportJSON.lift.
    destruct stage as [|s0 stage'] eqn:Es; cbn [nonnil].
    { split; [discriminate | by intros [[? _] _]]. }
    unfold ReportJSON.bind at 1.
    destruct (TensorMap.ipu_ids tm (CList (s0 :: stage'))) as [ipus|x].
    2: { split; [discriminate | by intros [[_ ?] _]]. }
    unfold ReportJSON.bind at 1, ReportJSON.assertEqual at 1, ReportJSON.ret,
      ReportJSON.raise, ReportJSON.lift.
    destruct (Z.of_nat (size ipus) =? 1) eqn:Esz.
    2: { apply Z.eqb_neq in Esz. split; [discriminate|].
         intros [[_ Hx] _]. apply Ok_inj in Hx as ->.
         by rewrite size_singleton in Esz. }
    apply Z.eqb_eq in Esz.
    unfold ReportJSON.bind at 1.
    destruct (ReportJSON.set_pop ipus) as [ipu|x] eqn:Ep.
    2: { split; [discriminate|]. intros [[_ Hx] _].
         apply Ok_inj in Hx as ->. unfold ReportJSON.set_pop in Ep.
         by rewrite elements_singleton in Ep. }
    assert (Hipus : ipus = {[ipu]})
      by (apply set_pop_singleton; split; [lia | exact Ep]).
    subst ipus.
    unfold ReportJSON.bind at 1, ReportJSON.assertEqual at 1, ReportJSON.ret,
      ReportJSON.raise, ReportJSON.lift.
    destruct (ipu =? e) eqn:Ee.
    + apply Z.eqb_eq in Ee as ->. split; [|by intros [_ ?]].
      intros Hr. split; [|exact Hr]. by split.
    + apply Z.eqb_neq in Ee. split; [discriminate|].
      intros [[_ Hx] _]. exfalso. apply Ee. apply Ok_inj in Hx.
      assert (Hin : ipu ∈ ({[e]} : gset Z))
        by (rewrite <- Hx; by apply elem_of_singleton).
      by apply elem_of_singleton in Hin.
Qed.

(** X29: with a tensor map, [assert_pipeline_stages_on_expected_ipu]
    passes exactly when no computation is named as stage
    [len(expected_ipus) + 1] and, for every index [i] of [expected_ipus],
    some computation is named as stage [i] and the tiles of all such
    computations are on the one IPU [expected_ipus[i]].  The stage
    numbered [len(expected_ipus)] itself is not looked at: the sample
    pipeline of three stages passes for two expected IPUs. *)
Theorem pipeline_stage_assertion (self : ReportJSON.t) (tm : TensorMap.t)
    (expected_ipus : list Z) :
  ReportJSON.tensor_map self = Some tm ->
  (ReportJSON.assert_pipeline_stages_on_expected_ipu str_of_set expected_ipus
     self = (self, Ok tt)
   <-> items_matching_at_least_one_pattern (TensorMap.computation_names tm)
         [ReportJSON.stage_pattern (Z.of_nat (length expected_ipus) + 1)]
       = []
       /\ forall (i : nat) (expected_ipu : Z),
            expected_ipus !! i = Some expected_ipu ->
            let stage :=
              items_matching_at_least_one_pattern
                (TensorMap.computation_names tm)
                [ReportJSON.stage_pattern (Z.of_nat i)] in
            stage <> []
            /\ TensorMap.ipu_ids tm (CList stage) = Ok {[expected_ipu]})
  /\ ReportJSON.assert_pipeline_stages_on_expected_ipu str_of_set [0; 1]
       (ReportJSON.with_tensor_map (Some three_stages) blank)
     = (ReportJSON.with_tensor_map (Some three_stages) blank, Ok tt).
Proof.
  intros Htm. split; [|vm_compute; reflexivity].
  unfold ReportJSON.assert_pipeline_stages_on_expected_ipu. rewrite Htm.
  unfold ReportJSON.bind at 1, ReportJSON.assertFalse, ReportJSON.ret,
    ReportJSON.raise, ReportJSON.lift.
  destruct (items_matching_at_least_one_pattern _ _) as [|s0 l];
    cbn [nonnil].
  - rewrite (check_stages_spec tm self expected_ipus 0). split.
    + intros Hall. split; [reflexivity|]. intros i x Hi.
      apply (Hall i x Hi).
    + intros [_ Hall] j x Hj. apply (Hall j x Hj).
  - split; [discriminate | by intros [? _]].
Qed.

End PipelineProperties.

Lemma pipeline_stage_assertion_witness :
  ReportJSON.assert_pipeline_stages_on_expected_ipu (fun _ => "") [0; 1; 1]
    (ReportJSON.with_tensor_map (Some three_stages) blank)
  = (ReportJSON.with_tensor_map (Some three_stages) blank, Ok tt)
  <-> items_matching_at_least_one_pattern
        (TensorMap.computation_names three_stages)
        [ReportJSON.stage_pattern (Z.of_nat (length [0; 1; 1]) + 1)]
      = []
      /\ forall (i : nat) (expected_ipu : Z),
           [0; 1; 1] !! i = Some expected_ipu ->
           let stage :=
             items_matching_at_least_one_pattern
               (TensorMap.computation_names three_stages)
               [ReportJSON.stage_pattern (Z.of_nat i)] in
           stage <> []
           /\ TensorMap.ipu_ids three_stages (CList stage)
              = Ok {[expected_ipu]}.
Proof.
  exact (proj1 (pipeline_stage_assertion (fun _ => "")
                  (ReportJSON.with_tensor_map (Some three_stages) blank)
                  three_stages [0; 1; 1] eq_refl)).
Defined.

(** ** Configuring the IPU system *)

(** X30: [configure_ipu_system] refuses a device count override
    together with sharding or pipelining, and nothing else; an override
    of 0 counts as no override.  Without an override it asks for 2
    devices when sharded, else 4 when pipelining, twice as many when
    replicated, 2 for replication alone, and adds no device entry at all
    only when none of the three is set. *)
Theorem configure_device_count (a : Configure.args) :
  (Configure.configure_ipu_system a = Raise AssertionError
   <-> ReportJSON.supplied (Configure.device_count_override a) = true
       /\ (Configure.pipelining a = true \/ Configure.sharded a = true))
  /\ Configure.configure_ipu_system
       (Configure.with_device_count_override (Some 0) a)
     = Configure.configure_ipu_system
         (Configure.with_device_count_override None a)
  /\ forall opts,
       Configure.configure_ipu_system a = Ok opts ->
       (IpuOptions.device_config opts = []
        <-> ReportJSON.supplied (Configure.device_count_override a) = false
            /\ Configure.sharded a = false /\ Configure.pipelining a = false
            /\ Configure.replicated a = false)
       /\ (ReportJSON.supplied (Configure.device_count_override a) = false ->
           IpuOptions.device_config opts
           = if Configure.sharded a
             then [if Configure.replicated a then 4 else 2]
             else if Configure.pipelining a
             then [if Configure.replicated a then 8 else 4]
             else if Configure.replicated a then [2] else []).
Proof.
  unfold Configure.configure_ipu_system, Configure.device_count.
  destruct a as [? ? ? ? ? ? sh pi re ? ? ? eo ov ? ? ? ? ?].
  cbn [Configure.device_count_override Configure.pipelining Configure.sharded
       Configure.replicated Configure.with_device_count_override].
  split; [|split].
  - destruct pi, sh, (ReportJSON.supplied ov); cbn [andb];
      split; try discriminate; try tauto; intros [? [?|?]]; discriminate.
  - reflexivity.
  - intros opts.
    destruct (ReportJSON.supplied ov) eqn:Es.
    + destruct pi, sh; cbn [andb]; try discriminate.
      intros [= <-]. cbn [IpuOptions.device_config].
      split; [|discriminate].
      destruct ov as [n|]; [|discriminate]. cbn [default from_option id].
      unfold ReportJSON.supplied in Es. destruct (n =? 0); [discriminate|].
      split; [discriminate | by intros [? _]].
    + rewrite !andb_false_r. intros [= <-]. cbn [IpuOptions.device_config].
      destruct sh, pi, re; cbn; split; try reflexivity;
        split; try discriminate; try tauto;
        intros (_ & ? & ? & ?); discriminate.
Qed.

